(** * dbmon: snapshot delta, rule-based alerting and explanations

    A shallow embedding of the core of the [dbmon] package
    ([alerts.py], [explainer.py], [collector.py], [sample_loader.py],
    [stress.py], the bulk indexing of [elastic.py] and the delta logic of
    [dashboard.py]) together with the properties its specification states
    about it, and further properties of the code.

    The first part models the fragment of the Python runtime the code
    relies on: JSON-like values, exceptions, the numeric tower with exact
    comparison of [int] and [float], [str()], fixed-point formatting,
    dictionaries and a few string methods.  The second part embeds the
    source functions, one definition per Python function, in the order of
    the statements of the source.  The last part states and proves the
    properties. *)

From Stdlib Require Import ZArith List String Ascii Bool Lia Permutation.
From Stdlib Require Import Floats.SpecFloat.
From stdpp Require Import base option list gmap sets strings.

Set Warnings "-register-all".
Local Open Scope string_scope.
Local Open Scope Z_scope.

(** ** Exceptions and results *)

(** The exceptions the modelled fragment can raise. *)
Inductive exn :=
| TypeError | ValueError | KeyError | IndexError
| AttributeError | OverflowError | ZeroDivisionError.

(** A computation either returns a value or raises. *)
Inductive result (A : Type) :=
| Ok (a : A)
| Raise (e : exn).
Arguments Ok {A} a.
Arguments Raise {A} e.

Definition bind {A B} (m : result A) (k : A → result B) : result B :=
  match m with
  | Ok a => k a
  | Raise e => Raise e
  end.

Notation "'do' x <- m ; k" := (bind m (fun x => k))
  (at level 10, x name, m at level 99, k at level 200,
   format "'[v' 'do'  x  <-  m ;  '/' k ']'").

Definition is_ok {A} (m : result A) : bool :=
  match m with Ok _ => true | Raise _ => false end.

Fixpoint mapM {A B} (f : A → result B) (l : list A) : result (list B) :=
  match l with
  | [] => Ok []
  | x :: l' => do y <- f x; do ys <- mapM f l'; Ok (y :: ys)
  end.

(** ** Values *)

(** IEEE 754 binary64, as specified by the standard library. *)
Definition prec64 : Z := 53.
Definition emax64 : Z := 1024.

(** The values [json.loads] produces, which are the values events, rules,
    payloads, alerts and explanations are made of.  A [str] is held as the
    bytes of its UTF-8 encoding; a [dict] keeps its insertion order and has
    [str] keys. *)
Inductive value :=
| VNone
| VBool (b : bool)
| VInt (n : Z)
| VFloat (x : spec_float)
| VStr (s : string)
| VList (xs : list value)
| VDict (kvs : list (string * value)).

Abbreviation dict := (list (string * value)).

(** *** Dictionaries *)

(** [d.get(k)] as an option; the first binding of a key is the binding. *)
Fixpoint dict_lookup {V} (k : string) (d : list (string * V)) : option V :=
  match d with
  | [] => None
  | (k', v) :: d' => if String.eqb k k' then Some v else dict_lookup k d'
  end.

(** [k in d] *)
Definition dict_has {V} (k : string) (d : list (string * V)) : bool :=
  match dict_lookup k d with Some _ => true | None => false end.

(** [d.get(k)], [None] when absent. *)
Definition dict_get (k : string) (d : dict) : value :=
  match dict_lookup k d with Some v => v | None => VNone end.

(** [d.get(k, default)] *)
Definition dict_get_or (k : string) (default : value) (d : dict) : value :=
  match dict_lookup k d with Some v => v | None => default end.

(** [d[k] = v]: replaces the value in place when the key exists, appends
    the binding otherwise. *)
Fixpoint dict_set {V} (k : string) (v : V) (d : list (string * V)) : list (string * V) :=
  match d with
  | [] => [(k, v)]
  | (k', v') :: d' =>
      if String.eqb k k' then (k', v) :: d' else (k', v') :: dict_set k v d'
  end.

(** [d.setdefault(k, v)] *)
Definition dict_setdefault {V} (k : string) (v : V) (d : list (string * V)) : list (string * V) :=
  if dict_has k d then d else dict_set k v d.

(** [d[k]] *)
Definition dict_item (k : string) (d : dict) : result value :=
  match dict_lookup k d with Some v => Ok v | None => Raise KeyError end.

(** ** Numbers *)

(** [bool] is a subclass of [int]; numbers are the three kinds below. *)
Inductive num :=
| NInt (n : Z)
| NFloat (x : spec_float).

Definition num_of (v : value) : option num :=
  match v with
  | VBool b => Some (NInt (Z.b2z b))
  | VInt n => Some (NInt n)
  | VFloat x => Some (NFloat x)
  | _ => None
  end.

(** The extended real a number denotes: [XFin m e] is [m * 2^e]. *)
Inductive xreal :=
| XNaN
| XNegInf
| XFin (m e : Z)
| XPosInf.

Definition xreal_of_float (x : spec_float) : xreal :=
  match x with
  | S754_zero _ => XFin 0 0
  | S754_infinity s => if s then XNegInf else XPosInf
  | S754_nan => XNaN
  | S754_finite s m e => XFin (if s then Z.neg m else Z.pos m) e
  end.

Definition xreal_of_num (a : num) : xreal :=
  match a with
  | NInt n => XFin n 0
  | NFloat x => xreal_of_float x
  end.

(** Exact comparison of [m1 * 2^e1] with [m2 * 2^e2]. *)
Definition dyadic_compare (m1 e1 m2 e2 : Z) : comparison :=
  let e := Z.min e1 e2 in
  Z.compare (m1 * 2 ^ (e1 - e)) (m2 * 2 ^ (e2 - e)).

(** Python compares an [int] with a [float] exactly, without converting
    either; a comparison with NaN has no result. *)
Definition xreal_compare (a b : xreal) : option comparison :=
  match a, b with
  | XNaN, _ | _, XNaN => None
  | XNegInf, XNegInf => Some Eq
  | XNegInf, _ => Some Lt
  | _, XNegInf => Some Gt
  | XPosInf, XPosInf => Some Eq
  | XPosInf, _ => Some Gt
  | _, XPosInf => Some Lt
  | XFin m1 e1, XFin m2 e2 => Some (dyadic_compare m1 e1 m2 e2)
  end.

Definition num_compare (a b : num) : option comparison :=
  xreal_compare (xreal_of_num a) (xreal_of_num b).

(** [float(n)]: round to nearest, ties to even; too large an [int] raises. *)
Definition float_of_Z (n : Z) : result spec_float :=
  match binary_normalize prec64 emax64 n 0 false with
  | S754_infinity _ => Raise OverflowError
  | x => Ok x
  end.

Definition float_of_num (a : num) : result spec_float :=
  match a with
  | NInt n => float_of_Z n
  | NFloat x => Ok x
  end.

Definition float_is_zero (x : spec_float) : bool :=
  match x with S754_zero _ => true | _ => false end.

(** [a / b] on numbers.  [int / int] is the correctly rounded quotient of
    the two integers; with a [float] operand the other one is converted
    first.  A zero divisor raises. *)
Definition num_truediv (a b : num) : result spec_float :=
  match a, b with
  | NInt x, NInt y =>
      if y =? 0 then Raise ZeroDivisionError
      else
        match x with
        | Z0 => Ok (S754_zero (y <? 0))
        | _ =>
            match SFdiv prec64 emax64
                    (S754_finite (x <? 0) (Z.to_pos (Z.abs x)) 0)
                    (S754_finite (y <? 0) (Z.to_pos (Z.abs y)) 0) with
            | S754_infinity _ => Raise OverflowError
            | q => Ok q
            end
        end
  | _, _ =>
      do x <- float_of_num a;
      do y <- float_of_num b;
      if float_is_zero y then Raise ZeroDivisionError
      else Ok (SFdiv prec64 emax64 x y)
  end.

(** [a + b] on numbers. *)
Definition num_add (a b : num) : result num :=
  match a, b with
  | NInt x, NInt y => Ok (NInt (x + y))
  | _, _ =>
      do x <- float_of_num a;
      do y <- float_of_num b;
      Ok (NFloat (SFadd prec64 emax64 x y))
  end.

Definition value_of_num (a : num) : value :=
  match a with
  | NInt n => VInt n
  | NFloat x => VFloat x
  end.

(** ** Text *)

(** *** Integers in decimal *)

Definition digit_char (d : N) : ascii := ascii_of_N (48 + d).

Fixpoint decimal_go (fuel : nat) (n : N) (acc : string) : string :=
  match fuel with
  | O => acc
  | S fuel' =>
      let acc' := String (digit_char (n mod 10)) acc in
      if (n / 10 =? 0)%N then acc' else decimal_go fuel' (n / 10)%N acc'
  end.

(** The decimal digits of a natural number; a number has no more decimal
    than binary digits. *)
Definition decimal (n : N) : string := decimal_go (S (N.size_nat n)) n "".

(** [str(n)] for an [int]. *)
Definition int_str (n : Z) : string :=
  if n <? 0 then "-" +:+ decimal (Z.abs_N n) else decimal (Z.abs_N n).

Fixpoint zeros (n : nat) : string :=
  match n with
  | O => ""
  | S n' => String "0" (zeros n')
  end.

(** *** Fixed-point formatting: [format(x, '.Nf')] and [format(x, ',.Nf')] *)

(** The integer nearest to [a / b] for [b > 0], ties to even. *)
Definition round_half_even (a b : Z) : Z :=
  let q := a / b in
  match Z.compare (2 * (a mod b)) b with
  | Lt => q
  | Gt => q + 1
  | Eq => if Z.even q then q else q + 1
  end.

(** [m * 2^e * 10^digits] rounded to an integer. *)
Definition scaled_round (digits : nat) (m : positive) (e : Z) : Z :=
  let p := 10 ^ Z.of_nat digits in
  if 0 <=? e then Z.pos m * 2 ^ e * p
  else round_half_even (Z.pos m * p) (2 ^ (- e)).

(** Thousands separators, on the reversed digits of the integer part. *)
Fixpoint group3_rev (i : nat) (rev_digits : list ascii) : list ascii :=
  match rev_digits with
  | [] => []
  | c :: rest =>
      match i with
      | 3%nat => ","%char :: c :: group3_rev 1 rest
      | _ => c :: group3_rev (S i) rest
      end
  end.

Definition group3 (s : string) : string :=
  string_of_list_ascii (rev (group3_rev 0 (rev (list_ascii_of_string s)))).

(** The text of [r / 10^digits] with [digits] places after the point. *)
Definition fixed_text (comma : bool) (digits : nat) (neg : bool) (r : Z) : string :=
  let ds := decimal (Z.abs_N r) in
  let ds := zeros (S digits - String.length ds) +:+ ds in
  let n := (String.length ds - digits)%nat in
  let ip := substring 0 n ds in
  let fp := substring n digits ds in
  (if neg then "-" else "")
  +:+ (if comma then group3 ip else ip)
  +:+ (match digits with O => "" | _ => "." +:+ fp end).

Definition format_f (comma : bool) (digits : nat) (x : spec_float) : string :=
  match x with
  | S754_nan => "nan"
  | S754_infinity s => if s then "-inf" else "inf"
  | S754_zero s => fixed_text comma digits s 0
  | S754_finite s m e => fixed_text comma digits s (scaled_round digits m e)
  end.

(** *** [repr] of a [float]: the shortest digits that read back as it *)

(** [x * 10^k] for a positive rational [x] given as a fraction. *)
Definition scale10 (k : Z) (x : Z * Z) : Z * Z :=
  let '(a, b) := x in
  if 0 <=? k then (a * 10 ^ k, b) else (a, b * 10 ^ (- k)).

Definition scale2 (k : Z) (x : Z * Z) : Z * Z :=
  let '(a, b) := x in
  if 0 <=? k then (a * 2 ^ k, b) else (a, b * 2 ^ (- k)).

(** [x < 10^p] *)
Definition below_pow10 (x : Z * Z) (p : Z) : bool :=
  let '(a, b) := scale10 (- p) x in a <? b.

(** The position of the decimal point: the least [p] with
    [m * 2^e < 10^p], found near its estimate from the binary size. *)
Definition decimal_point (m : positive) (e : Z) : Z :=
  let x := scale2 e (Z.pos m, 1) in
  let p0 := (Z.pos (digits2_pos m) + e - 1) * 30103 / 100000 in
  match List.find (below_pow10 x) [p0 - 1; p0; p0 + 1; p0 + 2; p0 + 3] with
  | Some p => p
  | None => p0 + 3
  end.

(** Whether the decimal [c * 10^k] reads back as the float [m * 2^e]:
    it lies between the midpoints to the neighbouring floats, the
    midpoints themselves counting when [m] is even. *)
Definition reads_back (m : positive) (e : Z) (c k : Z) : bool :=
  let '(a, b) := scale2 (2 - e) (scale10 k (c, 1)) in
  let below :=
    if (Pos.eqb m (2 ^ 52)%positive && (-1074 <? e))%bool then 4 * Z.pos m - 1
    else 4 * Z.pos m - 2 in
  let above := 4 * Z.pos m + 2 in
  let edge := Z.even (Z.pos m) in
  ((below * b <? a) || (edge && (below * b =? a)))
  && ((a <? above * b) || (edge && (a =? above * b))).

(** The [n]-digit decimal, if any, that reads back as [m * 2^e], the
    nearer one of the two that enclose it. *)
Definition digits_at (m : positive) (e : Z) (p : Z) (n : Z) : option (Z * Z) :=
  let k := p - n in
  let '(a, b) := scale10 (- k) (scale2 e (Z.pos m, 1)) in
  let lo := a / b in
  let hi := lo + 1 in
  let dlo := a - lo * b in
  let dhi := hi * b - a in
  let ok_lo := reads_back m e lo k in
  let ok_hi := reads_back m e hi k in
  if (ok_lo && ok_hi)%bool then
    match Z.compare dlo dhi with
    | Lt => Some (lo, k)
    | Gt => Some (hi, k)
    | Eq => Some (if Z.even lo then lo else hi, k)
    end
  else if ok_lo then Some (lo, k)
  else if ok_hi then Some (hi, k)
  else None.

Fixpoint shortest_go (fuel : nat) (m : positive) (e : Z) (p : Z) (n : Z) : Z * Z :=
  match fuel with
  | O => (Z.pos m, e)
  | S fuel' =>
      match digits_at m e p n with
      | Some ck => ck
      | None => shortest_go fuel' m e p (n + 1)
      end
  end.

Fixpoint strip_zeros_rev (l : list ascii) : list ascii :=
  match l with
  | "0"%char :: l' => strip_zeros_rev l'
  | _ => l
  end.

(** The digits of the shortest decimal and the position of its point. *)
Definition shortest_digits (m : positive) (e : Z) : string * Z :=
  let '(c, k) := shortest_go 17 m e (decimal_point m e) 1 in
  let ds := decimal (Z.abs_N c) in
  (string_of_list_ascii (rev (strip_zeros_rev (rev (list_ascii_of_string ds)))),
   Z.of_nat (String.length ds) + k).

Definition float_repr_finite (neg : bool) (m : positive) (e : Z) : string :=
  let '(ds, p) := shortest_digits m e in
  let len := Z.of_nat (String.length ds) in
  (if neg then "-" else "")
  +:+ (if ((p <=? -4) || (16 <? p))%bool then
         let x := p - 1 in
         let xs := decimal (Z.abs_N x) in
         substring 0 1 ds
         +:+ (if 1 <? len then "." +:+ substring 1 (String.length ds - 1) ds else "")
         +:+ "e" +:+ (if x <? 0 then "-" else "+")
         +:+ zeros (2 - String.length xs) +:+ xs
       else if p <=? 0 then "0." +:+ zeros (Z.to_nat (- p)) +:+ ds
       else if len <=? p then ds +:+ zeros (Z.to_nat (p - len)) +:+ ".0"
       else substring 0 (Z.to_nat p) ds +:+ "."
            +:+ substring (Z.to_nat p) (String.length ds - Z.to_nat p) ds).

(** [repr(x)], which is also [str(x)], for a [float]. *)
Definition float_repr (x : spec_float) : string :=
  match x with
  | S754_nan => "nan"
  | S754_infinity s => if s then "-inf" else "inf"
  | S754_zero s => if s then "-0.0" else "0.0"
  | S754_finite s m e => float_repr_finite s m e
  end.

(** *** Strings *)

Definition dquote : ascii := ascii_of_N 34.
Definition backslash : ascii := ascii_of_N 92.

Definition bytes (l : list N) : string :=
  string_of_list_ascii (List.map ascii_of_N l).

Definition string_rev (s : string) : string :=
  string_of_list_ascii (rev (list_ascii_of_string s)).

Fixpoint string_drop (n : nat) (s : string) : string :=
  match n, s with
  | S n', String _ s' => string_drop n' s'
  | _, _ => s
  end.

(** [sub in s] *)
Fixpoint contains (sub s : string) : bool :=
  String.prefix sub s
  || match s with
     | EmptyString => false
     | String _ s' => contains sub s'
     end.

Definition hex_char (d : N) : ascii :=
  if (d <? 10)%N then ascii_of_N (48 + d) else ascii_of_N (87 + d).

(** [repr(s)] for a [str]: single quotes unless the text has a single and
    no double quote; control characters escaped.  Characters beyond ASCII
    are kept, as [repr] does for the printable ones. *)
Fixpoint str_escape (q : ascii) (s : string) : string :=
  match s with
  | EmptyString => ""
  | String c s' =>
      let n := N_of_ascii c in
      (if Ascii.eqb c backslash then String backslash (String backslash "")
       else if Ascii.eqb c q then String backslash (String q "")
       else if (n =? 9)%N then String backslash "t"
       else if (n =? 10)%N then String backslash "n"
       else if (n =? 13)%N then String backslash "r"
       else if ((n <? 32) || (n =? 127))%N then
         String backslash (String "x" (String (hex_char (n / 16)) (String (hex_char (n mod 16)) "")))
       else String c "")
      +:+ str_escape q s'
  end.

Definition str_repr (s : string) : string :=
  let q :=
    if contains "'" s && negb (contains (String dquote "") s)
    then dquote else "'"%char in
  String q (str_escape q s) +:+ String q "".

(** The first [n] characters of a text held as UTF-8: a character is its
    lead byte and the continuation bytes [10xxxxxx] that follow it. *)
Definition is_continuation (c : ascii) : bool :=
  let n := N_of_ascii c in ((128 <=? n) && (n <? 192))%N.

Fixpoint utf8_take (n : nat) (s : string) : string :=
  match s with
  | EmptyString => ""
  | String c s' =>
      if is_continuation c then String c (utf8_take n s')
      else
        match n with
        | O => ""
        | S n' => String c (utf8_take n' s')
        end
  end.

(** The characters [str.strip()] removes, as UTF-8. *)
Definition whitespace : list string :=
  List.map bytes
    [ [9]; [10]; [11]; [12]; [13]; [28]; [29]; [30]; [31]; [32];
      [194; 133]; [194; 160]; [225; 154; 128];
      [226; 128; 128]; [226; 128; 129]; [226; 128; 130]; [226; 128; 131];
      [226; 128; 132]; [226; 128; 133]; [226; 128; 134]; [226; 128; 135];
      [226; 128; 136]; [226; 128; 137]; [226; 128; 138];
      [226; 128; 168]; [226; 128; 169]; [226; 128; 175];
      [226; 129; 159]; [227; 128; 128] ]%N.

Fixpoint lstrip_go (fuel : nat) (ws : list string) (s : string) : string :=
  match fuel with
  | O => s
  | S fuel' =>
      match List.find (fun w => String.prefix w s) ws with
      | Some w => lstrip_go fuel' ws (string_drop (String.length w) s)
      | None => s
      end
  end.

Definition lstrip (s : string) : string :=
  lstrip_go (String.length s) whitespace s.

Definition rstrip (s : string) : string :=
  string_rev
    (lstrip_go (String.length s) (List.map string_rev whitespace) (string_rev s)).

(** [s.strip()] *)
Definition strip (s : string) : string := rstrip (lstrip s).

(** [s.split(sep)] for a non-empty [sep]; [skip] counts the characters of
    a separator still to pass over. *)
Fixpoint split_go (sep s : string) (skip : nat) (cur : list ascii) : list string :=
  match s with
  | EmptyString => [string_of_list_ascii (rev cur)]
  | String c s' =>
      match skip with
      | S k => split_go sep s' k cur
      | O =>
          if String.prefix sep s
          then string_of_list_ascii (rev cur)
               :: split_go sep s' (String.length sep - 1) []
          else split_go sep s' 0 (c :: cur)
      end
  end.

Definition split (sep s : string) : list string := split_go sep s 0 [].

(** [l[i]] *)
Definition list_item {A} (i : nat) (l : list A) : result A :=
  match nth_error l i with
  | Some x => Ok x
  | None => Raise IndexError
  end.

(** ** Operations on values *)

(** [bool(v)] *)
Definition py_truthy (v : value) : bool :=
  match v with
  | VNone => false
  | VBool b => b
  | VInt n => negb (n =? 0)
  | VFloat x => negb (float_is_zero x)
  | VStr s => negb (String.eqb s "")
  | VList xs => match xs with [] => false | _ => true end
  | VDict kvs => match kvs with [] => false | _ => true end
  end.

(** [a or b] *)
Definition py_or (a b : value) : value := if py_truthy a then a else b.

Definition is_none (v : value) : bool :=
  match v with VNone => true | _ => false end.

Definition num_eqb (a b : num) : bool :=
  match num_compare a b with Some Eq => true | _ => false end.

(** [a == b]: numbers by value across [bool], [int] and [float]; lists
    element by element; dictionaries as mappings, whatever the order. *)
Fixpoint py_eq (a b : value) {struct a} : bool :=
  match a, b with
  | VNone, VNone => true
  | VStr s, VStr t => String.eqb s t
  | VList xs, VList ys =>
      (fix go (xs ys : list value) {struct xs} : bool :=
         match xs, ys with
         | [], [] => true
         | x :: xs', y :: ys' => py_eq x y && go xs' ys'
         | _, _ => false
         end) xs ys
  | VDict d1, VDict d2 =>
      Nat.eqb (length d1) (length d2)
      && (fix go (d : list (string * value)) : bool :=
            match d with
            | [] => true
            | (k, v) :: d' =>
                match dict_lookup k d2 with
                | Some w => py_eq v w
                | None => false
                end && go d'
            end) d1
  | _, _ =>
      match num_of a, num_of b with
      | Some x, Some y => num_eqb x y
      | _, _ => false
      end
  end.

(** [a != b] *)
Definition py_ne (a b : value) : bool := negb (py_eq a b).

(** The four ordering operators. *)
Inductive ordop := OpLt | OpLe | OpGt | OpGe.

Definition holds (op : ordop) (c : comparison) : bool :=
  match op, c with
  | OpLt, Lt | OpLe, Lt | OpLe, Eq | OpGt, Gt | OpGe, Gt | OpGe, Eq => true
  | _, _ => false
  end.

(** [a < b], [a <= b], [a > b], [a >= b].  Numbers are ordered with
    numbers (nothing holds of NaN), [str] with [str], lists with lists
    at their first differing items; every other pairing raises. *)
Fixpoint py_order (op : ordop) (a b : value) {struct a} : result bool :=
  match a, b with
  | VStr s, VStr t => Ok (holds op (String.compare s t))
  | VList xs, VList ys =>
      (fix go (xs ys : list value) {struct xs} : result bool :=
         match xs, ys with
         | x :: xs', y :: ys' =>
             if py_eq x y then go xs' ys' else py_order op x y
         | _, _ => Ok (holds op (Nat.compare (length xs) (length ys)))
         end) xs ys
  | _, _ =>
      match num_of a, num_of b with
      | Some x, Some y =>
          Ok (match num_compare x y with
              | Some c => holds op c
              | None => false
              end)
      | _, _ => Raise TypeError
      end
  end.

Definition py_lt := py_order OpLt.
Definition py_le := py_order OpLe.
Definition py_gt := py_order OpGt.
Definition py_ge := py_order OpGe.

(** [a + b] *)
Definition py_add (a b : value) : result value :=
  match a, b with
  | VStr s, VStr t => Ok (VStr (s +:+ t))
  | VList xs, VList ys => Ok (VList (xs ++ ys))
  | _, _ =>
      match num_of a, num_of b with
      | Some x, Some y => do r <- num_add x y; Ok (value_of_num r)
      | _, _ => Raise TypeError
      end
  end.

(** [a / b] *)
Definition py_truediv (a b : value) : result value :=
  match num_of a, num_of b with
  | Some x, Some y => do q <- num_truediv x y; Ok (VFloat q)
  | _, _ => Raise TypeError
  end.

(** [v[:n]] *)
Definition py_slice_to (n : nat) (v : value) : result value :=
  match v with
  | VStr s => Ok (VStr (utf8_take n s))
  | VList xs => Ok (VList (firstn n xs))
  | _ => Raise TypeError
  end.

(** [repr(v)] *)
Fixpoint py_repr (v : value) : string :=
  match v with
  | VNone => "None"
  | VBool b => if b then "True" else "False"
  | VInt n => int_str n
  | VFloat x => float_repr x
  | VStr s => str_repr s
  | VList xs => "[" +:+ String.concat ", " (List.map py_repr xs) +:+ "]"
  | VDict kvs =>
      "{"
      +:+ String.concat ", "
            ((fix go (l : list (string * value)) : list string :=
                match l with
                | [] => []
                | (k, w) :: l' => (str_repr k +:+ ": " +:+ py_repr w) :: go l'
                end) kvs)
      +:+ "}"
  end.

(** [str(v)], the text an f-string puts for [{v}]. *)
Definition py_str (v : value) : string :=
  match v with
  | VStr s => s
  | _ => py_repr v
  end.

(** [format(v, '.Nf')] and [format(v, ',.Nf')], the text an f-string puts
    for [{v:.Nf}] and [{v:,.Nf}]: a number is formatted as a [float]; a
    [str] does not know the code, the other kinds take no format. *)
Definition py_format_f (comma : bool) (digits : nat) (v : value) : result string :=
  match v with
  | VStr _ => Raise ValueError
  | _ =>
      match num_of v with
      | Some a => do x <- float_of_num a; Ok (format_f comma digits x)
      | None => Raise TypeError
      end
  end.

(** [v.get(k)], [v.get(k, default)]: only a [dict] has the method. *)
Definition py_get (k : string) (v : value) : result value :=
  match v with
  | VDict d => Ok (dict_get k d)
  | _ => Raise AttributeError
  end.

Definition py_get_or (k : string) (default : value) (v : value) : result value :=
  match v with
  | VDict d => Ok (dict_get_or k default d)
  | _ => Raise AttributeError
  end.

(** A list or a dict cannot be the key of a dict. *)
Definition hashable (v : value) : bool :=
  match v with
  | VList _ | VDict _ => false
  | _ => true
  end.

(** [v.get(key)] for a key that is itself a value: the key has to be
    hashable, and nothing but a [str] is a key of these dicts. *)
Definition py_get_value (key : value) (v : value) : result value :=
  match v with
  | VDict d =>
      if hashable key then
        match key with
        | VStr k => Ok (dict_get k d)
        | _ => Ok VNone
        end
      else Raise TypeError
  | _ => Raise AttributeError
  end.

(** ** The world outside the engine *)

(** [settings.py]: the fields of [Settings] the modelled code reads. *)
Record Settings := {
  sql_instance : string;
  host_name : string;
  use_ai_analysis : bool
}.

(** The defaults of the class. *)
Definition default_settings : Settings :=
  {| sql_instance := "unknown"; host_name := "localhost"; use_ai_analysis := true |}.

(** What [requests.post] does: it raises a [RequestException] (refused
    connection, timeout after 30 s), or it returns a response with a status
    code and a body; [json] is the result of [response.json()], [None]
    when the body is not JSON and the call raises. *)
Inductive http_outcome :=
| RequestException
| Response (status_code : Z) (json : option value).

(** The collaborators of the engine: the configuration, the clock read by
    [_now_iso], the Ollama server, [json.loads] and [json.dumps].  The
    clock reading and the server's answer depend on how many readings and
    requests came before; the answer also depends on the event, which the
    prompt embeds.  [json_loads] is [None] where [json.loads] raises
    [JSONDecodeError].  [serialisable] tells whether [json.dumps] returns
    on a payload: it raises [TypeError] on a payload that holds a value
    JSON has no form for, such as the dates in the rows of a live
    collection, which the embedding does not tell from other values. *)
Record backend := {
  settings : Settings;
  clock_at : nat → string;
  post_at : nat → dict → http_outcome;
  json_loads : string → option value;
  serialisable : value → bool
}.

(** The number of clock readings and of requests made so far. *)
Record world := {
  ticks : nat;
  posts : nat
}.

(** Code that reads the clock or calls the server, and may raise. *)
Definition M (A : Type) : Type := world → result (A * world).

Definition ret {A} (a : A) : M A := fun w => Ok (a, w).

Definition bindM {A B} (m : M A) (k : A → M B) : M B :=
  fun w =>
    match m w with
    | Ok (a, w') => k a w'
    | Raise e => Raise e
    end.

Definition lift {A} (r : result A) : M A :=
  fun w =>
    match r with
    | Ok a => Ok (a, w)
    | Raise e => Raise e
    end.

Notation "'run' x <- m ; k" := (bindM m (fun x => k))
  (at level 10, x name, m at level 99, k at level 200,
   format "'[v' 'run'  x  <-  m ;  '/' k ']'").

(** A [for] loop with an accumulator. *)
Fixpoint foldM {A S} (f : S → A → M S) (l : list A) (s : S) : M S :=
  match l with
  | [] => ret s
  | x :: l' => run s' <- f s x; foldM f l' s'
  end.

(** * explainer.py *)

Module explainer.

(** The dict literal every branch of the fallback returns. *)
Definition explanation (summary details analysis : string)
    (recommendations : list string) : value :=
  VDict [ ("summary", VStr summary);
          ("details", VStr details);
          ("analysis", VStr analysis);
          ("recommendations", VList (List.map VStr recommendations)) ].

(** [_get_fallback_explanation(event)] *)
Definition _get_fallback_explanation (event : dict) : result value :=
  let event_type := dict_get_or "event_type" (VStr "unknown") event in
  let payload := dict_get_or "payload" (VDict []) event in
  if py_eq event_type (VStr "blocking") then
    do blocked <- py_get "blocked_session_id" payload;
    do blocking <- py_get "blocking_session_id" payload;
    do wait <- py_get "wait_type" payload;
    do wait_ms <- py_get "wait_time_ms" payload;
    Ok (explanation
          ("🔒 Your query (session " +:+ py_str blocked +:+ ") is stuck waiting")
          ("It's been waiting for " +:+ py_str wait_ms +:+ " ms because session "
           +:+ py_str blocking +:+ " is using the same data.")
          "Think of it like waiting in line: someone else is modifying the same table/row you need. Your query can't proceed until they're done."
          [ "👉 If the blocking session is yours: Make sure your code commits or rollbacks the transaction quickly (add COMMIT or ROLLBACK).";
            "👉 If the blocking session is someone else's: Ask them to finish their transaction or contact your DBA.";
            "💡 Prevention: Keep transactions SHORT - don't leave BEGIN TRANSACTION open while waiting for user input or doing long operations.";
            "💡 Add WHERE clauses to update/delete only the rows you need (less blocking for others)." ])
  else if py_eq event_type (VStr "deadlocks") then
    Ok (explanation
          "💀 DEADLOCK: Two queries got stuck waiting for each other"
          "SQL Server detected a circular wait and killed one of the queries to break the deadlock."
          "Imagine two people at a narrow doorway, each blocking the other. Neither can proceed. This happens when queries lock tables in different orders."
          [ "👉 IMMEDIATE FIX: Retry the failed query - it will work now that the deadlock is broken.";
            "💡 Long-term fix: Always access tables in the SAME ORDER in all your code (e.g., always update Users before Orders, not sometimes reversed).";
            "💡 Use smaller transactions - don't lock multiple tables at once if you can avoid it.";
            "💡 Add proper indexes to make queries faster (less time holding locks = fewer deadlocks)." ])
  else if py_eq event_type (VStr "open_transactions") then
    do txn <- py_get "transaction_id" payload;
    do session <- py_get_or "session_id" (VStr "unknown") payload;
    Ok (explanation
          ("⚠️ A transaction has been left open (session " +:+ py_str session +:+ ")")
          ("Transaction " +:+ py_str txn +:+ " started but never finished with COMMIT or ROLLBACK.")
          "It's like leaving your database 'in progress' - the database is holding locks waiting for you to say 'I'm done!' This blocks other users and can cause slowdowns."
          [ "👉 CHECK YOUR CODE: Do you have a BEGIN TRANSACTION without a matching COMMIT or ROLLBACK?";
            "👉 COMMON BUG: Exceptions/errors in your code might skip the COMMIT. Always use try/catch/finally to ensure transactions complete.";
            "💡 Code pattern: BEGIN TRANSACTION → do work → if success COMMIT else ROLLBACK";
            "💡 Avoid: Transactions spanning multiple API calls or user interactions (transaction should complete in milliseconds, not minutes)." ])
  else if py_eq event_type (VStr "missing_indexes") then
    do table <- py_get "table_name" payload;
    do impact <- py_get "avg_user_impact" payload;
    do seeks <- py_get_or "user_seeks" (VInt 0) payload;
    do scans <- py_get_or "user_scans" (VInt 0) payload;
    do total <- py_add seeks scans;
    Ok (explanation
          ("📊 SQL Server suggests adding an index to " +:+ py_str table)
          ("Your queries would be ~" +:+ py_str impact
           +:+ "% faster. This suggestion came from " +:+ py_str total
           +:+ " queries scanning this table.")
          "Without an index, the database reads EVERY row in the table to find what you need (like reading a book page by page instead of using the index). An index makes lookups instant."
          [ "👉 SHARE THIS WITH YOUR DBA: They can add the index safely in production.";
            "💡 For learning: In SQL Server Management Studio, run your slow query and click 'Display Estimated Execution Plan' - green text shows missing index suggestions.";
            "💡 Quick test: Ask your DBA to add the index in a test database first to verify the improvement.";
            "💡 The suggested columns to index are shown in the data (equality_columns, inequality_columns)." ])
  else if py_eq event_type (VStr "slow_queries") then
    do avg_ms <- py_get_or "avg_elapsed_time_ms" (VInt 0) payload;
    do exec_count <- py_get_or "execution_count" (VInt 0) payload;
    do text <- py_get "query_text" payload;
    do query_text <- py_slice_to 200 (py_or text (VStr ""));
    do avg_reads <- py_get_or "avg_logical_reads" (VInt 0) payload;
    do slow <- py_gt avg_ms (VInt 1000);
    do timing <-
      (if slow : bool then
         do seconds <- py_truediv avg_ms (VInt 1000);
         do text <- py_format_f false 1 seconds;
         Ok (text +:+ " seconds")
       else
         do text <- py_format_f false 0 avg_ms;
         Ok (text +:+ " milliseconds"));
    do reads <- py_format_f true 0 avg_reads;
    Ok (explanation
          ("🐢 Slow query taking " +:+ timing +:+ " on average")
          ("Executed " +:+ py_str exec_count +:+ " times. Reading " +:+ reads
           +:+ " data pages per execution. Query: " +:+ py_str query_text +:+ "...")
          "Your query is taking too long. This could be: (1) missing indexes (searching row-by-row), (2) fetching too much data, or (3) joining too many tables inefficiently."
          [ "👉 STEP 1: Add WHERE clauses to filter data early - don't fetch everything then filter in your code.";
            "👉 STEP 2: Only SELECT the columns you actually need (avoid SELECT *).";
            "💡 Check for missing indexes: Run your query in SQL Server Management Studio → Query → Display Estimated Execution Plan → look for table scans or missing index hints.";
            "💡 Large result sets? Use pagination (OFFSET/FETCH or TOP N) instead of loading thousands of rows.";
            "💡 Joins: Make sure you're joining on indexed columns (usually primary/foreign keys)." ])
  else if py_eq event_type (VStr "cpu_memory") then
    do cpu <- py_get "cpu_percent" payload;
    do avail <- py_get "available_memory_mb" payload;
    do total <- py_get_or "total_memory_mb" (VInt 0) payload;
    do sql_in_use <- py_get_or "sql_memory_in_use_mb" (VInt 0) payload;
    do avail_text <- py_format_f true 0 avail;
    do total_text <- py_format_f true 0 total;
    do sql_text <- py_format_f true 0 sql_in_use;
    Ok (explanation
          "💻 Server resource snapshot"
          ("CPU: " +:+ py_str cpu +:+ "% | Available memory: " +:+ avail_text
           +:+ " MB of " +:+ total_text +:+ " MB | SQL Server using: " +:+ sql_text +:+ " MB")
          "High CPU means queries are working hard (calculations, sorting, etc.). Low memory means the server might be swapping to disk (very slow)."
          [ "👉 HIGH CPU? Look at slow queries above - one expensive query can max out CPU.";
            "💡 If CPU is constantly high: Consider adding indexes, optimizing queries, or scaling up your server.";
            "💡 LOW MEMORY? Contact your DBA - they may need to adjust SQL Server memory settings or add more RAM.";
            "💡 For developers: Write efficient queries (use WHERE, avoid functions in WHERE clause, use proper joins)." ])
  else if py_eq event_type (VStr "tempdb_health") then
    do free_kb <- py_get_or "free_space_kb" (VInt 0) payload;
    do free_mb <- py_truediv free_kb (VInt 1024);
    do user_kb <- py_get_or "user_objects_kb" (VInt 0) payload;
    do internal_kb <- py_get_or "internal_objects_kb" (VInt 0) payload;
    do free_text <- py_format_f false 1 free_mb;
    do user_mb <- py_truediv user_kb (VInt 1024);
    do user_text <- py_format_f false 1 user_mb;
    do internal_mb <- py_truediv internal_kb (VInt 1024);
    do internal_text <- py_format_f false 1 internal_mb;
    Ok (explanation
          "🗄️ TempDB (SQL Server's scratch space) status"
          ("Free space: " +:+ free_text +:+ " MB | User objects: " +:+ user_text
           +:+ " MB | Internal: " +:+ internal_text +:+ " MB")
          "TempDB is like SQL Server's notepad - it stores temporary tables, sorting results, etc. If it fills up, queries will fail or become very slow."
          [ "👉 LOW SPACE? Check if your code is creating large #TempTables or doing ORDER BY on huge result sets.";
            "💡 Avoid: SELECT * from large tables then sorting - filter with WHERE first to reduce data.";
            "💡 Avoid: Huge JOIN results that need sorting - add indexes to avoid TempDB spills.";
            "💡 #TempTables: Make sure you DROP them when done (they use TempDB space)." ])
  else
    Ok (explanation
          "📊 Database metric captured"
          "This metric is being tracked for monitoring trends."
          "No specific issue detected with this metric right now."
          [ "Keep monitoring - if values change significantly, it might indicate a problem." ]).

(** The text between the code fences of the model's answer, as the body
    of the [try] extracts it. *)
Definition fenced_json (ai_text : string) : result string :=
  let ai_text := strip ai_text in
  if contains "```json" ai_text then
    do after <- list_item 1 (split "```json" ai_text);
    do inside <- list_item 0 (split "```" after);
    Ok (strip inside)
  else if contains "```" ai_text then
    do after <- list_item 1 (split "```" ai_text);
    do inside <- list_item 0 (split "```" after);
    Ok (strip inside)
  else Ok ai_text.

(** [_call_ollama_ai(event)]: the prompt is built first, with the text
    [json.dumps] makes of the payload, and then one request is sent.
    Whatever goes wrong inside the [try] is caught and gives [None]: when
    [json.dumps] raises on the payload, no request is sent. *)
Definition _call_ollama_ai (B : backend) (event : dict) (w : world) : value * world :=
  let payload := dict_get_or "payload" (VDict []) event in
  if negb (serialisable B payload) then (VNone, w)
  else
    let w' := {| ticks := ticks w; posts := S (posts w) |} in
    match post_at B (posts w) event with
    | RequestException => (VNone, w')
    | Response status_code json =>
        if status_code =? 200 then
          let parsed :=
            do result <- match json with Some r => Ok r | None => Raise ValueError end;
            do ai_text <- py_get_or "response" (VStr "") result;
            do ai_text <- match ai_text with VStr s => Ok s | _ => Raise AttributeError end;
            do ai_text <- fenced_json ai_text;
            match json_loads B ai_text with
            | Some ai_explanation => Ok ai_explanation
            | None => Raise ValueError
            end in
          match parsed with
          | Ok ai_explanation => (ai_explanation, w')
          | Raise _ => (VNone, w')
          end
        else (VNone, w')
    end.

(** [explain_event(event)] *)
Definition explain_event (B : backend) (event : dict) : M value :=
  fun w =>
    if use_ai_analysis (settings B) then
      let '(ai_result, w') := _call_ollama_ai B event w in
      if py_truthy ai_result then Ok (ai_result, w')
      else lift (_get_fallback_explanation event) w'
    else lift (_get_fallback_explanation event) w.

End explainer.

(** * alerts.py *)

Module alerts.

(** [_now_iso()]: one reading of the clock. *)
Definition _now_iso (B : backend) : M string :=
  fun w => Ok (clock_at B (ticks w), {| ticks := S (ticks w); posts := posts w |}).

(** [_compare(value, op, threshold)] *)
Definition _compare (value_ : value) (op : value) (threshold : value) : result bool :=
  if is_none value_ then Ok false
  else if py_eq op (VStr ">") then py_gt value_ threshold
  else if py_eq op (VStr ">=") then py_ge value_ threshold
  else if py_eq op (VStr "<") then py_lt value_ threshold
  else if py_eq op (VStr "<=") then py_le value_ threshold
  else if py_eq op (VStr "==") then Ok (py_eq value_ threshold)
  else if py_eq op (VStr "!=") then Ok (py_ne value_ threshold)
  else Ok false.

(** The dict [evaluate_rules] appends for a matched rule. *)
Definition alert (timestamp : string) (rule event : dict) (explanation : value) : value :=
  VDict [ ("@timestamp", VStr timestamp);
          ("alert_id", dict_get "id" rule);
          ("severity", dict_get_or "severity" (VStr "medium") rule);
          ("message", dict_get "message" rule);
          ("event", VDict event);
          ("explanation", explanation);
          ("recommendations", dict_get_or "recommendations" (VList []) rule) ].

(** The body of the inner loop, [for rule in rules]. *)
Definition rule_step (B : backend) (event : dict) (payload : value)
    (alerts : list value) (rule : dict) : M (list value) :=
  if py_ne (dict_get "event_type" event) (dict_get "event_type" rule) then ret alerts
  else
    let field := dict_get "field" rule in
    let op := dict_get "op" rule in
    let threshold := dict_get "value" rule in
    run value_ <- lift (py_get_value field payload);
    run matched <- lift (_compare value_ op threshold);
    if matched : bool then
      run explanation <- explainer.explain_event B event;
      run timestamp <- _now_iso B;
      ret (alerts ++ [alert timestamp rule event explanation])%list
    else ret alerts.

(** The body of the outer loop, [for event in events]. *)
Definition event_step (B : backend) (rules : list dict)
    (alerts : list value) (event : dict) : M (list value) :=
  let payload := dict_get_or "payload" (VDict []) event in
  foldM (rule_step B event payload) rules alerts.

(** [evaluate_rules(events, rules)] *)
Definition evaluate_rules (B : backend) (events : list dict) (rules : list dict)
    : M (list value) :=
  foldM (event_step B rules) events [].

End alerts.

(** * collector.py *)

Module collector.

(** [collect_mock] copies the dicts it is given and writes to the copies,
    so the dicts are objects of a store here: a reference is an index into
    the list of the objects allocated so far.  What a dict binds to its
    keys is held by value: the copy is shallow, and [collect_mock] writes
    to no payload. *)
Abbreviation ref := nat (only parsing).

Record store := {
  objects : list dict;
  readings : nat
}.

(** Code that allocates, reads and writes dicts and reads the clock; a
    reference to nothing has no meaning. *)
Definition C (A : Type) : Type := store → option (A * store).

Definition retC {A} (a : A) : C A := fun s => Some (a, s).

Definition bindC {A B} (m : C A) (k : A → C B) : C B :=
  fun s =>
    match m s with
    | Some (a, s') => k a s'
    | None => None
    end.

Notation "'let*' x := m 'in' k" := (bindC m (fun x => k))
  (at level 10, x name, m at level 99, k at level 200,
   format "'[v' 'let*'  x  :=  m  'in'  '/' k ']'").

(** [_now_iso()] *)
Definition _now_iso (B : backend) : C string :=
  fun s => Some (clock_at B (readings s),
                 {| objects := objects s; readings := S (readings s) |}).

(** [{**event}]: a new dict with the bindings of [event]. *)
Definition copy (event : ref) : C ref :=
  fun s =>
    match objects s !! event with
    | Some d => Some (length (objects s),
                      {| objects := (objects s ++ [d])%list; readings := readings s |})
    | None => None
    end.

(** [d[k] = v] on the object [d]. *)
Definition setitem (d : ref) (k : string) (v : value) : C unit :=
  fun s =>
    match objects s !! d with
    | Some o => Some (tt, {| objects := <[d := dict_set k v o]> (objects s);
                             readings := readings s |})
    | None => None
    end.

(** [d.setdefault(k, v)] on the object [d]. *)
Definition setdefault (d : ref) (k : string) (v : value) : C unit :=
  fun s =>
    match objects s !! d with
    | Some o => Some (tt, {| objects := <[d := dict_setdefault k v o]> (objects s);
                             readings := readings s |})
    | None => None
    end.

(** The loop of [collect_mock]. *)
Fixpoint enrich (B : backend) (now : string) (sample_events : list ref)
    (enriched : list ref) : C (list ref) :=
  match sample_events with
  | [] => retC enriched
  | event :: rest =>
      let* event_copy := copy event in
      let* _u := setitem event_copy "@timestamp" (VStr now) in
      let* _u := setdefault event_copy "host" (VStr (host_name (settings B))) in
      let* _u := setdefault event_copy "sql_instance" (VStr (sql_instance (settings B))) in
      enrich B now rest (enriched ++ [event_copy])%list
  end.

(** [collect_mock(sample_events)] *)
Definition collect_mock (B : backend) (sample_events : list ref) : C (list ref) :=
  let* now := _now_iso B in
  enrich B now sample_events [].

(** [_row_to_dict(columns, row)]: the comprehension takes [row[i]] for the
    columns in their order, and a column whose name came before replaces
    the value bound to the name.  The values of a row are held as values of
    the embedding. *)
Fixpoint row_items (i : nat) (columns : list string) (row : list value)
    (payload : dict) : result dict :=
  match columns with
  | [] => Ok payload
  | col :: rest =>
      do v <- list_item i row;
      row_items (S i) rest row (dict_set col v payload)
  end.

Definition _row_to_dict (columns : list string) (row : list value) : result dict :=
  row_items 0 columns row [].

(** [_build_event(event_type, payload)]: a new dict; the clock is read
    once. *)
Definition _build_event (B : backend) (event_type : string) (payload : dict) : C dict :=
  let* now := _now_iso B in
  retC [ ("@timestamp", VStr now);
         ("event_type", VStr event_type);
         ("host", VStr (host_name (settings B)));
         ("sql_instance", VStr (sql_instance (settings B)));
         ("payload", VDict payload) ].

(** What [cursor.execute(query)] leaves behind: the call raises, or the
    cursor has a description, [None] after a statement without a result
    set and the names of the columns otherwise, and the rows [fetchall]
    returns. *)
Inductive executed :=
| QueryError
| Cursor (description : option (list string)) (rows : list (list value)).

(** The SQL Server side of a live collection: the connection string of the
    settings, whether [pyodbc.connect] succeeds with it, and what each
    query of [sql_queries.py] leaves behind, by the name of the query. *)
Record server := {
  sql_connection_string : option string;
  connects : bool;
  execute : string → executed
}.

(** The keys of [SQL_QUERIES], in the order of the dict. *)
Definition SQL_QUERIES : list string :=
  [ "blocking"; "open_transactions"; "missing_indexes"; "slow_queries";
    "slow_queries_historical"; "cpu_memory"; "tempdb_health" ].

(** How a live collection ends: with its events, with the [ValueError] for
    a missing connection string, or with the error of [pyodbc.connect]. *)
Inductive collection :=
| Collected (events : list dict)
| Refused
| Unreachable.

(** The loop over the rows of one query, inside its [try]: what is raised
    while a row is made into an event ends the loop, and the events
    appended before stay. *)
Fixpoint rows_loop (B : backend) (event_type : string) (columns : list string)
    (rows : list (list value)) (events : list dict) : C (list dict) :=
  match rows with
  | [] => retC events
  | row :: rest =>
      match _row_to_dict columns row with
      | Ok payload =>
          let* event := _build_event B event_type payload in
          rows_loop B event_type columns rest (events ++ [event])%list
      | Raise _ => retC events
      end
  end.

(** The body of the loop over [SQL_QUERIES.items()]: a query that raises,
    or that leaves no description to iterate over, is reported and adds
    nothing. *)
Definition query_step (B : backend) (S : server) (events : list dict)
    (event_type : string) : C (list dict) :=
  match execute S event_type with
  | Cursor (Some columns) rows => rows_loop B event_type columns rows events
  | Cursor None _ => retC events
  | QueryError => retC events
  end.

Fixpoint queries_loop (B : backend) (S : server) (event_types : list string)
    (events : list dict) : C (list dict) :=
  match event_types with
  | [] => retC events
  | event_type :: rest =>
      let* events := query_step B S events event_type in
      queries_loop B S rest events
  end.

(** The [try] around [DEADLOCK_QUERY]: rows are read only [if
    cursor.description]. *)
Definition deadlock_step (B : backend) (S : server) (events : list dict) : C (list dict) :=
  match execute S "deadlocks" with
  | Cursor (Some (column :: columns)) rows =>
      rows_loop B "deadlocks" (column :: columns) rows events
  | Cursor _ _ => retC events
  | QueryError => retC events
  end.

(** [collect_from_sql()].  The first connection, to [master], only makes
    sure the database exists, and what it raises is reported and dropped. *)
Definition collect_from_sql (B : backend) (S : server) : C collection :=
  match sql_connection_string S with
  | None => retC Refused
  | Some connection_string =>
      if negb (py_truthy (VStr connection_string)) then retC Refused
      else if negb (connects S) then retC Unreachable
      else
        let* events := queries_loop B S SQL_QUERIES [] in
        let* events := deadlock_step B S events in
        retC (Collected events)
  end.

End collector.

(** * dashboard.py *)

Module dashboard.

(** [k in v] for a [str] [k]: a key of a dict, an item of a list, a part
    of a text. *)
Definition py_in (k : string) (v : value) : result bool :=
  match v with
  | VDict d => Ok (dict_has k d)
  | VList xs => Ok (existsb (py_eq (VStr k)) xs)
  | VStr s => Ok (contains k s)
  | _ => Raise TypeError
  end.

(** [v[k]] for a [str] [k] *)
Definition py_item (k : string) (v : value) : result value :=
  match v with
  | VDict d => dict_item k d
  | _ => Raise TypeError
  end.

(** A [for] loop with an accumulator, in code that may raise. *)
Fixpoint fold_result {A S} (f : S → A → result S) (l : list A) (s : S) : result S :=
  match l with
  | [] => Ok s
  | x :: l' => do s' <- f s x; fold_result f l' s'
  end.

(** A dict whose keys are whatever values were used as keys, in insertion
    order; keys are the same when they are equal. *)
Abbreviation keyed := (list (value * value)).

(** [key in items] *)
Definition keyed_has (key : value) (items : keyed) : result bool :=
  if hashable key then Ok (existsb (fun kv => py_eq key (fst kv)) items)
  else Raise TypeError.

(** The key [_get_latest_collection] derives from one [source]: the chain
    of [if]/[elif] on the fields present. *)
Definition source_key (source : value) : result value :=
  do has_session <- py_in "session_id" source;
  if has_session : bool then py_get "session_id" source
  else
    do has_text <- py_in "query_text" source;
    if has_text : bool then
      do text <- py_get_or "query_text" (VStr "") source;
      py_slice_to 100 text
    else
      do has_deadlock <- py_in "deadlock_id" source;
      if has_deadlock : bool then py_get "deadlock_id" source
      else Ok VNone.

(** The body of the loop over the hits. *)
Definition hit_step (items_by_key : keyed) (hit : value) : result keyed :=
  do source <- py_item "_source" hit;
  do key <- source_key source;
  if py_truthy key then
    do seen <- keyed_has key items_by_key;
    if seen : bool then Ok items_by_key
    else Ok (items_by_key ++ [(key, source)])%list
  else Ok items_by_key.

(** [_get_latest_collection(index, event_type)], given the hits of the
    response to its search, [response["hits"]["hits"]]: the latest 100
    documents of the type in the index, newest first. *)
Definition _get_latest_collection (hits : list value) : result keyed :=
  fold_result hit_step hits [].

(** The dict [_calculate_delta] returns. *)
Record delta := {
  new : list dict;
  changed : list dict;
  resolved : list dict;
  all : list dict
}.

(** The fields whose change makes an item changed. *)
Definition sensitive_fields : list string :=
  [ "elapsed_time_ms"; "cpu_time_ms"; "logical_reads"; "duration_seconds";
    "wait_time_ms"; "transaction_begin_time"; "status"; "message" ].

(** [m[k]] on a dict keyed by identity keys. *)
Definition item_at (k : string) (m : gmap string dict) : result dict :=
  match m !! k with
  | Some item => Ok item
  | None => Raise KeyError
  end.

(** The identity key of a current item: [str(item.get(key_field))]. *)
Definition key_of (key_field : string) (item : dict) : string :=
  py_str (dict_get key_field item).

(** The dict comprehension [{str(item.get(key_field)): item for item in
    current_items}]: a later item replaces an earlier one of the same key. *)
Definition by_key (key_field : string) (current_items : list dict) : gmap string dict :=
  foldl (fun m item => <[key_of key_field item := item]> m) ∅ current_items.

(** The body of the loop over the fields. *)
Definition field_step (current previous : dict) (changed_fields : list value)
    (field : string) : result (list value) :=
  if dict_has field current && dict_has field previous then
    do c <- dict_item field current;
    do p <- dict_item field previous;
    if py_ne c p then
      do old <- dict_item field previous;
      do now <- dict_item field current;
      Ok (changed_fields
            ++ [VDict [("field", VStr field); ("old", old); ("new", now)]])%list
    else Ok changed_fields
  else Ok changed_fields.

(** The body of the loop over the keys present before and now. *)
Definition key_step (current_by_key previous_items : gmap string dict)
    (changed : list dict) (key : string) : result (list dict) :=
  do current <- item_at key current_by_key;
  do previous <- item_at (py_str (VStr key)) previous_items;
  do changed_fields <- fold_result (field_step current previous) sensitive_fields [];
  if py_truthy (VList changed_fields) then
    Ok (changed ++ [dict_set "changed_fields" (VList changed_fields) current])%list
  else Ok changed.

(** [_calculate_delta(current_items, previous_items, key_field)].  The
    three sets are iterated in the order [elements] gives, one of the
    orders a Python set may have. *)
Definition _calculate_delta (current_items : list dict)
    (previous_items : gmap string dict) (key_field : string) : result delta :=
  let current_by_key := by_key key_field current_items in
  let previous_keys : gset string := dom previous_items in
  let current_keys : gset string := dom current_by_key in
  let new_keys := current_keys ∖ previous_keys in
  do new <- mapM (fun k => item_at k current_by_key) (elements new_keys);
  do changed <- fold_result (key_step current_by_key previous_items)
                  (elements (current_keys ∩ previous_keys)) [];
  let resolved_keys := previous_keys ∖ current_keys in
  do resolved <- mapM (fun k => item_at k previous_items) (elements resolved_keys);
  Ok {| new := new; changed := changed; resolved := resolved; all := current_items |}.

End dashboard.

(** * Ranges, slices and text files *)

(** [list(range(0, stop, step))] *)
Definition py_range (stop step : Z) : result (list Z) :=
  if step =? 0 then Raise ValueError
  else
    let count :=
      if 0 <? step then (if 0 <? stop then (stop - 1) / step + 1 else 0)
      else (if stop <? 0 then (- stop - 1) / (- step) + 1 else 0) in
    Ok (List.map (fun k => Z.of_nat k * step) (seq 0 (Z.to_nat count))).

(** The position a bound of a slice stands for in a list of [len] items. *)
Definition slice_bound (len i : Z) : Z :=
  if i <? 0 then Z.max 0 (i + len) else Z.min i len.

(** [l[i:j]] *)
Definition py_slice {A} (i j : Z) (l : list A) : list A :=
  let len := Z.of_nat (length l) in
  let a := slice_bound len i in
  let b := slice_bound len j in
  firstn (Z.to_nat (b - a)) (skipn (Z.to_nat a) l).

Definition newline : ascii := ascii_of_N 10.
Definition carriage_return : ascii := ascii_of_N 13.

(** The lines that iterating over a file opened for reading in text mode
    gives.  A line ends at a line break, which is read as a newline whether
    it is written as a newline, a carriage return or the two in a row; the
    last line ends with the text. *)
Fixpoint file_lines (text : string) (cur : list ascii) : list string :=
  match text with
  | EmptyString =>
      match cur with
      | [] => []
      | _ => [string_of_list_ascii (rev cur)]
      end
  | String c text' =>
      if Ascii.eqb c newline then
        string_of_list_ascii (rev (newline :: cur)) :: file_lines text' []
      else if Ascii.eqb c carriage_return then
        string_of_list_ascii (rev (newline :: cur))
        :: match text' with
           | String c' text'' =>
               if Ascii.eqb c' newline then file_lines text'' []
               else file_lines text' []
           | EmptyString => []
           end
      else file_lines text' (c :: cur)
  end.

(** * sample_loader.py *)

Module sample_loader.

(** The body of the loop over the lines of the file. *)
Definition line_step (B : backend) (events : list value) (line : string)
    : result (list value) :=
  if negb (py_truthy (VStr (strip line))) then Ok events
  else
    match json_loads B line with
    | Some event => Ok (events ++ [event])%list
    | None => Raise ValueError
    end.

(** [read_jsonl(path)], given the text of the file at [path]. *)
Definition read_jsonl (B : backend) (text : string) : result (list value) :=
  dashboard.fold_result (line_step B) (file_lines text []) [].

(** [chunked(items, size)]: the chunks the generator yields, or what
    iterating over it raises. *)
Definition chunked {A} (items : list A) (size : Z) : result (list (list A)) :=
  do starts <- py_range (Z.of_nat (length items)) size;
  Ok (List.map (fun i => py_slice i (i + size) items) starts).

End sample_loader.

(** * stress.py *)

Module stress.

Definition EVENT_TYPES : list string :=
  [ "blocking"; "deadlocks"; "open_transactions"; "missing_indexes";
    "slow_queries"; "cpu_memory"; "tempdb_health" ].

(** Chance and time: what the call of [random.randint(a, b)] or of
    [random.choice(seq)] returns after a number of draws, and the text
    [_now_iso(offset_seconds)] returns after a number of readings of the
    clock. *)
Record chance := {
  randint_at : nat → Z → Z → Z;
  choice_at : nat → list string → string;
  now_at : nat → Z → string
}.

(** The number of draws and of readings made so far. *)
Record tally := {
  draws : nat;
  reads : nat
}.

(** Code that draws and reads the clock. *)
Definition G (A : Type) : Type := tally → A * tally.

Definition retG {A} (a : A) : G A := fun t => (a, t).

Definition bindG {A B} (m : G A) (k : A → G B) : G B :=
  fun t => let '(a, t') := m t in k a t'.

Notation "'draw' x <- m ; k" := (bindG m (fun x => k))
  (at level 10, x name, m at level 99, k at level 200,
   format "'[v' 'draw'  x  <-  m ;  '/' k ']'").

(** [random.randint(a, b)] *)
Definition randint (X : chance) (a b : Z) : G value :=
  fun t => (VInt (randint_at X (draws t) a b),
            {| draws := S (draws t); reads := reads t |}).

(** [random.choice(seq)] *)
Definition choice (X : chance) (seq : list string) : G string :=
  fun t => (choice_at X (draws t) seq,
            {| draws := S (draws t); reads := reads t |}).

(** [_now_iso(offset_seconds)] *)
Definition _now_iso (X : chance) (offset_seconds : Z) : G string :=
  fun t => (now_at X (reads t) offset_seconds,
            {| draws := draws t; reads := S (reads t) |}).

(** [generate_event(event_type)] *)
Definition generate_event (X : chance) (event_type : string) : G dict :=
  if String.eqb event_type "blocking" then
    draw blocked_session_id <- randint X 50 200;
    draw blocking_session_id <- randint X 1 49;
    draw wait_type <- choice X [ "LCK_M_S"; "LCK_M_X"; "PAGEIOLATCH" ];
    draw wait_time_ms <- randint X 1000 120000;
    draw database_name <- choice X [ "Sales"; "HR"; "Orders" ];
    retG [ ("event_type", VStr event_type);
           ("payload", VDict [ ("blocked_session_id", blocked_session_id);
                               ("blocking_session_id", blocking_session_id);
                               ("wait_type", VStr wait_type);
                               ("wait_time_ms", wait_time_ms);
                               ("database_name", VStr database_name) ]) ]
  else if String.eqb event_type "deadlocks" then
    retG [ ("event_type", VStr event_type);
           ("payload", VDict [ ("deadlock_xml", VStr "<deadlock>...</deadlock>") ]) ]
  else if String.eqb event_type "open_transactions" then
    draw transaction_id <- randint X 100000 999999;
    draw transaction_state <- randint X 1 6;
    retG [ ("event_type", VStr event_type);
           ("payload", VDict [ ("transaction_id", transaction_id);
                               ("transaction_state", transaction_state) ]) ]
  else if String.eqb event_type "missing_indexes" then
    draw avg_user_impact <- randint X 10 95;
    retG [ ("event_type", VStr event_type);
           ("payload", VDict [ ("database_name", VStr "Sales");
                               ("table_name", VStr "dbo.Orders");
                               ("avg_user_impact", avg_user_impact);
                               ("equality_columns", VStr "CustomerId") ]) ]
  else if String.eqb event_type "slow_queries" then
    draw avg_elapsed_time_ms <- randint X 500 60000;
    draw execution_count <- randint X 1 1000;
    retG [ ("event_type", VStr event_type);
           ("payload", VDict [ ("avg_elapsed_time_ms", avg_elapsed_time_ms);
                               ("execution_count", execution_count);
                               ("query_text",
                                VStr "SELECT * FROM Orders WHERE Status = 'Pending'") ]) ]
  else if String.eqb event_type "cpu_memory" then
    draw cpu_percent <- randint X 5 100;
    draw available_memory_mb <- randint X 100 64000;
    retG [ ("event_type", VStr event_type);
           ("payload", VDict [ ("cpu_percent", cpu_percent);
                               ("available_memory_mb", available_memory_mb);
                               ("total_memory_mb", VInt 65536) ]) ]
  else if String.eqb event_type "tempdb_health" then
    draw user_objects_kb <- randint X 10000 200000;
    draw internal_objects_kb <- randint X 10000 200000;
    draw version_store_kb <- randint X 10000 200000;
    draw free_space_kb <- randint X 1000 50000;
    retG [ ("event_type", VStr event_type);
           ("payload", VDict [ ("user_objects_kb", user_objects_kb);
                               ("internal_objects_kb", internal_objects_kb);
                               ("version_store_kb", version_store_kb);
                               ("free_space_kb", free_space_kb) ]) ]
  else
    retG [ ("event_type", VStr event_type); ("payload", VDict []) ].

(** The loop of [generate_events], over the values of [range(count)]. *)
Fixpoint events_from (X : chance) (indices : list Z) (events : list dict)
    : G (list dict) :=
  match indices with
  | [] => retG events
  | i :: rest =>
      draw event_type <- choice X EVENT_TYPES;
      draw event <- generate_event X event_type;
      draw now <- _now_iso X i;
      events_from X rest (events ++ [dict_set "@timestamp" (VStr now) event])%list
  end.

(** [generate_events(count)] *)
Definition generate_events (X : chance) (count : Z) : G (list dict) :=
  events_from X (List.map Z.of_nat (seq 0 (Z.to_nat count))) [].

(** [write_jsonl(path, events)]: the text written to the file at [path],
    given what [json.dumps] makes of an event. *)
Definition write_jsonl (json_dumps : dict → string) (events : list dict) : string :=
  foldl (fun text event => text +:+ (json_dumps event +:+ String newline ""))
    "" events.

End stress.

(** * elastic.py *)

Module elastic.

(** The client, as the requests it was sent: the [operations] of every
    call of [client.bulk], the latest last. *)
Abbreviation client := (list (list value)).

(** [index_events(client, index_name, events)] *)
Definition index_events (index_name : string) (events : list value)
    (sent : client) : client :=
  if negb (py_truthy (VList events)) then sent
  else
    let operations :=
      foldl (fun operations event =>
               operations
               ++ [ VDict [ ("index", VDict [ ("_index", VStr index_name) ]) ]; event ])%list
        [] events in
    (sent ++ [ operations ])%list.

End elastic.

(** * Vocabulary of the properties *)

Local Open Scope list_scope.

(** The kinds of values that order and equality look at. *)
Inductive kind := KNone | KNumber | KStr | KList | KDict.

Definition kind_of (v : value) : kind :=
  match v with
  | VNone => KNone
  | VBool _ | VInt _ | VFloat _ => KNumber
  | VStr _ => KStr
  | VList _ => KList
  | VDict _ => KDict
  end.

(** The six operators [_compare] knows. *)
Definition operators : list value :=
  [ VStr ">"; VStr ">="; VStr "<"; VStr "<="; VStr "=="; VStr "!=" ].

(** Whether a rule is for the type of an event. *)
Definition same_type (event rule : dict) : bool :=
  py_eq (dict_get "event_type" event) (dict_get "event_type" rule).

(** What the comparison of a rule gives on the payload of an event. *)
Definition rule_value (event rule : dict) : result bool :=
  do v <- py_get_value (dict_get "field" rule) (dict_get_or "payload" (VDict []) event);
  alerts._compare v (dict_get "op" rule) (dict_get "value" rule).

(** A rule fires on an event of its type on which its comparison holds. *)
Definition fires (event rule : dict) : bool :=
  same_type event rule
  && match rule_value event rule with Ok true => true | _ => false end.

(** The pairs of an event and a rule that fires on it, events first. *)
Definition firing (events rules : list dict) : list (dict * dict) :=
  flat_map (fun event => List.map (pair event) (List.filter (fires event) rules)) events.

(** An alert made for a pair: the fields taken from the rule and the event. *)
Definition alert_for (a : value) (pair : dict * dict) : Prop :=
  ∃ timestamp explanation, a = alerts.alert timestamp (snd pair) (fst pair) explanation.

(** The rule and the events of the rule-matching scenario. *)
Definition slow_rule : dict :=
  [ ("event_type", VStr "slow_queries");
    ("field", VStr "avg_elapsed_time_ms");
    ("op", VStr ">");
    ("value", VInt 5000) ].

Definition slow_event (avg_elapsed_time_ms : value) : dict :=
  [ ("event_type", VStr "slow_queries");
    ("payload", VDict [ ("avg_elapsed_time_ms", avg_elapsed_time_ms) ]) ].

Definition blocking_event (payload : value) : dict :=
  [ ("event_type", VStr "blocking"); ("payload", payload) ].

(** A backend whose server cannot be reached, with the default settings
    and a clock that stands still. *)
Definition offline : backend :=
  {| settings := default_settings;
     clock_at := fun _ => "2026-02-01T12:00:00+00:00";
     post_at := fun _ _ => RequestException;
     json_loads := fun _ => None;
     serialisable := fun _ => true |}.

Definition start : world := {| ticks := 0; posts := 0 |}.

(** The payload of an event is a mapping, or the event has none. *)
Definition has_mapping (event : dict) : Prop :=
  ∃ p, dict_get_or "payload" (VDict []) event = VDict p.

(** A slow query whose payload lacks the field of the rule. *)
Definition uncounted_event : dict :=
  [ ("event_type", VStr "slow_queries");
    ("payload", VDict [ ("execution_count", VInt 3) ]) ].

(** The batch of the rule-matching scenario. *)
Definition scenario_events : list dict :=
  [ slow_event (VInt 15000); slow_event (VInt 4000);
    blocking_event (VDict [ ("avg_elapsed_time_ms", VInt 15000) ]) ].

(** A number of moderate size: a [bool], a [float], or an [int] below
    [2^500] in magnitude, far inside the range of a [float]. *)
Definition moderate (v : value) : bool :=
  match v with
  | VBool _ | VFloat _ => true
  | VInt n => Z.abs n <? 2 ^ 500
  | _ => false
  end.

(** What can be sliced: a text or a list. *)
Definition sliceable (v : value) : bool :=
  match v with
  | VStr _ | VList _ => true
  | _ => false
  end.

(** The events on which the operations of the fallback templates are
    defined.  Every event of type [deadlocks] and of a type that is none
    of the seven is among them; an event of another type is when its
    payload is a mapping and the fields its template formats as numbers,
    adds or divides are numbers of moderate size (or absent, where the
    template has a default), and, for a slow query, when the text of the
    query is a text, a list, or missing. *)
Definition in_domain (event : dict) : bool :=
  let event_type := dict_get_or "event_type" (VStr "unknown") event in
  match dict_get_or "payload" (VDict []) event with
  | VDict p =>
      if py_eq event_type (VStr "missing_indexes") then
        moderate (dict_get_or "user_seeks" (VInt 0) p)
        && moderate (dict_get_or "user_scans" (VInt 0) p)
      else if py_eq event_type (VStr "slow_queries") then
        sliceable (py_or (dict_get "query_text" p) (VStr ""))
        && moderate (dict_get_or "avg_elapsed_time_ms" (VInt 0) p)
        && moderate (dict_get_or "avg_logical_reads" (VInt 0) p)
      else if py_eq event_type (VStr "cpu_memory") then
        moderate (dict_get "available_memory_mb" p)
        && moderate (dict_get_or "total_memory_mb" (VInt 0) p)
        && moderate (dict_get_or "sql_memory_in_use_mb" (VInt 0) p)
      else if py_eq event_type (VStr "tempdb_health") then
        moderate (dict_get_or "free_space_kb" (VInt 0) p)
        && moderate (dict_get_or "user_objects_kb" (VInt 0) p)
        && moderate (dict_get_or "internal_objects_kb" (VInt 0) p)
      else true
  | _ =>
      negb (py_eq event_type (VStr "blocking")
            || py_eq event_type (VStr "open_transactions")
            || py_eq event_type (VStr "missing_indexes")
            || py_eq event_type (VStr "slow_queries")
            || py_eq event_type (VStr "cpu_memory")
            || py_eq event_type (VStr "tempdb_health"))
  end.

(** An explanation with exactly the four fields, in the shape every
    branch of the fallback builds, with some summary and some
    recommendation. *)
Definition well_formed (r : value) : Prop :=
  ∃ summary details analysis recommendations,
    r = explainer.explanation summary details analysis recommendations
    ∧ summary ≠ "" ∧ recommendations ≠ [].

(** The ways the primary explanation is unavailable: it is switched off,
    the request raises (no connection, timeout), the status is not 200,
    the body is not JSON, or the text of the answer does not parse. *)
Definition unavailable (B : backend) (event : dict) (w : world) : Prop :=
  use_ai_analysis (settings B) = false
  ∨ post_at B (posts w) event = RequestException
  ∨ (∃ status body, post_at B (posts w) event = Response status body
                    ∧ (status ≠ 200 ∨ body = None))
  ∨ (∃ body s text,
       post_at B (posts w) event = Response 200 (Some body)
       ∧ py_get_or "response" (VStr "") body = Ok (VStr s)
       ∧ explainer.fenced_json s = Ok text
       ∧ json_loads B text = None).

(** Whether a number is above an integer. *)
Definition exceeds (a : num) (n : Z) : bool :=
  match num_compare a (NInt n) with
  | Some Gt => true
  | _ => false
  end.

(** The summary of an explanation the fallback returned. *)
Definition summary_of (r : result value) : option value :=
  match r with
  | Ok (VDict d) => dict_lookup "summary" d
  | _ => None
  end.

(** Sample events, one of each type: the three of [test_ai_analysis.py]
    and one for each other template.  85.5 is [6016527627190272 * 2^-46]. *)
Definition sample_slow_query : dict :=
  [ ("event_type", VStr "slow_queries");
    ("@timestamp", VStr "2026-02-01T12:00:00Z");
    ("payload", VDict [ ("avg_elapsed_time_ms", VInt 15000);
                        ("execution_count", VInt 50);
                        ("query_text", VStr "SELECT * FROM Orders WHERE Status = @status");
                        ("avg_logical_reads", VInt 25000);
                        ("avg_cpu_time_ms", VInt 12000) ]) ].

Definition sample_blocking : dict :=
  [ ("event_type", VStr "blocking");
    ("@timestamp", VStr "2026-02-01T12:00:00Z");
    ("payload", VDict [ ("blocked_session_id", VInt 123);
                        ("blocking_session_id", VInt 456);
                        ("wait_type", VStr "LCK_M_X");
                        ("wait_time_ms", VInt 45000);
                        ("database_name", VStr "DBMonTest") ]) ].

Definition sample_deadlock : dict :=
  [ ("event_type", VStr "deadlocks");
    ("@timestamp", VStr "2026-02-01T12:00:00Z");
    ("payload", VDict [ ("deadlock_xml", VStr "<deadlock>...</deadlock>") ]) ].

Definition sample_open_transaction : dict :=
  [ ("event_type", VStr "open_transactions");
    ("payload", VDict [ ("transaction_id", VInt 7001); ("session_id", VInt 61) ]) ].

Definition sample_missing_index : dict :=
  [ ("event_type", VStr "missing_indexes");
    ("payload", VDict [ ("table_name", VStr "Orders");
                        ("avg_user_impact", VInt 87);
                        ("user_seeks", VInt 120);
                        ("user_scans", VInt 4) ]) ].

Definition sample_cpu_memory : dict :=
  [ ("event_type", VStr "cpu_memory");
    ("payload", VDict [ ("cpu_percent", VFloat (S754_finite false 6016527627190272 (-46)));
                        ("available_memory_mb", VInt 2048);
                        ("total_memory_mb", VInt 16384);
                        ("sql_memory_in_use_mb", VInt 9000) ]) ].

Definition sample_tempdb : dict :=
  [ ("event_type", VStr "tempdb_health");
    ("payload", VDict [ ("free_space_kb", VInt 524288);
                        ("user_objects_kb", VInt 1536);
                        ("internal_objects_kb", VInt 64) ]) ].

Definition sample_unknown : dict :=
  [ ("event_type", VStr "disk_latency"); ("payload", VDict [ ("read_ms", VInt 12) ]) ].

Definition samples : list dict :=
  [ sample_blocking; sample_deadlock; sample_open_transaction; sample_missing_index;
    sample_slow_query; sample_cpu_memory; sample_tempdb; sample_unknown ].

(** A resource snapshot without its available memory. *)
Definition partial_cpu_memory : dict :=
  [ ("event_type", VStr "cpu_memory");
    ("payload", VDict [ ("cpu_percent", VInt 95) ]) ].

(** A server that answers every request with the JSON object
    [{"summary": "Slow query"}], which [json.loads] reads as a dict of one
    field. *)
Definition quoted (s : string) : string := String dquote s +:+ String dquote "".

Definition terse_answer : string :=
  "{" +:+ quoted "summary" +:+ ": " +:+ quoted "Slow query" +:+ "}".

Definition terse : backend :=
  {| settings := default_settings;
     clock_at := fun _ => "2026-02-01T12:00:00+00:00";
     post_at := fun _ _ => Response 200 (Some (VDict [ ("response", VStr terse_answer) ]));
     json_loads := fun text =>
       if String.eqb text terse_answer
       then Some (VDict [ ("summary", VStr "Slow query") ])
       else None;
     serialisable := fun _ => true |}.

(** The explanation falls back: it returns, and what it returns is the
    well-formed result of the fallback. *)
Definition falls_back (B : backend) (event : dict) (w : world) : Prop :=
  ∃ r w', explainer.explain_event B event w = Ok (r, w')
          ∧ explainer._get_fallback_explanation event = Ok r
          ∧ well_formed r.

(** The document of the key-priority scenario, and the hit that holds it. *)
Definition keyed_source : dict :=
  [ ("session_id", VInt 5); ("query_text", VStr "SELECT 1") ].

Definition keyed_hit : value := VDict [ ("_source", VDict keyed_source) ].

(** What [collect_mock] makes of the bindings of one sample event. *)
Definition enriched_dict (B : backend) (now : string) (d : dict) : dict :=
  dict_setdefault "sql_instance" (VStr (sql_instance (settings B)))
    (dict_setdefault "host" (VStr (host_name (settings B)))
       (dict_set "@timestamp" (VStr now) d)).

(** The copy [c] of the sample event [l]: a new object, with the
    timestamp of the collection, the host and the instance of the event
    where it has them and the ambient ones where not, and every other
    field as in the event. *)
Definition enriched_copy (B : backend) (before after : collector.store)
    (l c : nat) : Prop :=
  (length (collector.objects before) ≤ c)%nat
  ∧ ∃ d e,
      collector.objects before !! l = Some d
      ∧ collector.objects after !! c = Some e
      ∧ dict_lookup "@timestamp" e
        = Some (VStr (clock_at B (collector.readings before)))
      ∧ dict_lookup "host" e
        = Some (match dict_lookup "host" d with
                | Some v => v
                | None => VStr (host_name (settings B))
                end)
      ∧ dict_lookup "sql_instance" e
        = Some (match dict_lookup "sql_instance" d with
                | Some v => v
                | None => VStr (sql_instance (settings B))
                end)
      ∧ ∀ k, k ≠ "@timestamp" → k ≠ "host" → k ≠ "sql_instance" →
             dict_lookup k e = dict_lookup k d.

(** A replayed record that carries its own timestamp, host and instance,
    and the store that holds it. *)
Definition replayed : dict :=
  [ ("@timestamp", VStr "2025-12-24T08:30:00Z");
    ("event_type", VStr "blocking");
    ("host", VStr "db-prod-01");
    ("sql_instance", VStr "MSSQL01");
    ("payload", VDict [ ("wait_time_ms", VInt 500) ]) ].

Definition replay_store : collector.store :=
  {| collector.objects := [ replayed ]; collector.readings := 0 |}.

(** The last item of a batch that has a given key. *)
Definition latest (key_field k : string) (items : list dict) : option dict :=
  last (filter (fun item => dashboard.key_of key_field item = k) items).

(** One recorded change of a field. *)
Definition change (field : string) (old now : value) : value :=
  VDict [ ("field", VStr field); ("old", old); ("new", now) ].

(** The changes between the current and the previous item of a key, over
    the fields both have. *)
Definition changes_in (fields : list string) (current previous : dict) : list value :=
  flat_map
    (fun field =>
       match dict_lookup field current, dict_lookup field previous with
       | Some c, Some p => if py_ne c p then [ change field p c ] else []
       | _, _ => []
       end)
    fields.

Definition changes : dict → dict → list value :=
  changes_in dashboard.sensitive_fields.

(** What the loop over the keys appends for one key. *)
Definition changed_entry (current previous : dict) : list dict :=
  match changes current previous with
  | [] => []
  | recorded => [ dict_set "changed_fields" (VList recorded) current ]
  end.

(** A key whose current item differs from the previous one. *)
Definition is_changed (current_by_key previous_items : gmap string dict)
    (k : string) : bool :=
  match current_by_key !! k, previous_items !! k with
  | Some c, Some p => match changes c p with [] => false | _ => true end
  | _, _ => false
  end.

(** The classes of the keys of a batch, and what the delta holds for a
    key of each class. *)
Definition new_item (key_field : string) (current : list dict)
    (previous : gmap string dict) (k : string) (item : dict) : Prop :=
  (k ∉ dom previous) ∧ latest key_field k current = Some item.

Definition changed_item (key_field : string) (current : list dict)
    (previous : gmap string dict) (k : string) (entry : dict) : Prop :=
  ∃ item before,
    latest key_field k current = Some item
    ∧ previous !! k = Some before
    ∧ changes item before ≠ []
    ∧ entry = dict_set "changed_fields" (VList (changes item before)) item.

Definition unchanged_key (key_field : string) (current : list dict)
    (previous : gmap string dict) (k : string) : Prop :=
  ∃ item before,
    latest key_field k current = Some item
    ∧ previous !! k = Some before
    ∧ changes item before = [].

(** The keys of a batch. *)
Definition keys_of (key_field : string) (current : list dict) : gset string :=
  list_to_set (dashboard.key_of key_field <$> current).

(** Two events of one blocker, and a previous snapshot without it. *)
Definition first_victim : dict :=
  [ ("blocking_session_id", VInt 10); ("blocked_session_id", VInt 71);
    ("wait_time_ms", VInt 500) ].

Definition second_victim : dict :=
  [ ("blocking_session_id", VInt 10); ("blocked_session_id", VInt 72);
    ("wait_time_ms", VInt 900) ].

(** A field on which two items do not differ: one of them lacks it, or
    they have equal values for it. *)
Definition agree_on (field : string) (current previous : dict) : Prop :=
  match dict_lookup field current, dict_lookup field previous with
  | Some c, Some p => py_ne c p = false
  | _, _ => True
  end.



(** Two rows that lack the key field. *)
Definition keyless_one : dict := [ ("wait_time_ms", VInt 1) ].
Definition keyless_two : dict := [ ("wait_time_ms", VInt 2) ].

(** The snapshot and the batch of the end-to-end scenario. *)
Definition session_10_before : dict :=
  [ ("blocking_session_id", VInt 10); ("wait_time_ms", VInt 500) ].
Definition session_10_now : dict :=
  [ ("blocking_session_id", VInt 10); ("wait_time_ms", VInt 9000) ].
Definition session_11_now : dict :=
  [ ("blocking_session_id", VInt 11); ("wait_time_ms", VInt 200) ].


(** Chance that keeps to what [random] promises: [randint(a, b)] is
    within its bounds, and [choice(seq)] is one of the items. *)
Definition fair (X : stress.chance) : Prop :=
  (∀ n a b, a ≤ b → a ≤ stress.randint_at X n a b ≤ b)
  ∧ (∀ n seq, seq ≠ [] → stress.choice_at X n seq ∈ seq).

(** Chance that always takes the least number and the first item, with a
    clock that stands still. *)
Definition least : stress.chance :=
  {| stress.randint_at := fun _ a _ => a;
     stress.choice_at := fun _ seq => match seq with x :: _ => x | [] => "" end;
     stress.now_at := fun _ _ => "2026-02-01T12:00:00+00:00" |}.

Definition no_draws : stress.tally := {| stress.draws := 0; stress.reads := 0 |}.

(** An event the fallback explains: it returns, with a well-formed
    explanation. *)
Definition explained (event : dict) : Prop :=
  ∃ r, explainer._get_fallback_explanation event = Ok r ∧ well_formed r.

(** A text without a line break. *)
Fixpoint one_line (s : string) : bool :=
  match s with
  | EmptyString => true
  | String c s' =>
      negb (Ascii.eqb c newline) && negb (Ascii.eqb c carriage_return) && one_line s'
  end.

(** What [write_jsonl] writes for one event. *)
Definition json_line (json_dumps : dict → string) (event : dict) : string :=
  json_dumps event +:+ String newline "".

(** A record of one field, its JSON text, and a backend whose
    [json.loads] reads that text, with or without blanks around it. *)
Definition terse_record : dict := [ ("summary", VStr "Slow query") ].

Definition terse_dumps (event : dict) : string := terse_answer.

Definition lenient : backend :=
  {| settings := default_settings;
     clock_at := fun _ => "2026-02-01T12:00:00+00:00";
     post_at := fun _ _ => RequestException;
     json_loads := fun text =>
       if String.eqb (strip text) terse_answer then Some (VDict terse_record) else None;
     serialisable := fun _ => true |}.

(** The action line [index_events] puts before every event. *)
Definition index_action (index_name : string) : value :=
  VDict [ ("index", VDict [ ("_index", VStr index_name) ]) ].

(** What a computation that appends to the list it is given returns for a
    list, given what it returns for the empty list. *)
Definition appended_to {A} (acc : list A) (r : result (list A * world))
    : result (list A * world) :=
  match r with
  | Ok (added, w') => Ok (acc ++ added, w')
  | Raise e => Raise e
  end.

(** A document without a field [_get_latest_collection] takes a key
    from. *)
Definition keyless (d : dict) : Prop :=
  dict_lookup "session_id" d = None
  ∧ dict_lookup "query_text" d = None
  ∧ dict_lookup "deadlock_id" d = None.

(** The documents the collection paths make: the events of a live
    collection, the generated events, and the copies a mock collection
    makes of such events. *)
Inductive indexed_document : dict → Prop :=
| live_document (B : backend) (event_type : string) (payload : dict)
    (s s' : collector.store) (event : dict) :
    collector._build_event B event_type payload s = Some (event, s') →
    indexed_document event
| generated_document (X : stress.chance) (count : Z) (t : stress.tally) (event : dict) :
    event ∈ fst (stress.generate_events X count t) →
    indexed_document event
| mock_document (B : backend) (now : string) (sample : dict) :
    indexed_document sample →
    indexed_document (enriched_dict B now sample).

(** A hit whose document is [d]. *)
Definition holds_document (d : dict) (hit : value) : Prop :=
  dashboard.py_item "_source" hit = Ok (VDict d).

(** Keys that differ from the keys before them. *)
Definition distinct_keys (items : list (value * value)) : Prop :=
  ∀ i j earlier later,
    items !! i = Some earlier → items !! j = Some later → (i < j)%nat →
    py_eq (fst later) (fst earlier) = false.

(** The key and the document of a hit. *)
Definition keyed_by (key source : value) (hit : value) : Prop :=
  dashboard.py_item "_source" hit = Ok source
  ∧ dashboard.source_key source = Ok key.

(** A blocking event of a live collection whose payload names a session,
    as a hit of the index. *)
Definition live_blocking : dict :=
  [ ("@timestamp", VStr "2026-02-01T12:00:00+00:00");
    ("event_type", VStr "blocking");
    ("host", VStr "localhost");
    ("sql_instance", VStr "unknown");
    ("payload", VDict [ ("session_id", VInt 71); ("blocking_session_id", VInt 10) ]) ].

Definition empty_store : collector.store :=
  {| collector.objects := []; collector.readings := 0 |}.

Definition hit_with (source : value) : value :=
  VDict [ ("_index", VStr "dbmon-metrics"); ("_source", source) ].

(** A key the dict covers: the dict has the entry of the key and the
    document, or an entry with an equal key. *)
Definition covered (items : list (value * value)) (key source : value) : Prop :=
  (key, source) ∈ items
  ∨ ∃ entry, entry ∈ items ∧ py_eq key (fst entry) = true.

(** A text without a backtick. *)
Fixpoint no_backtick (s : string) : bool :=
  match s with
  | EmptyString => true
  | String c s' => negb (Ascii.eqb c "`") && no_backtick s'
  end.

(** An answer of the model that wraps its JSON in a fence, with a remark
    after it. *)
Definition fenced_answer : string :=
  "```json" +:+ String newline terse_answer +:+ String newline "```"
  +:+ String newline "Hope this helps!".

(** The event [_build_event] makes at a reading of the clock. *)
Definition built (B : backend) (reading : nat) (event_type : string) (payload : dict) : dict :=
  [ ("@timestamp", VStr (clock_at B reading));
    ("event_type", VStr event_type);
    ("host", VStr (host_name (settings B)));
    ("sql_instance", VStr (sql_instance (settings B)));
    ("payload", VDict payload) ].

(** The events built for typed payloads at successive readings. *)
Fixpoint stamped (B : backend) (reading : nat) (answers : list (string * dict)) : list dict :=
  match answers with
  | [] => []
  | (event_type, payload) :: rest =>
      built B reading event_type payload :: stamped B (S reading) rest
  end.

(** The payloads of the rows of a query, up to the first row that is
    shorter than the columns, if there is one. *)
Fixpoint payloads (columns : list string) (rows : list (list value)) : list dict :=
  match rows with
  | [] => []
  | row :: rest =>
      match collector._row_to_dict columns row with
      | Ok payload => payload :: payloads columns rest
      | Raise _ => []
      end
  end.

(** What a query answers: the payloads of its rows when it returns rows,
    nothing when it raises or describes no columns. *)
Definition answers (S : collector.server) (event_type : string) : list (string * dict) :=
  match collector.execute S event_type with
  | collector.Cursor (Some columns) rows => List.map (pair event_type) (payloads columns rows)
  | _ => []
  end.

(** The same for the deadlock query, whose rows are read only when it
    describes at least one column. *)
Definition deadlock_answers (S : collector.server) : list (string * dict) :=
  match collector.execute S "deadlocks" with
  | collector.Cursor (Some (column :: columns)) rows =>
      List.map (pair "deadlocks") (payloads (column :: columns) rows)
  | _ => []
  end.

(** A server on which the blocking query returns two rows, the query for
    open transactions fails, and the others return nothing. *)
Definition two_blockers : collector.server :=
  {| collector.sql_connection_string := Some "Driver=ODBC;Server=db;Database=DBMonTest";
     collector.connects := true;
     collector.execute := fun event_type =>
       if String.eqb event_type "blocking" then
         collector.Cursor (Some [ "blocking_session_id"; "wait_time_ms" ])
           [ [ VInt 10; VInt 500 ]; [ VInt 11; VInt 200 ] ]
       else if String.eqb event_type "open_transactions" then collector.QueryError
       else collector.Cursor None [] |}.

(** A line with something other than blanks on it. *)
Definition not_blank (line : string) : bool := negb (String.eqb (strip line) "").

(** An event whose explanation returns, whatever was read and requested
    before. *)
Definition explainable (B : backend) (event : dict) : Prop :=
  ∀ w, ∃ v w', explainer.explain_event B event w = Ok (v, w').

(** A rule on the CPU of a resource snapshot. *)
Definition cpu_rule : dict :=
  [ ("event_type", VStr "cpu_memory");
    ("field", VStr "cpu_percent");
    ("op", VStr ">");
    ("value", VInt 90) ].

(** Whether [explain_event] sends a request for an event: the analysis by
    the model is switched on and [json.dumps] returns on the payload. *)
Definition asks (B : backend) (event : dict) : bool :=
  use_ai_analysis (settings B)
  && serialisable B (dict_get_or "payload" (VDict []) event).

(** The event an alert was made for, and whether a request was sent for
    the explanation of the alert. *)
Definition alert_event (a : value) : dict :=
  match a with
  | VDict d =>
      match dict_lookup "event" d with
      | Some (VDict event) => event
      | _ => []
      end
  | _ => []
  end.

Definition asked (B : backend) (a : value) : bool := asks B (alert_event a).

(** A backend whose server answers and whose [json.dumps] raises on every
    payload, as on the payloads of a live collection that hold dates. *)
Definition dated : backend :=
  {| settings := default_settings;
     clock_at := fun _ => "2026-02-01T12:00:00+00:00";
     post_at := fun _ _ => Response 200 (Some (VDict [ ("response", VStr terse_answer) ]));
     json_loads := fun text =>
       if String.eqb text terse_answer
       then Some (VDict [ ("summary", VStr "Slow query") ])
       else None;
     serialisable := fun _ => false |}.
(** * Properties *)

(** ** Facts about the runtime *)

Lemma py_eq_str (v : value) (s : string) :
  py_eq v (VStr s) = true ↔ v = VStr s.
Proof.
  destruct v as [ | b | n | x | t | xs | kvs ]; simpl;
    try (split; [ discriminate | intros E; discriminate E ]).
  rewrite String.eqb_eq. split; congruence.
Qed.

Lemma py_eq_str_false (v : value) (s : string) :
  v ≠ VStr s → py_eq v (VStr s) = false.
Proof.
  intros H. destruct (py_eq v (VStr s)) eqn:E; [ | reflexivity ].
  apply py_eq_str in E. contradiction.
Qed.

Lemma bind_ok {A B} (m : result A) (k : A → result B) (b : B) :
  bind m k = Ok b ↔ ∃ a, m = Ok a ∧ k a = Ok b.
Proof.
  destruct m as [ a | e ]; simpl.
  - split; [ eauto | intros (a' & E & H); congruence ].
  - split; [ discriminate | intros (a' & E & _); discriminate E ].
Qed.

Lemma py_eq_kinds (a b : value) : kind_of a ≠ kind_of b → py_eq a b = false.
Proof.
  destruct a, b; simpl; intros H; try reflexivity; try (exfalso; apply H; reflexivity).
Qed.

Lemma py_order_kinds (op : ordop) (a b : value) :
  kind_of a ≠ kind_of b → py_order op a b = Raise TypeError.
Proof.
  destruct a, b; simpl; intros H; try reflexivity; try (exfalso; apply H; reflexivity).
Qed.

(** ** Floats: conversions and divisions that do not overflow *)

Lemma digits2_size (p : positive) : digits2_pos p = Pos.size p.
Proof. induction p; simpl; congruence. Qed.

Lemma Zdigits2_log2 (m : Z) : 0 < m → Zdigits2 m = Z.log2 m + 1.
Proof.
  destruct m as [ | p | p ]; try lia. intros _. simpl. rewrite digits2_size.
  destruct p; simpl; lia.
Qed.

Lemma Zdigits2_mono (a b : Z) : 0 ≤ a ≤ b → Zdigits2 a ≤ Zdigits2 b.
Proof.
  intros [Ha Hab]. destruct (Z.eq_dec a 0) as [ -> | Hne ].
  - destruct b; simpl; lia.
  - rewrite !Zdigits2_log2 by lia. pose proof (Z.log2_le_mono a b Hab). lia.
Qed.

Lemma Zdigits2_succ (a : Z) : 0 ≤ a → Zdigits2 (a + 1) ≤ Zdigits2 a + 1.
Proof.
  intros Ha. destruct (Z.eq_dec a 0) as [ -> | Hne ]; [ simpl; lia | ].
  rewrite !Zdigits2_log2 by lia. pose proof (Z.log2_succ_le a).
  unfold Z.succ in *. lia.
Qed.

Lemma shr_1_bounds (mrs : shr_record) :
  0 ≤ shr_m mrs → 0 ≤ shr_m (shr_1 mrs) ≤ shr_m mrs.
Proof.
  destruct mrs as [ m r s ]. simpl. intros H.
  destruct m as [ | [ p | p | ] | p ]; simpl; lia.
Qed.

Lemma iter_shr_1_bounds (p : positive) :
  ∀ mrs, 0 ≤ shr_m mrs → 0 ≤ shr_m (SpecFloat.iter_pos shr_1 p mrs) ≤ shr_m mrs.
Proof.
  induction p as [ p IH | p IH | ]; intros mrs H; simpl.
  - pose proof (shr_1_bounds mrs H) as H1.
    pose proof (IH (shr_1 mrs) (proj1 H1)) as H2.
    pose proof (IH _ (proj1 H2)) as H3. lia.
  - pose proof (IH mrs H) as H2.
    pose proof (IH _ (proj1 H2)) as H3. lia.
  - apply shr_1_bounds. exact H.
Qed.

Lemma shr_fexp_bounds (m e : Z) (l : location) :
  0 ≤ m →
  0 ≤ shr_m (fst (shr_fexp prec64 emax64 m e l)) ≤ m
  ∧ snd (shr_fexp prec64 emax64 m e l) ≤ Z.max e (fexp prec64 emax64 (Zdigits2 m + e)).
Proof.
  intros Hm. unfold shr_fexp, shr.
  assert (Hrec : shr_m (shr_record_of_loc m l) = m) by (destruct l as [ | [ | | ] ]; reflexivity).
  destruct (fexp prec64 emax64 (Zdigits2 m + e) - e) as [ | p | p ] eqn:E; simpl.
  - rewrite Hrec. lia.
  - pose proof (iter_shr_1_bounds p (shr_record_of_loc m l)) as H.
    rewrite Hrec in H. specialize (H Hm). lia.
  - rewrite Hrec. lia.
Qed.

Lemma round_nearest_even_bounds (m : Z) (l : location) :
  m ≤ round_nearest_even m l ≤ m + 1.
Proof.
  destruct l as [ | [ | | ] ]; simpl; try lia. destruct (Z.even m); lia.
Qed.

(** Rounding a mantissa of moderate size at a non-positive exponent does
    not overflow. *)
Lemma binary_round_aux_finite (s : bool) (m e : Z) (l : location) :
  0 ≤ m → Zdigits2 m ≤ 512 → e ≤ 0 →
  ∀ s', binary_round_aux prec64 emax64 s m e l ≠ S754_infinity s'.
Proof.
  intros Hm Hd He s'. unfold binary_round_aux.
  pose proof (shr_fexp_bounds m e l Hm) as H1.
  destruct (shr_fexp prec64 emax64 m e l) as [ mrs1 e1 ]. simpl in H1.
  pose proof (round_nearest_even_bounds (shr_m mrs1) (loc_of_shr_record mrs1)) as Hr.
  set (m1 := round_nearest_even (shr_m mrs1) (loc_of_shr_record mrs1)) in *.
  assert (Hm1 : 0 ≤ m1) by lia.
  pose proof (shr_fexp_bounds m1 e1 loc_Exact Hm1) as H2.
  destruct (shr_fexp prec64 emax64 m1 e1 loc_Exact) as [ mrs2 e2 ]. simpl in H2.
  assert (Hd1 : Zdigits2 m1 ≤ Zdigits2 m + 1).
  { transitivity (Zdigits2 (m + 1)); [ apply Zdigits2_mono; lia | apply Zdigits2_succ; lia ]. }
  assert (Hd0 : 0 ≤ Zdigits2 m) by (destruct m; simpl; lia).
  assert (He2 : e2 ≤ emax64 - prec64).
  { unfold fexp, emin, prec64, emax64 in *. lia. }
  destruct (shr_m mrs2); try discriminate.
  apply Z.leb_le in He2. rewrite He2. discriminate.
Qed.

Lemma digits2_iter_xO (m d : positive) :
  Z.pos (digits2_pos (Pos.iter xO m d)) = Z.pos (digits2_pos m) + Z.pos d.
Proof.
  induction d as [ | d IH ] using Pos.peano_ind.
  - simpl. lia.
  - rewrite Pos.iter_succ. simpl. lia.
Qed.

Lemma binary_round_finite (s : bool) (m : positive) (e : Z) :
  Z.pos (digits2_pos m) ≤ 512 → e ≤ 0 →
  ∀ s', binary_round prec64 emax64 s m e ≠ S754_infinity s'.
Proof.
  intros Hd He s'. unfold binary_round, shl_align.
  destruct (fexp prec64 emax64 (Z.pos (digits2_pos m) + e) - e) as [ | d | d ] eqn:E.
  - apply binary_round_aux_finite; [ lia | exact Hd | exact He ].
  - apply binary_round_aux_finite; [ lia | exact Hd | exact He ].
  - apply binary_round_aux_finite; [ lia | | ].
    + simpl Zdigits2. rewrite digits2_iter_xO.
      unfold fexp, emin, prec64, emax64 in E. lia.
    + unfold fexp, emin, prec64, emax64 in *. lia.
Qed.

Lemma digits_below (m : positive) (b : Z) :
  0 ≤ b → Z.pos m < 2 ^ b → Z.pos (digits2_pos m) ≤ b.
Proof.
  intros Hb H. change (Z.pos (digits2_pos m)) with (Zdigits2 (Z.pos m)).
  rewrite Zdigits2_log2 by lia.
  apply Z.log2_lt_pow2 in H; lia.
Qed.

Lemma float_of_Z_moderate (n : Z) :
  Z.abs n < 2 ^ 500 → ∃ x, float_of_Z n = Ok x.
Proof.
  intros H. unfold float_of_Z, binary_normalize.
  destruct n as [ | m | m ]; [ eexists; reflexivity | | ].
  - pose proof (binary_round_finite false m 0) as Hf.
    destruct (binary_round prec64 emax64 false m 0) eqn:E; try (eexists; reflexivity).
    exfalso. eapply Hf; [ | lia | reflexivity ].
    transitivity 500; [ apply digits_below; lia | lia ].
  - pose proof (binary_round_finite true m 0) as Hf.
    destruct (binary_round prec64 emax64 true m 0) eqn:E; try (eexists; reflexivity).
    exfalso. eapply Hf; [ | lia | reflexivity ].
    transitivity 500; [ apply digits_below; lia | lia ].
Qed.

Lemma div_core_bounds (m1 m2 : positive) :
  Z.pos (digits2_pos m1) ≤ 500 → Z.pos (digits2_pos m2) ≤ 400 →
  let '(q, e, _) := SFdiv_core_binary prec64 emax64 (Z.pos m1) 0 (Z.pos m2) 0 in
  0 ≤ q ∧ Zdigits2 q ≤ 512 ∧ e ≤ 0.
Proof.
  intros H1 H2. unfold SFdiv_core_binary.
  set (d1 := Zdigits2 (Z.pos m1)). set (d2 := Zdigits2 (Z.pos m2)).
  assert (Hd1 : 0 < d1 ≤ 500) by (unfold d1; simpl; lia).
  assert (Hd2 : 0 < d2 ≤ 400) by (unfold d2; simpl; lia).
  set (e := Z.min (fexp prec64 emax64 (d1 + 0 - (d2 + 0))) (0 - 0)).
  assert (He : e ≤ 0) by (unfold e; lia).
  set (m := match 0 - 0 - e with
            | 0 => Z.pos m1
            | Z.pos _ => Z.shiftl (Z.pos m1) (0 - 0 - e)
            | Z.neg _ => 0
            end).
  assert (Hm : 0 < m ∧ Zdigits2 m ≤ 512).
  { unfold m. destruct (0 - 0 - e) as [ | p | p ] eqn:E; [ fold d1; lia | | lia ].
    assert (Hs : 0 < Z.shiftl (Z.pos m1) (Z.pos p)).
    { rewrite Z.shiftl_mul_pow2 by lia. apply Z.mul_pos_pos; [ lia | ].
      apply Z.pow_pos_nonneg; lia. }
    split; [ exact Hs | ].
    rewrite Zdigits2_log2 by exact Hs. rewrite Z.log2_shiftl by lia.
    pose proof (Zdigits2_log2 (Z.pos m1) ltac:(lia)) as Hl. fold d1 in Hl.
    unfold e, fexp, emin, prec64, emax64 in E. lia. }
  pose proof (Z_div_mod m (Z.pos m2) ltac:(lia)) as Hdiv.
  destruct (Z.div_eucl m (Z.pos m2)) as [ q r ].
  destruct Hdiv as [ Heq Hr ].
  assert (Hq : 0 ≤ q ≤ m) by nia.
  split; [ lia | ]. split; [ | exact He ].
  transitivity (Zdigits2 m); [ apply Zdigits2_mono; lia | lia ].
Qed.

Lemma SFdiv_ints_finite (sx sy : bool) (mx my : positive) :
  Z.pos (digits2_pos mx) ≤ 500 → Z.pos (digits2_pos my) ≤ 400 →
  ∀ s', SFdiv prec64 emax64 (S754_finite sx mx 0) (S754_finite sy my 0)
        ≠ S754_infinity s'.
Proof.
  intros H1 H2 s'. unfold SFdiv.
  pose proof (div_core_bounds mx my H1 H2) as Hb.
  destruct (SFdiv_core_binary prec64 emax64 (Z.pos mx) 0 (Z.pos my) 0) as [ [ q e ] l ].
  destruct Hb as (Hq & Hdq & He).
  apply binary_round_aux_finite; assumption.
Qed.

Lemma int_truediv_moderate (x y : Z) :
  Z.abs x < 2 ^ 500 → 0 < Z.abs y < 2 ^ 400 →
  ∃ q, num_truediv (NInt x) (NInt y) = Ok q.
Proof.
  intros Hx Hy. unfold num_truediv.
  destruct (Z.eqb_spec y 0) as [ -> | Hne ]; [ simpl in Hy; lia | ].
  destruct x as [ | mx | mx ]; [ eexists; reflexivity | | ].
  all: destruct y as [ | my | my ]; [ lia | | ].
  all: simpl Z.abs; simpl Z.to_pos.
  all: match goal with
       | |- context [ SFdiv _ _ (S754_finite ?sx ?a 0) (S754_finite ?sy ?b 0) ] =>
           pose proof (SFdiv_ints_finite sx sy a b) as Hf;
           destruct (SFdiv prec64 emax64 (S754_finite sx a 0) (S754_finite sy b 0)) eqn:E;
           try (eexists; reflexivity)
       end.
  all: exfalso; eapply Hf; [ apply digits_below; lia | apply digits_below; lia | reflexivity ].
Qed.

(** ** alerts.py: comparisons *)

Lemma not_an_operator (op : value) :
  op ∉ operators →
  py_eq op (VStr ">") = false ∧ py_eq op (VStr ">=") = false
  ∧ py_eq op (VStr "<") = false ∧ py_eq op (VStr "<=") = false
  ∧ py_eq op (VStr "==") = false ∧ py_eq op (VStr "!=") = false.
Proof.
  intros H. unfold operators in H.
  repeat split; apply py_eq_str_false; intros ->; apply H;
    repeat (first [ apply list_elem_of_here | apply list_elem_of_further ]).
Qed.

Lemma compare_unknown (v op threshold : value) :
  op ∉ operators → alerts._compare v op threshold = Ok false.
Proof.
  intros H. destruct (not_an_operator op H) as (H1 & H2 & H3 & H4 & H5 & H6).
  unfold alerts._compare. rewrite H1, H2, H3, H4, H5, H6.
  destruct (is_none v); reflexivity.
Qed.

Lemma compare_none (op threshold : value) :
  alerts._compare VNone op threshold = Ok false.
Proof. reflexivity. Qed.

(** ** alerts.py: the evaluation of rules *)

Lemma explain_event_returns (B : backend) (event : dict) (w : world) :
  is_ok (explainer._get_fallback_explanation event) = true →
  ∃ v w', explainer.explain_event B event w = Ok (v, w').
Proof.
  intros H. unfold explainer.explain_event.
  destruct (explainer._get_fallback_explanation event) as [ r | e ] eqn:E;
    [ | discriminate H ].
  destruct (use_ai_analysis (settings B)); [ | simpl; eauto ].
  destruct (explainer._call_ollama_ai B event w) as [ ai_result w' ].
  destruct (py_truthy ai_result); simpl; eauto.
Qed.

Lemma rule_step_other_type (B : backend) (event rule : dict) (payload : value)
    (acc : list value) (w : world) :
  same_type event rule = false →
  alerts.rule_step B event payload acc rule w = Ok (acc, w).
Proof.
  intros H. unfold alerts.rule_step, py_ne. unfold same_type in H. rewrite H. reflexivity.
Qed.

Lemma rule_step_no_match (B : backend) (event rule : dict) (acc : list value) (w : world) :
  rule_value event rule = Ok false →
  alerts.rule_step B event (dict_get_or "payload" (VDict []) event) acc rule w = Ok (acc, w).
Proof.
  intros H. unfold alerts.rule_step.
  destruct (py_ne _ _); [ reflexivity | ].
  unfold rule_value in H. apply bind_ok in H as (v & Hv & Hc).
  unfold bindM, lift. rewrite Hv, Hc. reflexivity.
Qed.

Lemma rule_step_match (B : backend) (event rule : dict) (acc : list value) (w : world) :
  same_type event rule = true →
  rule_value event rule = Ok true →
  explainable B event →
  ∃ a w', alerts.rule_step B event (dict_get_or "payload" (VDict []) event) acc rule w
          = Ok ((acc ++ [a])%list, w')
          ∧ alert_for a (event, rule).
Proof.
  intros Ht H Hf. unfold alerts.rule_step, py_ne.
  unfold same_type in Ht. rewrite Ht. simpl.
  unfold rule_value in H. apply bind_ok in H as (v & Hv & Hc).
  unfold bindM at 1, lift at 1. rewrite Hv.
  unfold bindM at 1, lift at 1. rewrite Hc.
  destruct (Hf w) as (x & w1 & Hx).
  unfold bindM at 1. rewrite Hx.
  unfold bindM, alerts._now_iso, ret.
  eexists _, _. split; [ reflexivity | ].
  eexists _, _. reflexivity.
Qed.

(** The inner loop appends one alert per rule that fires, in order. *)
Lemma rules_loop (B : backend) (event : dict) (rules : list dict) :
  (∀ rule, rule ∈ rules → same_type event rule = true →
     ∃ b, rule_value event rule = Ok b
          ∧ (b = true → explainable B event)) →
  ∀ (acc : list value) (w : world),
  ∃ added w',
    alerts.event_step B rules acc event w = Ok ((acc ++ added)%list, w')
    ∧ Forall2 alert_for added (List.map (pair event) (List.filter (fires event) rules)).
Proof.
  unfold alerts.event_step.
  induction rules as [ | rule rules IH ]; intros H acc w.
  - exists [], w. rewrite app_nil_r. split; [ reflexivity | constructor ].
  - assert (Hrest : ∀ r, r ∈ rules → same_type event r = true →
       ∃ b, rule_value event r = Ok b
            ∧ (b = true → explainable B event)).
    { intros r Hr. apply H. apply list_elem_of_further. exact Hr. }
    specialize (IH Hrest).
    simpl foldM. unfold bindM at 1. simpl List.filter.
    destruct (same_type event rule) eqn:Ht.
    + destruct (H rule (list_elem_of_here _ _) Ht) as (b & Hb & Hf).
      destruct b.
      * assert (Hfire : fires event rule = true)
          by (unfold fires; rewrite Ht, Hb; reflexivity).
        rewrite Hfire.
        destruct (rule_step_match B event rule acc w Ht Hb (Hf eq_refl))
          as (a & w1 & Hs & Ha).
        rewrite Hs. destruct (IH (acc ++ [a])%list w1) as (added & w' & Hl & Hall).
        exists (a :: added), w'. split.
        -- rewrite Hl. rewrite <- app_assoc. reflexivity.
        -- simpl. constructor; assumption.
      * assert (Hfire : fires event rule = false)
          by (unfold fires; rewrite Ht, Hb; reflexivity).
        rewrite Hfire.
        rewrite (rule_step_no_match B event rule acc w Hb).
        destruct (IH acc w) as (added & w' & Hl & Hall).
        exists added, w'. split; assumption.
    + assert (Hfire : fires event rule = false)
        by (unfold fires; rewrite Ht; reflexivity).
      rewrite Hfire.
      rewrite (rule_step_other_type B event rule _ acc w Ht).
      destruct (IH acc w) as (added & w' & Hl & Hall).
      exists added, w'. split; assumption.
Qed.

(** The outer loop: one alert per firing pair, events first. *)
Lemma events_loop (B : backend) (rules : list dict) (events : list dict) :
  (∀ event rule, event ∈ events → rule ∈ rules → same_type event rule = true →
     ∃ b, rule_value event rule = Ok b
          ∧ (b = true → explainable B event)) →
  ∀ (acc : list value) (w : world),
  ∃ added w',
    foldM (alerts.event_step B rules) events acc w = Ok ((acc ++ added)%list, w')
    ∧ Forall2 alert_for added (firing events rules).
Proof.
  induction events as [ | event events IH ]; intros H acc w.
  - exists [], w. rewrite app_nil_r. split; [ reflexivity | constructor ].
  - destruct (rules_loop B event rules
                (fun r Hr => H event r (list_elem_of_here _ _) Hr) acc w)
      as (added1 & w1 & H1 & Hall1).
    assert (Hrest : ∀ e r, e ∈ events → r ∈ rules → same_type e r = true →
       ∃ b, rule_value e r = Ok b
            ∧ (b = true → explainable B e)).
    { intros e r He. apply H. apply list_elem_of_further. exact He. }
    destruct (IH Hrest (acc ++ added1)%list w1) as (added2 & w2 & H2 & Hall2).
    exists (added1 ++ added2)%list, w2. split.
    + simpl foldM. unfold bindM at 1. rewrite H1, H2, app_assoc. reflexivity.
    + unfold firing. simpl flat_map. apply Forall2_app; assumption.
Qed.


(** Where no rule fires, nothing is appended and nothing is read. *)
Lemma events_loop_silent (B : backend) (rules : list dict) (events : list dict) :
  (∀ event rule, event ∈ events → rule ∈ rules →
     same_type event rule = false ∨ rule_value event rule = Ok false) →
  ∀ (acc : list value) (w : world),
    foldM (alerts.event_step B rules) events acc w = Ok (acc, w).
Proof.
  induction events as [ | event events IH ]; intros H acc w; [ reflexivity | ].
  simpl foldM. unfold bindM at 1.
  assert (Hev : ∀ rs, (∀ r, r ∈ rs → r ∈ rules) →
            alerts.event_step B rs acc event w = Ok (acc, w)).
  { induction rs as [ | r rs IHr ]; intros Hsub; [ reflexivity | ].
    unfold alerts.event_step. simpl foldM. unfold bindM at 1.
    destruct (H event r (list_elem_of_here _ _) (Hsub r (list_elem_of_here _ _)))
      as [ Ht | Hv ].
    - rewrite (rule_step_other_type B event r _ acc w Ht).
      apply IHr. intros r' Hr'. apply Hsub. apply list_elem_of_further. exact Hr'.
    - rewrite (rule_step_no_match B event r acc w Hv).
      apply IHr. intros r' Hr'. apply Hsub. apply list_elem_of_further. exact Hr'. }
  rewrite (Hev rules (fun r Hr => Hr)).
  apply IH. intros e r He. apply H. apply list_elem_of_further. exact He.
Qed.

Lemma rule_value_unknown_operator (event rule : dict) :
  dict_get "op" rule ∉ operators →
  hashable (dict_get "field" rule) = true →
  has_mapping event →
  rule_value event rule = Ok false.
Proof.
  intros Hop Hh (p & Hp). unfold rule_value. rewrite Hp.
  unfold py_get_value. rewrite Hh.
  destruct (dict_get "field" rule); simpl; apply compare_unknown; exact Hop.
Qed.

Lemma rule_value_absent (event rule : dict) (p : dict) (field : string) :
  dict_get_or "payload" (VDict []) event = VDict p →
  dict_get "field" rule = VStr field →
  dict_lookup field p = None →
  rule_value event rule = Ok false.
Proof.
  intros Hp Hf Hnone. unfold rule_value. rewrite Hp, Hf. simpl.
  unfold dict_get. rewrite Hnone. reflexivity.
Qed.

(** C10: a rule whose operator is none of the six never matches: its
    comparison is false whatever the value and the threshold, and the
    evaluation of the rule over any batch of events whose payloads are
    mappings returns no alert and does not raise. *)
Theorem unknown_operator_never_matches (op v threshold : value) (B : backend)
    (events : list dict) (rule : dict) (w : world) :
  op ∉ operators →
  dict_get "op" rule = op →
  hashable (dict_get "field" rule) = true →
  Forall has_mapping events →
  alerts._compare v op threshold = Ok false
  ∧ alerts.evaluate_rules B events [rule] w = Ok ([], w).
Proof.
  intros Hop Hrule Hh Hev. split; [ apply compare_unknown; exact Hop | ].
  unfold alerts.evaluate_rules. apply events_loop_silent.
  intros event r He Hr. right.
  apply list_elem_of_singleton in Hr. subst r.
  apply rule_value_unknown_operator; [ rewrite Hrule; exact Hop | exact Hh | ].
  rewrite Forall_forall in Hev. apply Hev. exact He.
Qed.

Lemma unknown_operator_never_matches_witness :
  (VStr "=>" ∉ operators)
  ∧ dict_get "op" (dict_set "op" (VStr "=>") slow_rule) = VStr "=>"
  ∧ hashable (dict_get "field" (dict_set "op" (VStr "=>") slow_rule)) = true
  ∧ Forall has_mapping [slow_event (VInt 15000)]
  ∧ alerts._compare (VInt 15000) (VStr "=>") (VInt 5000) = Ok false
  ∧ alerts.evaluate_rules offline [slow_event (VInt 15000)]
      [dict_set "op" (VStr "=>") slow_rule] start = Ok ([], start).
Proof.
  assert (H1 : VStr "=>" ∉ operators).
  { unfold operators. intros H.
    repeat (apply elem_of_cons in H as [ H | H ]; [ discriminate H | ]).
    inversion H. }
  assert (H2 : Forall has_mapping [slow_event (VInt 15000)]).
  { constructor; [ | constructor ]. eexists. reflexivity. }
  split; [ exact H1 | ].
  split; [ reflexivity | ].
  split; [ reflexivity | ].
  split; [ exact H2 | ].
  exact (unknown_operator_never_matches (VStr "=>") (VInt 15000) (VInt 5000) offline
           [slow_event (VInt 15000)] (dict_set "op" (VStr "=>") slow_rule) start
           H1 eq_refl eq_refl H2).
Defined.

(** C5, as the code has it: between a value and a threshold of different
    kinds, equality is a non-match and inequality a match, neither
    raising; each of the four orderings raises TypeError.  A value that
    is None is a non-match under every operator. *)
Theorem mismatched_kinds (v op threshold : value) :
  kind_of v ≠ kind_of threshold →
  v ≠ VNone →
  alerts._compare v (VStr "==") threshold = Ok false
  ∧ alerts._compare v (VStr "!=") threshold = Ok true
  ∧ alerts._compare v (VStr "<") threshold = Raise TypeError
  ∧ alerts._compare v (VStr "<=") threshold = Raise TypeError
  ∧ alerts._compare v (VStr ">") threshold = Raise TypeError
  ∧ alerts._compare v (VStr ">=") threshold = Raise TypeError
  ∧ alerts._compare VNone op threshold = Ok false.
Proof.
  intros Hk Hn.
  assert (Hnone : is_none v = false) by (destruct v; [ contradiction | reflexivity .. ]).
  unfold alerts._compare, py_ne, py_lt, py_le, py_gt, py_ge. rewrite Hnone.
  rewrite (py_eq_kinds _ _ Hk).
  rewrite !(py_order_kinds _ _ _ Hk).
  repeat split; reflexivity.
Qed.

Lemma mismatched_kinds_witness :
  kind_of (VStr "abc") ≠ kind_of (VInt 5)
  ∧ VStr "abc" ≠ VNone
  ∧ alerts._compare (VStr "abc") (VStr "==") (VInt 5) = Ok false
  ∧ alerts._compare (VStr "abc") (VStr "!=") (VInt 5) = Ok true
  ∧ alerts._compare (VStr "abc") (VStr "<") (VInt 5) = Raise TypeError
  ∧ alerts._compare (VStr "abc") (VStr "<=") (VInt 5) = Raise TypeError
  ∧ alerts._compare (VStr "abc") (VStr ">") (VInt 5) = Raise TypeError
  ∧ alerts._compare (VStr "abc") (VStr ">=") (VInt 5) = Raise TypeError
  ∧ alerts._compare VNone (VStr ">") (VInt 5) = Ok false.
Proof.
  split; [ discriminate | ].
  split; [ discriminate | ].
  apply (mismatched_kinds (VStr "abc") (VStr ">") (VInt 5)); discriminate.
Defined.

(** C5 as stated fails: ordering a string against a number raises, out of
    the comparison and out of the evaluation of the rules. *)
Lemma string_against_number_raises :
  alerts._compare (VStr "abc") (VStr ">") (VInt 5000) = Raise TypeError
  ∧ alerts.evaluate_rules offline [slow_event (VStr "abc")] [slow_rule] start
    = Raise TypeError.
Proof. split; reflexivity. Qed.

(** What an evaluation that returns has appended: one alert for each
    rule that fires, whether or not anything could have raised. *)
Lemma rule_step_returned (B : backend) (event rule : dict) (acc acc' : list value)
    (w w' : world) :
  alerts.rule_step B event (dict_get_or "payload" (VDict []) event) acc rule w
  = Ok (acc', w') →
  ∃ added,
    acc' = (acc ++ added)%list
    ∧ Forall2 alert_for added (List.map (pair event) (List.filter (fires event) [rule])).
Proof.
  change (List.filter (fires event) [rule]) with (if fires event rule then [rule] else []).
  unfold alerts.rule_step, fires, same_type, rule_value, py_ne.
  destruct (py_eq (dict_get "event_type" event) (dict_get "event_type" rule)); cbn [negb andb].
  - unfold bindM at 1. unfold lift at 1.
    destruct (py_get_value _ _) as [ value_ | ]; [ | discriminate ].
    cbn [bind]. unfold bindM at 1. unfold lift at 1.
    destruct (alerts._compare _ _ _) as [ [ | ] | ]; [ | | discriminate ].
    + unfold bindM at 1.
      destruct (explainer.explain_event B event w) as [ [ explanation w1 ] | ];
        [ | discriminate ].
      unfold bindM, alerts._now_iso, ret. intros H. injection H as <- <-.
      eexists. split; [ reflexivity | ].
      cbn [List.map]. constructor; [ | constructor ]. eexists _, _. reflexivity.
    + intros H. injection H as <- <-. exists []. rewrite app_nil_r.
      split; [ reflexivity | constructor ].
  - intros H. injection H as <- <-. exists []. rewrite app_nil_r.
    split; [ reflexivity | constructor ].
Qed.

Lemma rules_loop_returned (B : backend) (event : dict) (rules : list dict) :
  ∀ (acc acc' : list value) (w w' : world),
    alerts.event_step B rules acc event w = Ok (acc', w') →
    ∃ added,
      acc' = (acc ++ added)%list
      ∧ Forall2 alert_for added (List.map (pair event) (List.filter (fires event) rules)).
Proof.
  unfold alerts.event_step.
  induction rules as [ | rule rules IH ]; intros acc acc' w w' H.
  - injection H as <- <-. exists []. rewrite app_nil_r.
    split; [ reflexivity | constructor ].
  - cbn [foldM] in H. unfold bindM at 1 in H.
    destruct (alerts.rule_step B event _ acc rule w) as [ [ acc1 w1 ] | ] eqn:E1;
      [ | discriminate ].
    apply rule_step_returned in E1 as (added1 & -> & Hall1).
    apply IH in H as (added2 & -> & Hall2).
    exists (added1 ++ added2)%list. rewrite <- app_assoc.
    split; [ reflexivity | ].
    change (rule :: rules) with ([rule] ++ rules)%list.
    rewrite List.filter_app, List.map_app. apply Forall2_app; assumption.
Qed.

Lemma events_loop_returned (B : backend) (rules : list dict) (events : list dict) :
  ∀ (acc acc' : list value) (w w' : world),
    foldM (alerts.event_step B rules) events acc w = Ok (acc', w') →
    ∃ added,
      acc' = (acc ++ added)%list
      ∧ Forall2 alert_for added (firing events rules).
Proof.
  induction events as [ | event events IH ]; intros acc acc' w w' H.
  - injection H as <- <-. exists []. rewrite app_nil_r.
    split; [ reflexivity | constructor ].
  - cbn [foldM] in H. unfold bindM at 1 in H.
    destruct (alerts.event_step B rules acc event w) as [ [ acc1 w1 ] | ] eqn:E1;
      [ | discriminate ].
    apply rules_loop_returned in E1 as (added1 & -> & Hall1).
    apply IH in H as (added2 & -> & Hall2).
    exists (added1 ++ added2)%list. rewrite <- app_assoc.
    split; [ reflexivity | ].
    unfold firing. simpl flat_map. apply Forall2_app; assumption.
Qed.

Lemma explainable_by_fallback (B : backend) (event : dict) :
  is_ok (explainer._get_fallback_explanation event) = true → explainable B event.
Proof. intros H w. apply explain_event_returns. exact H. Qed.

Lemma same_type_of_firing (events rules : list dict) (event rule : dict) :
  (event, rule) ∈ firing events rules →
  event ∈ events ∧ rule ∈ rules
  ∧ same_type event rule = true ∧ rule_value event rule = Ok true.
Proof.
  unfold firing. rewrite list_elem_of_In, in_flat_map.
  intros (e & He & Hin). apply in_map_iff in Hin as (r & Heq & Hr).
  injection Heq as -> ->. apply filter_In in Hr as (Hr & Hf).
  unfold fires in Hf. apply andb_true_iff in Hf as (Ht & Hv).
  rewrite <- !list_elem_of_In in *.
  repeat split; try assumption.
  destruct (rule_value event rule) as [ [ | ] | ]; [ reflexivity | discriminate .. ].
Qed.

(** C4: a rule is matched only against the events of its type.  An
    evaluation that returns has made exactly one alert for each pair of an
    event and a rule that fires on it, events first; and the evaluation
    returns whenever every comparison of a rule with an event of its type
    returns and the explanation of every event on which a rule fires
    returns.  The rule on [avg_elapsed_time_ms > 5000] yields one alert on
    a slow query of 15000 ms, none on one of 4000 ms and none on a blocking
    event whatever its payload; a rule whose field, a text, is absent from
    a payload that is a mapping yields no alert and does not raise. *)
Theorem rule_matching (B : backend) (events rules : list dict) (w : world)
    (payload : value) (event rule : dict) (p : dict) (field : string) :
  (∀ e r, e ∈ events → r ∈ rules → same_type e r = true →
     ∃ b, rule_value e r = Ok b ∧ (b = true → explainable B e)) →
  dict_get_or "payload" (VDict []) event = VDict p →
  dict_get "field" rule = VStr field →
  dict_lookup field p = None →
  (∃ alerts w',
     alerts.evaluate_rules B events rules w = Ok (alerts, w')
     ∧ Forall2 alert_for alerts (firing events rules))
  ∧ (∀ (batch ruleset : list dict) (before after : world) (alerts : list value),
       alerts.evaluate_rules B batch ruleset before = Ok (alerts, after) →
       Forall2 alert_for alerts (firing batch ruleset))
  ∧ (∀ e r, (e, r) ∈ firing events rules →
       py_eq (dict_get "event_type" e) (dict_get "event_type" r) = true)
  ∧ (∃ a w', alerts.evaluate_rules B [slow_event (VInt 15000)] [slow_rule] w
             = Ok ([a], w')
             ∧ alert_for a (slow_event (VInt 15000), slow_rule))
  ∧ alerts.evaluate_rules B [slow_event (VInt 4000)] [slow_rule] w = Ok ([], w)
  ∧ alerts.evaluate_rules B [blocking_event payload] [slow_rule] w = Ok ([], w)
  ∧ alerts.evaluate_rules B [event] [rule] w = Ok ([], w).
Proof.
  intros Hsafe Hp Hf Hnone.
  split; [ | split; [ | split; [ | split; [ | split; [ | split ] ] ] ] ].
  - destruct (events_loop B rules events Hsafe [] w) as (added & w' & H & Hall).
    exists added, w'. split; assumption.
  - intros batch ruleset before after alerts H.
    apply events_loop_returned in H as (added & -> & Hall). exact Hall.
  - intros e r H. apply same_type_of_firing in H as (_ & _ & H & _). exact H.
  - destruct (events_loop B [slow_rule] [slow_event (VInt 15000)]) with (acc := @nil value) (w := w)
      as (added & w' & H & Hall).
    { intros e r He Hr _.
      apply list_elem_of_singleton in He. apply list_elem_of_singleton in Hr. subst e r.
      exists true. split; [ reflexivity | ].
      intros _. apply explainable_by_fallback. reflexivity. }
    assert (Hfiring : firing [slow_event (VInt 15000)] [slow_rule]
                      = [(slow_event (VInt 15000), slow_rule)]) by reflexivity.
    rewrite Hfiring in Hall.
    inversion Hall as [ | a pr added' prs Ha Hrest ]; subst.
    inversion Hrest; subst.
    exists a, w'. split; [ exact H | exact Ha ].
  - apply events_loop_silent. intros e r He Hr.
    apply list_elem_of_singleton in He. apply list_elem_of_singleton in Hr. subst e r.
    right. reflexivity.
  - apply events_loop_silent. intros e r He Hr.
    apply list_elem_of_singleton in He. apply list_elem_of_singleton in Hr. subst e r.
    left. reflexivity.
  - apply events_loop_silent. intros e r He Hr.
    apply list_elem_of_singleton in He. apply list_elem_of_singleton in Hr. subst e r.
    right. exact (rule_value_absent event rule p field Hp Hf Hnone).
Qed.

Lemma rule_matching_witness :
  (∀ e r, e ∈ scenario_events → r ∈ [slow_rule] → same_type e r = true →
     ∃ b, rule_value e r = Ok b ∧ (b = true → explainable offline e))
  ∧ dict_get_or "payload" (VDict []) uncounted_event
    = VDict [ ("execution_count", VInt 3) ]
  ∧ dict_get "field" slow_rule = VStr "avg_elapsed_time_ms"
  ∧ dict_lookup "avg_elapsed_time_ms" [ ("execution_count", VInt 3) ] = None
  ∧ ((∃ alerts w',
        alerts.evaluate_rules offline scenario_events [slow_rule] start = Ok (alerts, w')
        ∧ Forall2 alert_for alerts (firing scenario_events [slow_rule]))
     ∧ (∀ e r, (e, r) ∈ firing scenario_events [slow_rule] →
          py_eq (dict_get "event_type" e) (dict_get "event_type" r) = true)
     ∧ (∃ a w', alerts.evaluate_rules offline [slow_event (VInt 15000)] [slow_rule] start
                = Ok ([a], w')
                ∧ alert_for a (slow_event (VInt 15000), slow_rule))
     ∧ alerts.evaluate_rules offline [slow_event (VInt 4000)] [slow_rule] start
       = Ok ([], start)
     ∧ alerts.evaluate_rules offline
         [blocking_event (VDict [ ("avg_elapsed_time_ms", VInt 15000) ])] [slow_rule] start
       = Ok ([], start)
     ∧ alerts.evaluate_rules offline [uncounted_event] [slow_rule] start = Ok ([], start)).
Proof.
  assert (H : ∀ e r, e ∈ scenario_events → r ∈ [slow_rule] → same_type e r = true →
     ∃ b, rule_value e r = Ok b ∧ (b = true → explainable offline e)).
  { intros e r He Hr. apply list_elem_of_singleton in Hr. subst r.
    unfold scenario_events in He.
    repeat (apply elem_of_cons in He as [ -> | He ]); [ | | | inversion He ].
    - intros _. exists true. split; [ reflexivity | ].
      intros _. apply explainable_by_fallback. reflexivity.
    - intros _. exists false. split; [ reflexivity | discriminate ].
    - intros Ht. discriminate Ht. }
  split; [ exact H | ].
  split; [ reflexivity | ].
  split; [ reflexivity | ].
  split; [ reflexivity | ].
  destruct (rule_matching offline scenario_events [slow_rule] start
              (VDict [ ("avg_elapsed_time_ms", VInt 15000) ]) uncounted_event slow_rule
              [ ("execution_count", VInt 3) ] "avg_elapsed_time_ms"
              H eq_refl eq_refl eq_refl)
    as (H1 & _ & H3 & H4 & H5 & H6 & H7).
  split; [ exact H1 | ]. split; [ exact H3 | ]. split; [ exact H4 | ].
  split; [ exact H5 | ]. split; [ exact H6 | exact H7 ].
Defined.

(** A rule that fires and makes no alert: the rule on the CPU fires on a
    resource snapshot without its available memory, whose explanation
    raises when the server cannot be reached; the evaluation raises, and
    the alert made before for a slow query is lost with it. *)
Lemma firing_rule_without_alert :
  firing [ partial_cpu_memory ] [ cpu_rule ] = [ (partial_cpu_memory, cpu_rule) ]
  ∧ alerts.evaluate_rules offline [ partial_cpu_memory ] [ cpu_rule ] start
    = Raise TypeError
  ∧ firing [ slow_event (VInt 15000); partial_cpu_memory ] [ slow_rule; cpu_rule ]
    = [ (slow_event (VInt 15000), slow_rule); (partial_cpu_memory, cpu_rule) ]
  ∧ alerts.evaluate_rules offline [ slow_event (VInt 15000); partial_cpu_memory ]
      [ slow_rule; cpu_rule ] start
    = Raise TypeError.
Proof. repeat split; vm_compute; reflexivity. Qed.

(** ** explainer.py: the fallback *)

Lemma moderate_number (v : value) :
  moderate v = true → ∃ a x, num_of v = Some a ∧ float_of_num a = Ok x.
Proof.
  destruct v as [ | b | n | x | s | xs | kvs ]; simpl; try discriminate; intros H.
  - exists (NInt (Z.b2z b)). destruct b; eexists; split; reflexivity.
  - apply Z.ltb_lt in H. destruct (float_of_Z_moderate n H) as (x & Hx).
    exists (NInt n), x. split; [ reflexivity | exact Hx ].
  - exists (NFloat x), x. split; reflexivity.
Qed.

Lemma moderate_format (comma : bool) (digits : nat) (v : value) :
  moderate v = true → ∃ text, py_format_f comma digits v = Ok text.
Proof.
  intros H. destruct (moderate_number v H) as (a & x & Ha & Hx).
  unfold py_format_f. rewrite Ha, Hx.
  destruct v; try discriminate H; eexists; reflexivity.
Qed.

Lemma moderate_truediv (v : value) (d : Z) :
  moderate v = true → d = 1000 ∨ d = 1024 →
  ∃ q, py_truediv v (VInt d) = Ok (VFloat q).
Proof.
  intros H Hd. unfold py_truediv.
  destruct v as [ | b | n | x | s | xs | kvs ]; simpl in H; try discriminate H;
    simpl num_of; cbv iota.
  - destruct b, Hd as [ -> | -> ]; eexists; reflexivity.
  - apply Z.ltb_lt in H.
    destruct (int_truediv_moderate n d H) as (q & Hq); [ destruct Hd; subst; lia | ].
    rewrite Hq. eexists. reflexivity.
  - destruct Hd as [ -> | -> ]; eexists; reflexivity.
Qed.

Lemma moderate_add (a b : value) :
  moderate a = true → moderate b = true → ∃ v, py_add a b = Ok v.
Proof.
  intros Ha Hb.
  destruct (moderate_number a Ha) as (x & fx & Hx & Hfx).
  destruct (moderate_number b Hb) as (y & fy & Hy & Hfy).
  unfold py_add.
  destruct a; try discriminate Ha; destruct b; try discriminate Hb;
    rewrite Hx, Hy; unfold num_add; destruct x, y;
    try rewrite Hfx; try rewrite Hfy; simpl; eexists; reflexivity.
Qed.

Lemma moderate_gt (v : value) (n : Z) :
  moderate v = true → ∃ b, py_gt v (VInt n) = Ok b.
Proof.
  destruct v; simpl; try discriminate; intros _; eexists; reflexivity.
Qed.

Lemma sliceable_slice (n : nat) (v : value) :
  sliceable v = true → ∃ s, py_slice_to n v = Ok s.
Proof.
  destruct v; simpl; try discriminate; intros _; eexists; reflexivity.
Qed.

(** On its domain the fallback returns a well-formed explanation. *)
Lemma fallback_total (event : dict) :
  in_domain event = true →
  ∃ r, explainer._get_fallback_explanation event = Ok r ∧ well_formed r.
Proof.
  unfold in_domain, explainer._get_fallback_explanation.
  set (event_type := dict_get_or "event_type" (VStr "unknown") event).
  set (payload := dict_get_or "payload" (VDict []) event).
  intros H.
  destruct (py_eq event_type (VStr "blocking")) eqn:E1.
  { destruct payload as [ | | | | | | p ]; try discriminate H.
    simpl. eexists. split; [ reflexivity | ].
    eexists _, _, _, _. split; [ reflexivity | split; discriminate ]. }
  destruct (py_eq event_type (VStr "deadlocks")) eqn:E2.
  { eexists. split; [ reflexivity | ].
    eexists _, _, _, _. split; [ reflexivity | split; discriminate ]. }
  destruct (py_eq event_type (VStr "open_transactions")) eqn:E3.
  { destruct payload as [ | | | | | | p ]; try discriminate H.
    simpl. eexists. split; [ reflexivity | ].
    eexists _, _, _, _. split; [ reflexivity | split; discriminate ]. }
  destruct (py_eq event_type (VStr "missing_indexes")) eqn:E4.
  { destruct payload as [ | | | | | | p ]; try discriminate H.
    apply andb_true_iff in H as (Hs & Hc).
    destruct (moderate_add _ _ Hs Hc) as (total & Ht).
    simpl. rewrite Ht. simpl.
    eexists. split; [ reflexivity | ].
    eexists _, _, _, _. split; [ reflexivity | split; discriminate ]. }
  destruct (py_eq event_type (VStr "slow_queries")) eqn:E5.
  { destruct payload as [ | | | | | | p ]; try discriminate H.
    apply andb_true_iff in H as (H & Hr). apply andb_true_iff in H as (Hq & Ha).
    destruct (sliceable_slice 200 _ Hq) as (query_text & Hslice).
    destruct (moderate_gt _ 1000 Ha) as (slow & Hslow).
    destruct (moderate_format true 0 _ Hr) as (reads & Hreads).
    simpl py_get_or. simpl py_get. cbv beta iota. simpl bind at 1.
    simpl bind at 1. simpl bind at 1.
    rewrite Hslice. simpl bind at 1. simpl bind at 1.
    rewrite Hslow. simpl bind at 1.
    destruct slow.
    - destruct (moderate_truediv _ 1000 Ha (or_introl eq_refl)) as (q & Hdiv).
      rewrite Hdiv. simpl bind at 1. simpl bind at 1. rewrite Hreads.
      eexists. split; [ reflexivity | ].
      eexists _, _, _, _. split; [ reflexivity | split; discriminate ].
    - destruct (moderate_format false 0 _ Ha) as (text & Htext).
      rewrite Htext. simpl bind at 1. simpl bind at 1. rewrite Hreads.
      eexists. split; [ reflexivity | ].
      eexists _, _, _, _. split; [ reflexivity | split; discriminate ]. }
  destruct (py_eq event_type (VStr "cpu_memory")) eqn:E6.
  { destruct payload as [ | | | | | | p ]; try discriminate H.
    apply andb_true_iff in H as (H & Hs). apply andb_true_iff in H as (Ha & Ht).
    destruct (moderate_format true 0 _ Ha) as (avail & Havail).
    destruct (moderate_format true 0 _ Ht) as (total & Htotal).
    destruct (moderate_format true 0 _ Hs) as (sql & Hsql).
    simpl py_get_or. simpl py_get. cbv beta iota.
    repeat (simpl bind at 1).
    rewrite Havail. simpl bind at 1. rewrite Htotal. simpl bind at 1. rewrite Hsql.
    eexists. split; [ reflexivity | ].
    eexists _, _, _, _. split; [ reflexivity | split; discriminate ]. }
  destruct (py_eq event_type (VStr "tempdb_health")) eqn:E7.
  { destruct payload as [ | | | | | | p ]; try discriminate H.
    apply andb_true_iff in H as (H & Hi). apply andb_true_iff in H as (Hf & Hu).
    destruct (moderate_truediv _ 1024 Hf (or_intror eq_refl)) as (free_mb & Hfree).
    destruct (moderate_truediv _ 1024 Hu (or_intror eq_refl)) as (user_mb & Huser).
    destruct (moderate_truediv _ 1024 Hi (or_intror eq_refl)) as (internal_mb & Hint).
    simpl py_get_or. cbv beta iota. simpl bind at 1.
    rewrite Hfree. repeat (simpl bind at 1).
    rewrite Huser. repeat (simpl bind at 1).
    rewrite Hint.
    eexists. split; [ reflexivity | ].
    eexists _, _, _, _. split; [ reflexivity | split; discriminate ]. }
  eexists. split; [ reflexivity | ].
  eexists _, _, _, _. split; [ reflexivity | split; discriminate ].
Qed.

(** ** explainer.py: primary and fallback *)

Lemma call_unavailable (B : backend) (event : dict) (w : world) :
  post_at B (posts w) event = RequestException
  ∨ (∃ status body, post_at B (posts w) event = Response status body
                    ∧ (status ≠ 200 ∨ body = None))
  ∨ (∃ body s text,
       post_at B (posts w) event = Response 200 (Some body)
       ∧ py_get_or "response" (VStr "") body = Ok (VStr s)
       ∧ explainer.fenced_json s = Ok text
       ∧ json_loads B text = None) →
  fst (explainer._call_ollama_ai B event w) = VNone.
Proof.
  unfold explainer._call_ollama_ai.
  destruct (serialisable B _); [ | reflexivity ]. cbn [negb].
  intros [ H | [ (status & body & H & Hbad) | (body & s & text & H & Hs & Ht & Hl) ] ];
    rewrite H.
  - reflexivity.
  - destruct (Z.eqb_spec status 200) as [ -> | Hne ]; [ | reflexivity ].
    destruct Hbad as [ Hbad | -> ]; [ contradiction | reflexivity ].
  - simpl. rewrite Hs. simpl. rewrite Ht. simpl. rewrite Hl. reflexivity.
Qed.

Lemma explain_event_unavailable (B : backend) (event : dict) (w : world) :
  unavailable B event w →
  ∃ w', explainer.explain_event B event w
        = lift (explainer._get_fallback_explanation event) w'.
Proof.
  intros H. unfold explainer.explain_event. unfold unavailable in H.
  destruct (use_ai_analysis (settings B)) eqn:E; [ | exists w; reflexivity ].
  destruct H as [ H | H ]; [ discriminate H | ].
  apply call_unavailable in H.
  destruct (explainer._call_ollama_ai B event w) as [ ai_result w' ].
  simpl in H. subst ai_result. exists w'. reflexivity.
Qed.

(** C2, as the code has it: a truthy answer of the primary is returned as
    it is; when the primary is unavailable (switched off, failed request,
    timeout, status other than 200, body or text that does not parse) the
    explanation is the result of the fallback, and on the events in the
    domain of the templates -- those of the seven types whose formatted
    fields are numbers, and every event of an unknown type -- it returns,
    well formed, with exactly the four fields. *)
Theorem explanation_falls_back (B : backend) (event : dict) (w : world) :
  unavailable B event w →
  in_domain event = true →
  falls_back B event w
  ∧ (∀ B' w', use_ai_analysis (settings B') = true →
       py_truthy (fst (explainer._call_ollama_ai B' event w')) = true →
       explainer.explain_event B' event w' = Ok (explainer._call_ollama_ai B' event w')).
Proof.
  intros Hun Hdom. split.
  - destruct (explain_event_unavailable B event w Hun) as (w' & Hw).
    destruct (fallback_total event Hdom) as (r & Hr & Hwf).
    exists r, w'. rewrite Hw, Hr. repeat split. exact Hwf.
  - intros B' w' Hai Htruthy. unfold explainer.explain_event. rewrite Hai.
    destruct (explainer._call_ollama_ai B' event w') as [ ai_result w'' ].
    simpl in Htruthy. rewrite Htruthy. reflexivity.
Qed.

(** C2 as stated fails twice: an answer that is valid JSON but lacks three
    of the four fields is returned as it is, not replaced by the fallback;
    and with the primary unavailable, the fallback raises on a resource
    snapshot that has no available memory. *)
Lemma explanation_not_always_well_formed :
  explainer.explain_event terse sample_slow_query start
  = Ok (VDict [ ("summary", VStr "Slow query") ], {| ticks := 0; posts := 1 |})
  ∧ explainer.explain_event offline partial_cpu_memory start = Raise TypeError.
Proof. split; reflexivity. Qed.

Lemma explanation_falls_back_witness :
  Forall (fun event =>
            unavailable offline event start
            ∧ in_domain event = true
            ∧ falls_back offline event start) samples.
Proof.
  assert (H : ∀ event, in_domain event = true →
            unavailable offline event start
            ∧ in_domain event = true
            ∧ falls_back offline event start).
  { intros event Hd.
    assert (Hu : unavailable offline event start) by (right; left; reflexivity).
    split; [ exact Hu | ]. split; [ exact Hd | ].
    exact (proj1 (explanation_falls_back offline event start Hu Hd)). }
  unfold samples.
  repeat (constructor; [ apply H; reflexivity | ]).
  constructor.
Defined.

Lemma exceeds_int (n k : Z) : exceeds (NInt n) k = (k <? n).
Proof.
  unfold exceeds, num_compare, xreal_compare, xreal_of_num, dyadic_compare.
  simpl. rewrite !Z.mul_1_r.
  destruct (Z.compare_spec n k); destruct (Z.ltb_spec k n); try reflexivity; lia.
Qed.

Lemma order_numbers (op : ordop) (v w : value) (a b : num) :
  num_of v = Some a → num_of w = Some b →
  py_order op v w
  = Ok (match num_compare a b with Some c => holds op c | None => false end).
Proof.
  destruct v; try discriminate; destruct w; try discriminate;
    intros [= <-] [= <-]; reflexivity.
Qed.

Lemma gt_number (v : value) (a : num) (k : Z) :
  num_of v = Some a → py_gt v (VInt k) = Ok (exceeds a k).
Proof.
  intros H. unfold py_gt, exceeds.
  rewrite (order_numbers OpGt v (VInt k) a (NInt k) H eq_refl).
  destruct (num_compare a (NInt k)) as [ [ | | ] | ]; reflexivity.
Qed.

(** C9, as the code has it: the summary of a slow query gives the average
    duration in seconds when it is strictly above 1000 ms, the quotient by
    1000 with one decimal, and in milliseconds otherwise, with no decimal;
    for an [int] the first case is [1000 < n]. *)
Theorem slow_query_unit (event p : dict) (a : num) :
  dict_get_or "event_type" (VStr "unknown") event = VStr "slow_queries" →
  dict_get_or "payload" (VDict []) event = VDict p →
  num_of (dict_get_or "avg_elapsed_time_ms" (VInt 0) p) = Some a →
  in_domain event = true →
  (if exceeds a 1000 then
     ∃ q, num_truediv a (NInt 1000) = Ok q
          ∧ summary_of (explainer._get_fallback_explanation event)
            = Some (VStr ("🐢 Slow query taking " +:+ (format_f false 1 q +:+ " seconds")
                          +:+ " on average"))
   else
     ∃ x, float_of_num a = Ok x
          ∧ summary_of (explainer._get_fallback_explanation event)
            = Some (VStr ("🐢 Slow query taking "
                          +:+ (format_f false 0 x +:+ " milliseconds")
                          +:+ " on average")))
  ∧ (∀ n, a = NInt n → exceeds a 1000 = (1000 <? n)).
Proof.
  intros Htype Hpayload Ha Hdom.
  split; [ | intros n ->; apply exceeds_int ].
  unfold in_domain in Hdom. rewrite Htype, Hpayload in Hdom. simpl in Hdom.
  apply andb_true_iff in Hdom as (H & Hr). apply andb_true_iff in H as (Hq & Hm).
  destruct (sliceable_slice 200 _ Hq) as (query_text & Hslice).
  destruct (moderate_format true 0 _ Hr) as (reads & Hreads).
  destruct (exceeds a 1000) eqn:E.
  - destruct (moderate_truediv _ 1000 Hm (or_introl eq_refl)) as (q & Hdiv).
    exists q. split.
    { unfold py_truediv in Hdiv. rewrite Ha in Hdiv. simpl in Hdiv.
      destruct (num_truediv a (NInt 1000)) as [ q' | ]; [ | discriminate Hdiv ].
      simpl in Hdiv. congruence. }
    unfold explainer._get_fallback_explanation. rewrite Htype, Hpayload.
    simpl py_eq. cbv iota.
    simpl py_get_or. simpl py_get. cbv beta iota.
    repeat (simpl bind at 1).
    rewrite Hslice. repeat (simpl bind at 1).
    rewrite (gt_number _ a 1000 Ha), E. simpl bind at 1.
    rewrite Hdiv. repeat (simpl bind at 1). rewrite Hreads.
    reflexivity.
  - destruct (moderate_number _ Hm) as (a' & x & Ha' & Hx).
    assert (a' = a) by congruence. subst a'.
    assert (Hf : py_format_f false 0 (dict_get_or "avg_elapsed_time_ms" (VInt 0) p)
                 = Ok (format_f false 0 x)).
    { unfold py_format_f. rewrite Ha, Hx.
      destruct (dict_get_or _ _ p); try discriminate Ha; reflexivity. }
    exists x. split; [ exact Hx | ].
    unfold explainer._get_fallback_explanation. rewrite Htype, Hpayload.
    simpl py_eq. cbv iota.
    simpl py_get_or. simpl py_get. cbv beta iota.
    repeat (simpl bind at 1).
    rewrite Hslice. repeat (simpl bind at 1).
    rewrite (gt_number _ a 1000 Ha), E. simpl bind at 1.
    rewrite Hf. repeat (simpl bind at 1). rewrite Hreads.
    reflexivity.
Qed.

Lemma slow_query_unit_witness :
  dict_get_or "event_type" (VStr "unknown") sample_slow_query = VStr "slow_queries"
  ∧ dict_get_or "payload" (VDict []) sample_slow_query
    = VDict [ ("avg_elapsed_time_ms", VInt 15000);
              ("execution_count", VInt 50);
              ("query_text", VStr "SELECT * FROM Orders WHERE Status = @status");
              ("avg_logical_reads", VInt 25000);
              ("avg_cpu_time_ms", VInt 12000) ]
  ∧ num_of (VInt 15000) = Some (NInt 15000)
  ∧ in_domain sample_slow_query = true
  ∧ exceeds (NInt 15000) 1000 = true
  ∧ summary_of (explainer._get_fallback_explanation sample_slow_query)
    = Some (VStr "🐢 Slow query taking 15.0 seconds on average").
Proof.
  split; [ reflexivity | ]. split; [ reflexivity | ]. split; [ reflexivity | ].
  split; [ reflexivity | ]. split; [ reflexivity | ].
  pose proof (slow_query_unit sample_slow_query _ (NInt 15000)
                eq_refl eq_refl eq_refl eq_refl) as [ H _ ].
  change (exceeds (NInt 15000) 1000) with true in H.
  destruct H as (q & Hq & Hs). rewrite Hs.
  vm_compute in Hq. injection Hq as <-. reflexivity.
Defined.

(** C9 as stated fails at exactly 1000 ms: the summary is in
    milliseconds. *)
Lemma thousand_ms_in_milliseconds :
  summary_of (explainer._get_fallback_explanation (slow_event (VInt 1000)))
  = Some (VStr "🐢 Slow query taking 1000 milliseconds on average").
Proof. reflexivity. Qed.

(** ** dashboard.py: the key of a stored document *)

(** C3 fails on the code: for the document [{session_id: 5, query_text:
    "SELECT 1"}] the key [_get_latest_collection] stores is the integer
    [5], which is not the string ["5"] and is not equal to it, while
    [_calculate_delta] keys the current items by [str(...)], here ["5"].
    The order of the chain is as claimed: [session_id] first, then the
    first 100 characters of [query_text], then [deadlock_id], else
    nothing. *)
Theorem session_key_not_stringified :
  dashboard.source_key (VDict keyed_source) = Ok (VInt 5)
  ∧ dashboard._get_latest_collection [keyed_hit] = Ok [ (VInt 5, VDict keyed_source) ]
  ∧ VInt 5 ≠ VStr "5"
  ∧ py_eq (VInt 5) (VStr "5") = false
  ∧ dashboard.key_of "session_id" keyed_source = "5"
  ∧ (∀ d v, dict_lookup "session_id" d = Some v →
        dashboard.source_key (VDict d) = Ok v)
  ∧ (∀ d text, dict_lookup "session_id" d = None →
        dict_lookup "query_text" d = Some (VStr text) →
        dashboard.source_key (VDict d) = Ok (VStr (utf8_take 100 text)))
  ∧ (∀ d v, dict_lookup "session_id" d = None →
        dict_lookup "query_text" d = None →
        dict_lookup "deadlock_id" d = Some v →
        dashboard.source_key (VDict d) = Ok v)
  ∧ (∀ d, dict_lookup "session_id" d = None →
        dict_lookup "query_text" d = None →
        dict_lookup "deadlock_id" d = None →
        dashboard.source_key (VDict d) = Ok VNone).
Proof.
  repeat split; try reflexivity; try discriminate.
  - intros d v H. unfold dashboard.source_key. simpl.
    unfold dict_has, dict_get. rewrite H. reflexivity.
  - intros d text H1 H2. unfold dashboard.source_key. simpl.
    unfold dict_has, dict_get_or. rewrite H1, H2. reflexivity.
  - intros d v H1 H2 H3. unfold dashboard.source_key. simpl.
    unfold dict_has, dict_get. rewrite H1, H2, H3. reflexivity.
  - intros d H1 H2 H3. unfold dashboard.source_key. simpl.
    unfold dict_has. rewrite H1, H2, H3. reflexivity.
Qed.

(** ** collector.py: mock collection *)

Lemma dict_lookup_set (k k' : string) (v : value) (d : dict) :
  dict_lookup k' (dict_set k v d)
  = if String.eqb k' k then Some v else dict_lookup k' d.
Proof.
  induction d as [ | [ k0 v0 ] d IH ]; simpl.
  - destruct (String.eqb k' k); reflexivity.
  - destruct (String.eqb_spec k k0) as [ <- | Hne ]; simpl.
    + destruct (String.eqb k' k); reflexivity.
    + rewrite IH. destruct (String.eqb_spec k' k0) as [ -> | Hne' ]; [ | reflexivity ].
      destruct (String.eqb_spec k0 k) as [ -> | _ ]; [ contradiction | reflexivity ].
Qed.

Lemma dict_lookup_setdefault (k k' : string) (v : value) (d : dict) :
  dict_lookup k' (dict_setdefault k v d)
  = if String.eqb k' k
    then Some (match dict_lookup k d with Some w => w | None => v end)
    else dict_lookup k' d.
Proof.
  unfold dict_setdefault, dict_has.
  destruct (dict_lookup k d) as [ w | ] eqn:E.
  - destruct (String.eqb_spec k' k) as [ -> | _ ]; [ exact E | reflexivity ].
  - apply dict_lookup_set.
Qed.

Lemma enrich_step (B : backend) (now : string) (event : nat) (rest enriched : list nat)
    (s : collector.store) (d : dict) :
  collector.objects s !! event = Some d →
  collector.enrich B now (event :: rest) enriched s
  = collector.enrich B now rest (enriched ++ [length (collector.objects s)])
      {| collector.objects := collector.objects s ++ [enriched_dict B now d];
         collector.readings := collector.readings s |}.
Proof.
  intros H. destruct s as [ objs n ]. simpl in *.
  unfold collector.bindC at 1. unfold collector.copy. simpl. rewrite H.
  unfold collector.bindC at 1. unfold collector.setitem. simpl.
  rewrite list_lookup_middle by reflexivity.
  unfold collector.bindC at 1. unfold collector.setdefault at 1. simpl.
  rewrite list_lookup_insert_eq by (rewrite length_app; simpl; lia).
  unfold collector.bindC at 1. unfold collector.setdefault at 1. simpl.
  rewrite list_lookup_insert_eq
    by (rewrite length_insert, length_app; simpl; lia).
  rewrite !list_insert_insert_eq.
  rewrite insert_app_r_alt by lia. rewrite Nat.sub_diag. reflexivity.
Qed.

(** The loop allocates one copy per event, after the objects that exist,
    and leaves these as they are. *)
Lemma enrich_spec (B : backend) (now : string) (base : list dict) (events : list nat) :
  Forall (fun l => l < length base)%nat events →
  ∃ ds,
    Forall2 (fun l d => base !! l = Some d) events ds
    ∧ ∀ (enriched : list nat) (extra : list dict) (n : nat),
        collector.enrich B now events enriched
          {| collector.objects := base ++ extra; collector.readings := n |}
        = Some (enriched ++ seq (length (base ++ extra)) (length events),
                {| collector.objects :=
                     (base ++ extra) ++ List.map (enriched_dict B now) ds;
                   collector.readings := n |}).
Proof.
  induction events as [ | event rest IH ]; intros Hall.
  - exists []. split; [ constructor | ]. intros enriched extra n. simpl.
    unfold collector.retC. rewrite !app_nil_r. reflexivity.
  - inversion Hall as [ | ? ? Hlt Hrest ]; subst.
    destruct (lookup_lt_is_Some_2 _ _ Hlt) as (d & Hd).
    destruct (IH Hrest) as (ds & Hds & Hrun).
    exists (d :: ds). split; [ constructor; assumption | ].
    intros enriched extra n.
    rewrite (enrich_step B now event rest enriched _ d)
      by (simpl; apply lookup_app_l_Some; exact Hd).
    simpl collector.objects. simpl collector.readings.
    rewrite <- (app_assoc base extra). rewrite Hrun.
    rewrite !length_app. simpl.
    rewrite <- !app_assoc. simpl.
    replace (length base + (length extra + 1))%nat
      with (S (length base + length extra)) by lia.
    reflexivity.
Qed.

Lemma enriched_dict_fields (B : backend) (now : string) (d : dict) :
  dict_lookup "@timestamp" (enriched_dict B now d) = Some (VStr now)
  ∧ dict_lookup "host" (enriched_dict B now d)
    = Some (match dict_lookup "host" d with
            | Some v => v
            | None => VStr (host_name (settings B))
            end)
  ∧ dict_lookup "sql_instance" (enriched_dict B now d)
    = Some (match dict_lookup "sql_instance" d with
            | Some v => v
            | None => VStr (sql_instance (settings B))
            end)
  ∧ ∀ k, k ≠ "@timestamp" → k ≠ "host" → k ≠ "sql_instance" →
         dict_lookup k (enriched_dict B now d) = dict_lookup k d.
Proof.
  unfold enriched_dict. repeat split.
  - rewrite !dict_lookup_setdefault, !dict_lookup_set. simpl. reflexivity.
  - rewrite !dict_lookup_setdefault, !dict_lookup_set. simpl. reflexivity.
  - rewrite !dict_lookup_setdefault, !dict_lookup_set. simpl. reflexivity.
  - intros k H1 H2 H3.
    rewrite !dict_lookup_setdefault, !dict_lookup_set.
    destruct (String.eqb_spec k "sql_instance"); [ contradiction | ].
    destruct (String.eqb_spec k "host"); [ contradiction | ].
    destruct (String.eqb_spec k "@timestamp"); [ contradiction | ].
    reflexivity.
Qed.

Lemma copies_after (f : dict → dict) (objs : list dict) (events : list nat)
    (ds : list dict) :
  Forall2 (fun l d => objs !! l = Some d) events ds →
  ∀ pre : list dict,
    Forall2 (fun l c =>
               (length objs ≤ c)%nat
               ∧ ∃ d, objs !! l = Some d
                      ∧ (objs ++ pre ++ List.map f ds) !! c = Some (f d))
      events (seq (length objs + length pre) (length events)).
Proof.
  induction 1 as [ | l d events ds Hl Hrest IH ]; intros pre; [ constructor | ].
  simpl. constructor.
  - split; [ lia | ]. exists d. split; [ exact Hl | ].
    rewrite lookup_app_r by lia. rewrite lookup_app_r by lia.
    replace (length objs + length pre - length objs - length pre)%nat with 0%nat by lia.
    reflexivity.
  - specialize (IH (pre ++ [f d])). rewrite length_app in IH. simpl in IH.
    replace (length objs + (length pre + 1))%nat
      with (S (length objs + length pre)) in IH by lia.
    rewrite <- app_assoc in IH. exact IH.
Qed.

(** C6, as the code has it: [collect_mock] returns a new copy of every
    sample event and leaves the events it was given as they are; a copy
    keeps the host and the instance of the event where it has them and
    takes the ambient ones where it has not, and keeps every other field;
    its timestamp is the one reading of the clock made for the batch,
    whether or not the event had a timestamp. *)
Theorem mock_collection (B : backend) (sample_events : list nat) (s : collector.store) :
  Forall (fun l => l < length (collector.objects s))%nat sample_events →
  ∃ enriched s',
    collector.collect_mock B sample_events s = Some (enriched, s')
    ∧ (∀ l d, collector.objects s !! l = Some d → collector.objects s' !! l = Some d)
    ∧ Forall2 (enriched_copy B s s') sample_events enriched.
Proof.
  intros Hall. destruct s as [ objs n ]. simpl in Hall.
  set (now := clock_at B n).
  destruct (enrich_spec B now objs sample_events Hall) as (ds & Hds & Hrun).
  specialize (Hrun [] [] (S n)). rewrite app_nil_r in Hrun.
  eexists _, _. split; [ | split ].
  - unfold collector.collect_mock, collector.bindC, collector._now_iso. simpl.
    fold now. exact Hrun.
  - simpl. intros l d Hl. apply lookup_app_l_Some. exact Hl.
  - simpl.
    pose proof (copies_after (enriched_dict B now) objs sample_events ds Hds []) as Hc.
    simpl in Hc. rewrite Nat.add_0_r in Hc.
    eapply Forall2_impl; [ exact Hc | ].
    intros l c (Hge & d & Hl & He). unfold enriched_copy. simpl.
    split; [ exact Hge | ]. exists d, (enriched_dict B now d).
    destruct (enriched_dict_fields B now d) as (H1 & H2 & H3 & H4).
    repeat split; assumption.
Qed.

Lemma mock_collection_witness :
  Forall (fun l => l < length (collector.objects replay_store))%nat [0%nat]
  ∧ ∃ enriched s',
      collector.collect_mock offline [0%nat] replay_store = Some (enriched, s')
      ∧ (∀ l d, collector.objects replay_store !! l = Some d →
                collector.objects s' !! l = Some d)
      ∧ Forall2 (enriched_copy offline replay_store s') [0%nat] enriched.
Proof.
  assert (H : Forall (fun l => l < length (collector.objects replay_store))%nat [0%nat])
    by (repeat constructor).
  split; [ exact H | ].
  exact (mock_collection offline [0%nat] replay_store H).
Defined.

(** C6 as stated fails for the timestamp: a replayed record that carries
    its own timestamp comes out with the time of the collection, while its
    host and instance are kept and the record itself is unchanged. *)
Lemma replayed_timestamp_overwritten :
  collector.collect_mock offline [0%nat] replay_store
  = Some ([1%nat],
          {| collector.objects :=
               [ replayed;
                 [ ("@timestamp", VStr "2026-02-01T12:00:00+00:00");
                   ("event_type", VStr "blocking");
                   ("host", VStr "db-prod-01");
                   ("sql_instance", VStr "MSSQL01");
                   ("payload", VDict [ ("wait_time_ms", VInt 500) ]) ] ];
             collector.readings := 1 |})
  ∧ dict_lookup "@timestamp" replayed = Some (VStr "2025-12-24T08:30:00Z")
  ∧ VStr "2025-12-24T08:30:00Z" ≠ VStr "2026-02-01T12:00:00+00:00".
Proof. repeat split. discriminate. Qed.

(** ** dashboard.py: the delta *)

Lemma by_key_snoc (key_field : string) (items : list dict) (item : dict) :
  dashboard.by_key key_field (items ++ [item])
  = <[dashboard.key_of key_field item := item]> (dashboard.by_key key_field items).
Proof. unfold dashboard.by_key. rewrite foldl_snoc. reflexivity. Qed.

(** The comprehension keeps, for each key, the last item that has it. *)
Lemma by_key_lookup (key_field : string) (items : list dict) (k : string) :
  dashboard.by_key key_field items !! k = latest key_field k items.
Proof.
  induction items as [ | item items IH ] using rev_ind; [ reflexivity | ].
  rewrite by_key_snoc. unfold latest. rewrite filter_app.
  destruct (decide (dashboard.key_of key_field item = k)) as [ E | E ].
  - rewrite filter_cons_True by exact E. rewrite filter_nil.
    rewrite last_snoc. rewrite E. apply lookup_insert_eq.
  - rewrite filter_cons_False by exact E. rewrite filter_nil, app_nil_r.
    rewrite lookup_insert_ne by exact E. exact IH.
Qed.

Lemma by_key_dom (key_field : string) (items : list dict) :
  dom (dashboard.by_key key_field items) = keys_of key_field items.
Proof.
  unfold keys_of.
  induction items as [ | item items IH ] using rev_ind; [ apply dom_empty_L | ].
  rewrite by_key_snoc, dom_insert_L, IH, fmap_app, list_to_set_app_L. simpl.
  rewrite union_empty_r_L. apply (comm_L (∪)).
Qed.

Lemma latest_in (key_field k : string) (items : list dict) (item : dict) :
  latest key_field k items = Some item →
  item ∈ items ∧ dashboard.key_of key_field item = k.
Proof.
  unfold latest. intros H. apply last_Some_elem_of in H.
  apply list_elem_of_filter in H. tauto.
Qed.

Lemma mapM_item_at (m : gmap string dict) (ks : list string) :
  (∀ k, k ∈ ks → is_Some (m !! k)) →
  ∃ l, mapM (fun k => dashboard.item_at k m) ks = Ok l
       ∧ Forall2 (fun k item => m !! k = Some item) ks l.
Proof.
  induction ks as [ | k ks IH ]; intros H.
  - exists []. split; [ reflexivity | constructor ].
  - destruct (H k (list_elem_of_here _ _)) as (item & Hk).
    destruct IH as (l & Hl & Hall).
    { intros k' Hk'. apply H. apply list_elem_of_further. exact Hk'. }
    exists (item :: l). split.
    + simpl. unfold dashboard.item_at at 1. rewrite Hk. simpl. rewrite Hl. reflexivity.
    + constructor; assumption.
Qed.

Lemma fields_loop (current previous : dict) (fields : list string) :
  ∀ acc, dashboard.fold_result (dashboard.field_step current previous) fields acc
         = Ok (acc ++ changes_in fields current previous).
Proof.
  induction fields as [ | field fields IH ]; intros acc; simpl.
  - rewrite app_nil_r. reflexivity.
  - unfold dashboard.field_step at 1. unfold dict_has, dict_item.
    destruct (dict_lookup field current) as [ c | ]; simpl;
      [ | rewrite IH; reflexivity ].
    destruct (dict_lookup field previous) as [ p | ]; simpl;
      [ | rewrite IH; reflexivity ].
    destruct (py_ne c p); simpl; rewrite IH.
    + rewrite <- app_assoc. reflexivity.
    + reflexivity.
Qed.

Lemma key_step_spec (current_by_key previous_items : gmap string dict)
    (acc : list dict) (k : string) (c p : dict) :
  current_by_key !! k = Some c → previous_items !! k = Some p →
  dashboard.key_step current_by_key previous_items acc k
  = Ok (acc ++ changed_entry c p).
Proof.
  intros Hc Hp. unfold dashboard.key_step, dashboard.item_at. simpl py_str.
  rewrite Hc, Hp. cbn [bind]. rewrite fields_loop. cbn [bind app].
  unfold changed_entry, changes.
  destruct (changes_in dashboard.sensitive_fields c p); cbn [py_truthy].
  - rewrite app_nil_r. reflexivity.
  - reflexivity.
Qed.

Lemma keys_loop (current_by_key previous_items : gmap string dict) (ks : list string) :
  (∀ k, k ∈ ks → is_Some (current_by_key !! k) ∧ is_Some (previous_items !! k)) →
  ∀ acc,
  ∃ added,
    dashboard.fold_result (dashboard.key_step current_by_key previous_items) ks acc
    = Ok (acc ++ added)
    ∧ Forall2 (fun k entry =>
                 ∃ c p, current_by_key !! k = Some c ∧ previous_items !! k = Some p
                        ∧ changes c p ≠ []
                        ∧ entry = dict_set "changed_fields" (VList (changes c p)) c)
        (filter (fun k => is_changed current_by_key previous_items k = true) ks) added.
Proof.
  induction ks as [ | k ks IH ]; intros H acc.
  - exists []. rewrite app_nil_r. split; [ reflexivity | constructor ].
  - destruct (H k (list_elem_of_here _ _)) as ((c & Hc) & (p & Hp)).
    cbn [dashboard.fold_result]. rewrite (key_step_spec _ _ acc k c p Hc Hp). cbn [bind].
    destruct (IH (fun k' Hk' => H k' (list_elem_of_further _ _ _ Hk'))
                (acc ++ changed_entry c p)) as (added & Hrun & Hall).
    exists (changed_entry c p ++ added). split.
    + rewrite Hrun, app_assoc. reflexivity.
    + unfold changed_entry in *.
      destruct (changes c p) as [ | x recorded ] eqn:E.
      * rewrite filter_cons_False; [ exact Hall | ].
        unfold is_changed. rewrite Hc, Hp, E. discriminate.
      * rewrite filter_cons_True
          by (unfold is_changed; rewrite Hc, Hp, E; reflexivity).
        simpl. constructor; [ | exact Hall ].
        exists c, p. rewrite E. repeat split; try assumption. discriminate.
Qed.

Lemma Forall2_and_l {A B} (R : A → B → Prop) (Q : A → Prop) (l : list A) (k : list B) :
  Forall2 R l k → Forall Q l → Forall2 (fun a b => Q a ∧ R a b) l k.
Proof.
  induction 1 as [ | a b l k Hab Hrest IH ]; intros HQ; [ constructor | ].
  inversion HQ; subst. constructor; [ split; assumption | apply IH; assumption ].
Qed.

(** What [_calculate_delta] returns, set by set. *)
Lemma delta_spec (current : list dict) (previous : gmap string dict)
    (key_field : string) :
  ∃ d,
    dashboard._calculate_delta current previous key_field = Ok d
    ∧ dashboard.all d = current
    ∧ Forall2 (fun k item => latest key_field k current = Some item)
        (elements (keys_of key_field current ∖ dom previous)) (dashboard.new d)
    ∧ Forall2 (changed_item key_field current previous)
        (filter (fun k => is_changed (dashboard.by_key key_field current) previous k = true)
           (elements (keys_of key_field current ∩ dom previous)))
        (dashboard.changed d)
    ∧ Forall2 (fun k item => previous !! k = Some item)
        (elements (dom previous ∖ keys_of key_field current)) (dashboard.resolved d).
Proof.
  unfold dashboard._calculate_delta. cbv zeta. rewrite by_key_dom.
  set (cbk := dashboard.by_key key_field current).
  set (K := keys_of key_field current).
  assert (HK : ∀ k, k ∈ K → is_Some (cbk !! k)).
  { intros k Hk. apply elem_of_dom. unfold cbk. rewrite by_key_dom. exact Hk. }
  destruct (mapM_item_at cbk (elements (K ∖ dom previous))) as (new & Hnew & Hnew').
  { intros k Hk. apply elem_of_elements, elem_of_difference in Hk as (Hk & _).
    apply HK. exact Hk. }
  destruct (keys_loop cbk previous (elements (K ∩ dom previous))) with (acc := @nil dict)
    as (changed & Hchanged & Hchanged').
  { intros k Hk. apply elem_of_elements, elem_of_intersection in Hk as (Hk & Hp).
    split; [ apply HK; exact Hk | apply elem_of_dom; exact Hp ]. }
  destruct (mapM_item_at previous (elements (dom previous ∖ K)))
    as (resolved & Hresolved & Hresolved').
  { intros k Hk. apply elem_of_elements, elem_of_difference in Hk as (Hk & _).
    apply elem_of_dom. exact Hk. }
  rewrite Hnew. cbn [bind]. rewrite Hchanged. cbn [bind]. rewrite Hresolved. cbn [bind].
  eexists. split; [ reflexivity | ]. simpl.
  split; [ reflexivity | ]. split; [ | split ].
  - eapply Forall2_impl; [ exact Hnew' | ].
    intros k item H. unfold cbk in H. rewrite by_key_lookup in H. exact H.
  - eapply Forall2_impl; [ exact Hchanged' | ].
    intros k entry (c & p & Hc & Hp & Hne & ->).
    unfold cbk in Hc. rewrite by_key_lookup in Hc.
    exists c, p. repeat split; assumption.
  - exact Hresolved'.
Qed.

(** C1, as the code has it: the delta always returns; the keys of the
    current batch fall, each exactly once, into new (absent from the
    previous snapshot), changed and unchanged; new holds one item for each
    new key and changed one entry for each changed key, in both cases for
    the last event of the batch that has the key; the unchanged keys are
    not listed; resolved holds one item for each key of
    [previous.keys - current.keys]; and the whole batch is returned under
    [all]. *)
Theorem delta_partitions_keys (current : list dict) (previous : gmap string dict)
    (key_field : string) :
  ∃ d new_keys changed_keys unchanged_keys resolved_keys,
    dashboard._calculate_delta current previous key_field = Ok d
    ∧ dashboard.all d = current
    ∧ new_keys ++ changed_keys ++ unchanged_keys
      ≡ₚ elements (keys_of key_field current)
    ∧ Forall2 (new_item key_field current previous) new_keys (dashboard.new d)
    ∧ Forall2 (changed_item key_field current previous) changed_keys
        (dashboard.changed d)
    ∧ Forall (unchanged_key key_field current previous) unchanged_keys
    ∧ resolved_keys ≡ₚ elements (dom previous ∖ keys_of key_field current)
    ∧ Forall2 (fun k item => previous !! k = Some item) resolved_keys
        (dashboard.resolved d)
    ∧ Forall (fun item => dashboard.key_of key_field item ∈ keys_of key_field current)
        current.
Proof.
  destruct (delta_spec current previous key_field)
    as (d & Hd & Hall & Hnew & Hchanged & Hresolved).
  set (K := keys_of key_field current) in *.
  set (cbk := dashboard.by_key key_field current) in *.
  exists d, (elements (K ∖ dom previous)),
    (filter (fun k => is_changed cbk previous k = true) (elements (K ∩ dom previous))),
    (filter (fun k => ¬ is_changed cbk previous k = true) (elements (K ∩ dom previous))),
    (elements (dom previous ∖ K)).
  split; [ exact Hd | ]. split; [ exact Hall | ].
  split; [ | split; [ | split; [ exact Hchanged | split; [ | split; [ reflexivity | split ] ] ] ] ].
  - rewrite filter_app_complement.
    rewrite <- elements_disj_union.
    + rewrite difference_union_intersection_L. reflexivity.
    + apply elem_of_disjoint. intros k H1 H2.
      apply elem_of_difference in H1 as (_ & H1).
      apply elem_of_intersection in H2 as (_ & H2). contradiction.
  - apply Forall2_and_l; [ exact Hnew | ].
    apply Forall_forall. intros k Hk.
    apply elem_of_elements, elem_of_difference in Hk as (_ & Hk). exact Hk.
  - apply Forall_forall. intros k Hk.
    apply list_elem_of_filter in Hk as (Hunch & Hk).
    apply elem_of_elements, elem_of_intersection in Hk as (Hk & Hp).
    apply elem_of_dom in Hp as (p & Hp).
    assert (Hc : is_Some (cbk !! k)).
    { apply elem_of_dom. unfold cbk. rewrite by_key_dom. exact Hk. }
    destruct Hc as (c & Hc).
    exists c, p. split; [ | split; [ exact Hp | ] ].
    + unfold cbk in Hc. rewrite by_key_lookup in Hc. exact Hc.
    + unfold is_changed in Hunch. rewrite Hc, Hp in Hunch.
      destruct (changes c p); [ reflexivity | exfalso; apply Hunch; reflexivity ].
  - exact Hresolved.
  - apply Forall_forall. intros item Hitem. unfold K, keys_of.
    apply elem_of_list_to_set, list_elem_of_fmap. exists item.
    split; [ reflexivity | exact Hitem ].
Qed.

(** C1 as stated fails: of two events of the batch that have the same
    key, here two sessions blocked by session 10, only the last is
    classified; the first is in none of the classes. *)
Lemma same_key_event_dropped :
  dashboard._calculate_delta [first_victim; second_victim] ∅ "blocking_session_id"
  = Ok {| dashboard.new := [second_victim];
          dashboard.changed := [];
          dashboard.resolved := [];
          dashboard.all := [first_victim; second_victim] |}
  ∧ first_victim ∉ [second_victim].
Proof.
  split; [ reflexivity | ].
  intros H. apply list_elem_of_singleton in H. discriminate H.
Qed.

Lemma Forall2_functional_perm {A B} (R : A → B → Prop) (ks ks' : list A)
    (l l' : list B) :
  (∀ a b b', R a b → R a b' → b = b') →
  ks ≡ₚ ks' → Forall2 R ks l → Forall2 R ks' l' → l ≡ₚ l'.
Proof.
  intros Hfun Hperm Hl Hl'.
  destruct (Permutation_Forall2 Hperm Hl) as (l2 & Hl2 & Hall).
  rewrite Hl2. replace l2 with l'; [ reflexivity | ].
  eapply Forall2_unique; [ exact Hl' | exact Hall | ].
  intros a b b' H1 H2. exact (Hfun a b b' H1 H2).
Qed.

Lemma filter_none {A} (P : A → Prop) `{∀ x, Decision (P x)} (l : list A) :
  (∀ x, x ∈ l → ¬ P x) → filter P l = [].
Proof.
  induction l as [ | x l IH ]; intros Hl; [ reflexivity | ].
  rewrite filter_cons_False by (apply Hl; apply list_elem_of_here).
  apply IH. intros y Hy. apply Hl. apply list_elem_of_further. exact Hy.
Qed.

(** In a batch of distinct keys every item is the last one of its key. *)
Lemma latest_distinct (key_field : string) (items : list dict) :
  NoDup (dashboard.key_of key_field <$> items) →
  Forall (fun item =>
            latest key_field (dashboard.key_of key_field item) items = Some item) items.
Proof.
  induction items as [ | x items IH ]; intros Hnd; [ constructor | ].
  rewrite fmap_cons in Hnd. apply NoDup_cons in Hnd as (Hx & Hnd).
  assert (Hnone : filter (fun item => dashboard.key_of key_field item
                                      = dashboard.key_of key_field x) items = []).
  { apply filter_none. intros y Hy E. apply Hx.
    rewrite <- E. apply list_elem_of_fmap. exists y. split; [ reflexivity | exact Hy ]. }
  constructor.
  - unfold latest. rewrite filter_cons_True by reflexivity. rewrite Hnone. reflexivity.
  - specialize (IH Hnd). rewrite Forall_forall in IH. apply Forall_forall.
    intros y Hy. unfold latest. rewrite filter_cons_False.
    + apply IH. exact Hy.
    + intros E. apply Hx. rewrite E.
      apply list_elem_of_fmap. exists y. split; [ reflexivity | exact Hy ].
Qed.

(** C8, as the code has it: against an empty previous snapshot nothing is
    changed or resolved, and new holds, for each key of the batch, the last
    event that has it -- the whole batch, in some order, when the keys of
    the batch are distinct; an empty batch against any previous snapshot
    has nothing new or changed, so nothing to show, and one resolved item
    for each key of the snapshot. *)
Theorem delta_against_empty (X : list dict) (previous : gmap string dict)
    (key_field : string) :
  (∃ d, dashboard._calculate_delta X ∅ key_field = Ok d
        ∧ dashboard.changed d = []
        ∧ dashboard.resolved d = []
        ∧ dashboard.all d = X
        ∧ Forall2 (fun k item => latest key_field k X = Some item)
            (elements (keys_of key_field X)) (dashboard.new d)
        ∧ (NoDup (dashboard.key_of key_field <$> X) → dashboard.new d ≡ₚ X))
  ∧ (∃ d, dashboard._calculate_delta [] previous key_field = Ok d
          ∧ dashboard.new d = []
          ∧ dashboard.changed d = []
          ∧ dashboard.new d ++ dashboard.changed d = []
          ∧ Forall2 (fun k item => previous !! k = Some item)
              (elements (dom previous)) (dashboard.resolved d)
          ∧ length (dashboard.resolved d) = size previous).
Proof.
  split.
  - destruct (delta_spec X ∅ key_field) as (d & Hd & Hall & Hnew & Hchanged & Hresolved).
    rewrite dom_empty_L in Hnew, Hchanged, Hresolved.
    rewrite difference_empty_L in Hnew.
    rewrite intersection_empty_r_L, elements_empty, filter_nil in Hchanged.
    rewrite empty_difference_L, elements_empty in Hresolved.
    apply Forall2_nil_inv_l in Hchanged, Hresolved.
    exists d. repeat (split; [ assumption | ]).
    intros Hnd.
    apply (Forall2_functional_perm
             (fun k item => latest key_field k X = Some item)
             (elements (keys_of key_field X)) (dashboard.key_of key_field <$> X)).
    + intros k a b Ha Hb. congruence.
    + unfold keys_of. apply elements_list_to_set. exact Hnd.
    + exact Hnew.
    + apply Forall2_fmap_l. apply Forall_Forall2_diag.
      apply latest_distinct. exact Hnd.
  - destruct (delta_spec [] previous key_field)
      as (d & Hd & Hall & Hnew & Hchanged & Hresolved).
    change (keys_of key_field []) with (∅ : gset string) in *.
    rewrite empty_difference_L, elements_empty in Hnew.
    rewrite intersection_empty_l_L, elements_empty, filter_nil in Hchanged.
    rewrite difference_empty_L in Hresolved.
    apply Forall2_nil_inv_l in Hnew, Hchanged.
    exists d. repeat (split; [ assumption | ]).
    split; [ rewrite Hnew, Hchanged; reflexivity | ].
    split; [ exact Hresolved | ].
    rewrite <- (Forall2_length _ _ _ Hresolved).
    rewrite <- size_dom. reflexivity.
Qed.

Lemma delta_against_empty_witness :
  NoDup (dashboard.key_of "blocking_session_id" <$> [session_10_now; session_11_now])
  ∧ ∃ d, dashboard._calculate_delta [session_10_now; session_11_now] ∅
           "blocking_session_id" = Ok d
         ∧ dashboard.changed d = []
         ∧ dashboard.resolved d = []
         ∧ dashboard.new d ≡ₚ [session_10_now; session_11_now].
Proof.
  assert (Hnd : NoDup (dashboard.key_of "blocking_session_id"
                         <$> [session_10_now; session_11_now])).
  { apply NoDup_cons. split.
    - intros H. apply list_elem_of_singleton in H. discriminate H.
    - apply NoDup_singleton. }
  split; [ exact Hnd | ].
  destruct (delta_against_empty [session_10_now; session_11_now]
              {[ "10" := session_10_before ]} "blocking_session_id")
    as [ (d & Hd & Hc & Hr & _ & _ & Hperm) _ ].
  exists d. repeat (split; [ assumption | ]). apply Hperm. exact Hnd.
Defined.

(** C8 as stated fails: against an empty previous snapshot, a batch of two
    rows that both lack the key field comes out with one new item, not
    the batch. *)
Lemma keyless_rows_collapse :
  dashboard._calculate_delta [keyless_one; keyless_two] ∅ "blocking_session_id"
  = Ok {| dashboard.new := [keyless_two];
          dashboard.changed := [];
          dashboard.resolved := [];
          dashboard.all := [keyless_one; keyless_two] |}
  ∧ ¬ [keyless_two] ≡ₚ [keyless_one; keyless_two].
Proof.
  split; [ reflexivity | ].
  intros H. apply Permutation_length in H. discriminate H.
Qed.

Lemma changes_in_cons (field : string) (fields : list string) (c p : dict) :
  changes_in (field :: fields) c p = changes_in [field] c p ++ changes_in fields c p.
Proof. unfold changes_in. simpl. rewrite app_nil_r. reflexivity. Qed.

Lemma agree_no_change (field : string) (c p : dict) :
  agree_on field c p → changes_in [field] c p = [].
Proof.
  unfold agree_on, changes_in. simpl.
  destruct (dict_lookup field c); [ | reflexivity ].
  destruct (dict_lookup field p); [ | reflexivity ].
  intros ->. reflexivity.
Qed.


Lemma changes_in_agree (fields : list string) (c p : dict) :
  Forall (fun f => agree_on f c p) fields → changes_in fields c p = [].
Proof.
  induction 1 as [ | f fields Hf Hrest IH ]; [ reflexivity | ].
  rewrite changes_in_cons, (agree_no_change f c p Hf), IH. reflexivity.
Qed.




(** The end-to-end scenario of the specification: session 10 waits longer
    than before and session 11 is new. *)
Example end_to_end_scenario :
  dashboard._calculate_delta [session_10_now; session_11_now]
    {[ "10" := session_10_before ]} "blocking_session_id"
  = Ok {| dashboard.new := [session_11_now];
          dashboard.changed :=
            [ [ ("blocking_session_id", VInt 10); ("wait_time_ms", VInt 9000);
                ("changed_fields",
                 VList [ change "wait_time_ms" (VInt 500) (VInt 9000) ]) ] ];
          dashboard.resolved := [];
          dashboard.all := [session_10_now; session_11_now] |}.
Proof. reflexivity. Qed.

(** ** sample_loader.py: chunks *)

Lemma take_plus {A} (a b : nat) (l : list A) :
  firstn (a + b) l = firstn a l ++ firstn b (skipn a l).
Proof.
  revert l. induction a as [|a IH]; intros l; [reflexivity|].
  destruct l as [|x l]; simpl.
  - destruct b; reflexivity.
  - rewrite IH. reflexivity.
Qed.

Lemma take_chunks {A} (s n : nat) (l : list A) :
  concat (List.map (fun k => firstn s (skipn (k * s) l)) (seq 0 n)) = firstn (n * s) l.
Proof.
  induction n as [|n IH]; [reflexivity|].
  rewrite seq_S, List.map_app, concat_app, IH. simpl.
  rewrite app_nil_r, <- take_plus. f_equal. lia.
Qed.

(** For a positive size the starts are the multiples of the size below
    the length, and the chunk at a start is what is left there, up to the
    size. *)
Lemma chunked_positive {A} (items : list A) (size : Z) :
  0 < size →
  let s := Z.to_nat size in
  let n := Z.to_nat ((Z.of_nat (length items) + size - 1) / size) in
  sample_loader.chunked items size
  = Ok (List.map (fun k => firstn s (skipn (k * s) items)) (seq 0 n))
  ∧ (length items ≤ n * s)%nat
  ∧ (∀ k, S k < n → (S k * s < length items))%nat.
Proof.
  intros Hsize s n.
  assert (Hn : Z.of_nat n = (Z.of_nat (length items) + size - 1) / size).
  { subst n. rewrite Z2Nat.id; [reflexivity|]. apply Z.div_pos; lia. }
  pose proof (Z.div_mod (Z.of_nat (length items) + size - 1) size ltac:(lia)) as Hdiv.
  pose proof (Z.mod_pos_bound (Z.of_nat (length items) + size - 1) size Hsize) as Hmod.
  rewrite <- Hn in Hdiv.
  assert (Hs : Z.of_nat s = size) by (subst s; lia).
  assert (Hcover : (length items ≤ n * s)%nat) by nia.
  assert (Hlast : ∀ k, (S k < n)%nat → (S k * s < length items)%nat) by (intros k Hk; nia).
  split; [|split; assumption].
  unfold sample_loader.chunked, py_range.
  destruct (size =? 0) eqn:E0; [lia|].
  assert ((0 <? size) = true) as -> by lia.
  simpl bind.
  assert (Z.to_nat (if 0 <? Z.of_nat (length items)
                    then (Z.of_nat (length items) - 1) / size + 1 else 0) = n) as ->.
  { destruct (0 <? Z.of_nat (length items)) eqn:El.
    - replace (Z.of_nat (length items) + size - 1)
        with (Z.of_nat (length items) - 1 + 1 * size) in Hn by lia.
      rewrite Z.div_add in Hn by lia. lia.
    - assert (length items = 0%nat) as Hl by lia. rewrite Hl in *. nia. }
  f_equal. rewrite List.map_map. apply List.map_ext_in.
  intros k Hk. apply in_seq in Hk.
  assert (Hk' : (k * s < length items)%nat ∨ n = 0%nat).
  { destruct k as [|k]; [|left; nia]. destruct (length items); [right; nia|left; lia]. }
  destruct Hk' as [Hk'|]; [|lia].
  unfold py_slice, slice_bound.
  assert ((Z.of_nat k * size <? 0) = false) as -> by nia.
  assert ((Z.of_nat k * size + size <? 0) = false) as -> by nia.
  assert (Z.to_nat (Z.min (Z.of_nat k * size) (Z.of_nat (length items))) = (k * s)%nat)
    as Ha by nia.
  rewrite Ha.
  assert (Z.to_nat (Z.min (Z.of_nat k * size + size) (Z.of_nat (length items))
                    - Z.min (Z.of_nat k * size) (Z.of_nat (length items)))
          = Nat.min s (length (skipn (k * s) items))) as ->.
  { rewrite length_skipn. nia. }
  rewrite Nat.min_comm, <- firstn_firstn. apply firstn_all2.
  rewrite length_take. lia.
Qed.

(** X1 ([chunked], size above zero).  Iterating over [chunked(items,
    size)] raises nothing, and its chunks put end to end are the items
    again: no item is lost, repeated or moved. *)
Theorem chunks_rebuild_items {A} (items : list A) (size : Z) :
  0 < size →
  ∃ chunks, sample_loader.chunked items size = Ok chunks ∧ concat chunks = items.
Proof.
  intros Hsize.
  destruct (chunked_positive items size Hsize) as (Heq & Hcover & _).
  eexists. split; [exact Heq|].
  rewrite take_chunks. apply firstn_all2. exact Hcover.
Qed.

Lemma chunks_rebuild_items_witness :
  0 < 2
  ∧ ∃ chunks, sample_loader.chunked [ 1; 2; 3; 4; 5 ] 2 = Ok chunks
              ∧ concat chunks = [ 1; 2; 3; 4; 5 ].
Proof.
  split; [lia|]. apply (chunks_rebuild_items [ 1; 2; 3; 4; 5 ] 2). lia.
Defined.

(** X2 ([chunked], size above zero).  There are as many chunks as the
    length divided by the size, rounded up; no chunk is empty or longer
    than the size, and every chunk but the last has exactly the size. *)
Theorem chunks_have_the_size {A} (items : list A) (size : Z) :
  0 < size →
  ∃ chunks,
    sample_loader.chunked items size = Ok chunks
    ∧ Z.of_nat (length chunks) = (Z.of_nat (length items) + size - 1) / size
    ∧ Forall (fun chunk => 0 < Z.of_nat (length chunk) ≤ size) chunks
    ∧ ∀ i chunk, chunks !! i = Some chunk → (S i < length chunks)%nat →
                 Z.of_nat (length chunk) = size.
Proof.
  intros Hsize.
  destruct (chunked_positive items size Hsize) as (Heq & Hcover & Hlast).
  set (s := Z.to_nat size) in *.
  set (n := Z.to_nat ((Z.of_nat (length items) + size - 1) / size)) in *.
  assert (Hn : Z.of_nat n = (Z.of_nat (length items) + size - 1) / size).
  { subst n. rewrite Z2Nat.id; [reflexivity|]. apply Z.div_pos; lia. }
  assert (Hstart : ∀ k, (k < n)%nat → (k * s < length items)%nat).
  { intros [|k] Hk; [|specialize (Hlast k); nia].
    destruct (length items) eqn:El; [|lia].
    rewrite Z.div_small in Hn by lia. lia. }
  eexists. split; [exact Heq|].
  split; [rewrite length_map, length_seq; exact Hn|].
  split.
  - apply Forall_forall. intros chunk Hin.
    apply list_elem_of_In, in_map_iff in Hin. destruct Hin as (k & <- & Hk).
    apply in_seq in Hk. specialize (Hstart k ltac:(lia)).
    rewrite length_take, length_skipn. lia.
  - intros i chunk Hi Hlt. rewrite length_map, length_seq in Hlt.
    rewrite list_lookup_fmap in Hi.
    rewrite lookup_seq_lt in Hi by lia. simpl in Hi. injection Hi as <-.
    specialize (Hlast i Hlt).
    rewrite length_take, length_skipn. lia.
Qed.

Lemma chunks_have_the_size_witness :
  0 < 2
  ∧ ∃ chunks,
      sample_loader.chunked [ 1; 2; 3; 4; 5 ] 2 = Ok chunks
      ∧ Z.of_nat (length chunks) = 3
      ∧ Forall (fun chunk => 0 < Z.of_nat (length chunk) ≤ 2) chunks.
Proof.
  split; [lia|].
  destruct (chunks_have_the_size [ 1; 2; 3; 4; 5 ] 2 ltac:(lia))
    as (chunks & Heq & Hlen & Hall & _).
  exists chunks. split; [exact Heq|]. split; [exact Hlen|exact Hall].
Defined.

(** X3 ([chunked], size not above zero).  With a size of zero, iterating
    raises [ValueError]; with a size below zero it ends at once, without a
    chunk, whatever the items. *)
Theorem chunks_of_no_size {A} (items : list A) (size : Z) :
  size ≤ 0 →
  sample_loader.chunked items size
  = if size =? 0 then Raise ValueError else Ok [].
Proof.
  intros Hsize. unfold sample_loader.chunked, py_range.
  destruct (size =? 0) eqn:E0; [reflexivity|].
  assert ((0 <? size) = false) as -> by lia.
  assert ((Z.of_nat (length items) <? 0) = false) as -> by (apply Z.ltb_ge; lia).
  reflexivity.
Qed.

Lemma chunks_of_no_size_witness :
  -200 ≤ 0
  ∧ sample_loader.chunked [ 1; 2; 3 ] (-200) = Ok []
  ∧ sample_loader.chunked [ 1; 2; 3 ] 0 = Raise ValueError.
Proof.
  split; [lia|]. split.
  - apply (chunks_of_no_size [ 1; 2; 3 ] (-200)). lia.
  - apply (chunks_of_no_size [ 1; 2; 3 ] 0). lia.
Defined.

(** ** collector.py: rows and events *)

Lemma list_item_lookup {A} (i : nat) (l : list A) :
  list_item i l = match l !! i with Some x => Ok x | None => Raise IndexError end.
Proof.
  unfold list_item. revert i. induction l as [|x l IH]; intros [|i]; simpl; auto.
Qed.

Lemma dict_set_absent {V} (k : string) (v : V) (d : list (string * V)) :
  dict_lookup k d = None → dict_set k v d = d ++ [ (k, v) ].
Proof.
  induction d as [|[k' v'] d IH]; simpl; [reflexivity|].
  destruct (String.eqb k k'); [discriminate|]. intros H. rewrite IH by exact H. reflexivity.
Qed.

Lemma dict_lookup_app {V} (k : string) (d e : list (string * V)) :
  dict_lookup k (d ++ e)
  = match dict_lookup k d with Some v => Some v | None => dict_lookup k e end.
Proof.
  induction d as [|[k' v'] d IH]; simpl; [reflexivity|].
  destruct (String.eqb k k'); [reflexivity|exact IH].
Qed.

(** A row that is too short raises when its end is reached. *)
Lemma row_items_short (columns : list string) :
  ∀ (i : nat) (row : list value) (payload : dict),
    (i ≤ length row < i + length columns)%nat →
    collector.row_items i columns row payload = Raise IndexError.
Proof.
  induction columns as [|col rest IH]; intros i row payload Hlen; simpl in *; [lia|].
  rewrite list_item_lookup. destruct (row !! i) as [v|] eqn:Ei; [|reflexivity].
  simpl. apply IH. apply lookup_lt_Some in Ei. lia.
Qed.

(** What the loop binds: to a name, the value at the place of the last
    column of the name, and nothing new to a name that is no column. *)
Lemma row_items_binds (columns : list string) :
  ∀ (i : nat) (row : list value) (payload : dict),
    (i + length columns ≤ length row)%nat →
    ∃ result,
      collector.row_items i columns row payload = Ok result
      ∧ (∀ j col, columns !! j = Some col →
           (∀ j', (j < j')%nat → columns !! j' ≠ Some col) →
           dict_lookup col result = row !! (i + j)%nat)
      ∧ (∀ col, col ∉ columns → dict_lookup col result = dict_lookup col payload).
Proof.
  induction columns as [|c rest IH]; intros i row payload Hlen; simpl in *.
  - eexists. split; [reflexivity|]. split; [intros j col H; discriminate|reflexivity].
  - rewrite list_item_lookup.
    destruct (lookup_lt_is_Some_2 row i ltac:(lia)) as [v Hv]. rewrite Hv. simpl.
    destruct (IH (S i) row (dict_set c v payload) ltac:(lia)) as (result & Heq & Hlast & Hrest).
    exists result. split; [exact Heq|]. split.
    + intros [|j] col Hj Hlater; simpl in Hj.
      * injection Hj as <-.
        rewrite Hrest.
        -- rewrite dict_lookup_set, String.eqb_refl, Nat.add_0_r. symmetry. exact Hv.
        -- intros Hin. apply list_elem_of_lookup in Hin. destruct Hin as [j Hj].
           apply (Hlater (S j)); [lia|exact Hj].
      * replace (i + S j)%nat with (S i + j)%nat by lia.
        apply Hlast; [exact Hj|].
        intros j' Hlt. apply (Hlater (S j')). lia.
    + intros col Hnot.
      rewrite Hrest by (intros Hin; apply Hnot; right; exact Hin).
      rewrite dict_lookup_set.
      destruct (String.eqb col c) eqn:E; [|reflexivity].
      apply String.eqb_eq in E. subst. exfalso. apply Hnot. left.
Qed.

(** Columns of different names are bound in their order. *)
Lemma row_items_distinct (columns : list string) :
  ∀ (i : nat) (row : list value) (payload : dict),
    NoDup columns →
    (∀ col, col ∈ columns → dict_lookup col payload = None) →
    (i + length columns ≤ length row)%nat →
    collector.row_items i columns row payload
    = Ok (payload ++ zip columns (skipn i row)).
Proof.
  induction columns as [|c rest IH]; intros i row payload Hnd Hfresh Hlen; simpl in *.
  - rewrite app_nil_r. reflexivity.
  - rewrite list_item_lookup.
    destruct (lookup_lt_is_Some_2 row i ltac:(lia)) as [v Hv]. rewrite Hv. simpl.
    apply NoDup_cons in Hnd. destruct Hnd as [Hc Hnd].
    rewrite IH; [|exact Hnd| |lia].
    + rewrite dict_set_absent by (apply Hfresh; left).
      rewrite <- app_assoc. simpl.
      rewrite (drop_S row v i Hv). reflexivity.
    + intros col Hin. rewrite dict_lookup_set.
      destruct (String.eqb col c) eqn:E.
      * apply String.eqb_eq in E. subst. contradiction.
      * apply Hfresh. right. exact Hin.
Qed.

(** X4 ([_row_to_dict]).  A row with fewer values than there are columns
    raises [IndexError], and no other row raises.  Otherwise every column
    name is bound to the value at the place of the last column of that
    name, nothing else is bound, values beyond the columns are ignored,
    and when the names all differ the dict is the columns paired with the
    values in order. *)
Theorem row_to_dict_binds_columns (columns : list string) (row : list value) :
  match collector._row_to_dict columns row with
  | Ok payload =>
      (length columns ≤ length row)%nat
      ∧ (∀ j col, columns !! j = Some col →
           (∀ j', (j < j')%nat → columns !! j' ≠ Some col) →
           dict_lookup col payload = row !! j)
      ∧ (∀ col, col ∉ columns → dict_lookup col payload = None)
      ∧ (NoDup columns → payload = zip columns row)
  | Raise e => e = IndexError ∧ (length row < length columns)%nat
  end.
Proof.
  unfold collector._row_to_dict.
  destruct (le_lt_dec (length columns) (length row)) as [Hle|Hlt].
  - destruct (row_items_binds columns 0 row [] ltac:(simpl; lia))
      as (payload & Heq & Hlast & Hrest).
    rewrite Heq. split; [exact Hle|]. split; [exact Hlast|]. split; [exact Hrest|].
    intros Hnd.
    rewrite (row_items_distinct columns 0 row [] Hnd) in Heq;
      [|reflexivity|simpl; lia].
    injection Heq as <-. reflexivity.
  - rewrite row_items_short by (simpl; lia). split; [reflexivity|exact Hlt].
Qed.

(** ** collector.py: a live collection *)

Lemma stamped_app (B : backend) (answers more : list (string * dict)) :
  ∀ reading,
    stamped B reading (answers ++ more)
    = stamped B reading answers ++ stamped B (reading + length answers) more.
Proof.
  induction answers as [|[event_type payload] answers IH]; intros reading; simpl.
  - rewrite Nat.add_0_r. reflexivity.
  - rewrite IH. do 3 f_equal. lia.
Qed.

Lemma rows_loop_spec (B : backend) (event_type : string) (columns : list string)
    (rows : list (list value)) :
  ∀ (events : list dict) (s : collector.store),
    collector.rows_loop B event_type columns rows events s
    = Some (events
            ++ stamped B (collector.readings s)
                 (List.map (pair event_type) (payloads columns rows)),
            {| collector.objects := collector.objects s;
               collector.readings :=
                 collector.readings s + length (payloads columns rows) |}).
Proof.
  induction rows as [|row rows IH]; intros events s.
  - simpl. unfold collector.retC. rewrite app_nil_r, Nat.add_0_r. destruct s; reflexivity.
  - cbn [collector.rows_loop payloads].
    destruct (collector._row_to_dict columns row) as [payload|].
    + unfold collector.bindC at 1, collector._build_event, collector.bindC,
        collector._now_iso, collector.retC.
      rewrite IH. cbn [List.map stamped length collector.readings collector.objects].
      rewrite <- app_assoc. do 3 f_equal. lia.
    + unfold collector.retC. simpl. rewrite app_nil_r, Nat.add_0_r. destruct s; reflexivity.
Qed.

Lemma query_step_spec (B : backend) (S : collector.server) (event_type : string)
    (events : list dict) (s : collector.store) :
  collector.query_step B S events event_type s
  = Some (events ++ stamped B (collector.readings s) (answers S event_type),
          {| collector.objects := collector.objects s;
             collector.readings := collector.readings s + length (answers S event_type) |}).
Proof.
  unfold collector.query_step, answers.
  destruct (collector.execute S event_type) as [|[columns|] rows].
  - unfold collector.retC. simpl. rewrite app_nil_r, Nat.add_0_r. destruct s; reflexivity.
  - rewrite rows_loop_spec, length_map. reflexivity.
  - unfold collector.retC. simpl. rewrite app_nil_r, Nat.add_0_r. destruct s; reflexivity.
Qed.

Lemma queries_loop_spec (B : backend) (S : collector.server) (event_types : list string) :
  ∀ (events : list dict) (s : collector.store),
    collector.queries_loop B S event_types events s
    = Some (events ++ stamped B (collector.readings s) (flat_map (answers S) event_types),
            {| collector.objects := collector.objects s;
               collector.readings :=
                 collector.readings s + length (flat_map (answers S) event_types) |}).
Proof.
  induction event_types as [|event_type event_types IH]; intros events s.
  - simpl. unfold collector.retC. rewrite app_nil_r, Nat.add_0_r. destruct s; reflexivity.
  - cbn [collector.queries_loop flat_map]. unfold collector.bindC.
    rewrite query_step_spec, IH. cbn [collector.readings collector.objects].
    rewrite stamped_app, length_app, <- app_assoc. do 3 f_equal. lia.
Qed.

Lemma deadlock_step_spec (B : backend) (S : collector.server) (events : list dict)
    (s : collector.store) :
  collector.deadlock_step B S events s
  = Some (events ++ stamped B (collector.readings s) (deadlock_answers S),
          {| collector.objects := collector.objects s;
             collector.readings := collector.readings s + length (deadlock_answers S) |}).
Proof.
  unfold collector.deadlock_step, deadlock_answers.
  destruct (collector.execute S "deadlocks") as [|[[|column columns]|] rows];
    try (unfold collector.retC; simpl; rewrite app_nil_r, Nat.add_0_r;
         destruct s; reflexivity).
  rewrite rows_loop_spec, length_map. reflexivity.
Qed.

(** X23 ([collect_from_sql] with [_build_event] and [_row_to_dict]).
    With a connection string and a connection, a live collection returns
    whatever the queries do: one event for every row of every query that
    returns rows, the queries in the order of [SQL_QUERIES] and the
    deadlock query last, each event built from the payload of its row at
    its own reading of the clock, one reading after the other.  A query
    that raises, or that describes no columns, adds no event and takes
    none away. *)
Theorem live_collection_stamps_rows (B : backend) (S : collector.server)
    (connection_string : string) (s : collector.store) :
  collector.sql_connection_string S = Some connection_string →
  connection_string ≠ "" →
  collector.connects S = true →
  let found := flat_map (answers S) collector.SQL_QUERIES ++ deadlock_answers S in
  collector.collect_from_sql B S s
  = Some (collector.Collected (stamped B (collector.readings s) found),
          {| collector.objects := collector.objects s;
             collector.readings := collector.readings s + length found |}).
Proof.
  intros Hstring Hfilled Hconnects found. subst found.
  unfold collector.collect_from_sql. rewrite Hstring, Hconnects.
  assert (py_truthy (VStr connection_string) = true) as ->.
  { simpl. apply negb_true_iff, String.eqb_neq. exact Hfilled. }
  cbn [negb]. unfold collector.bindC.
  rewrite queries_loop_spec, deadlock_step_spec.
  cbn [collector.readings collector.objects app]. unfold collector.retC.
  rewrite stamped_app, length_app. do 3 f_equal. lia.
Qed.

Lemma live_collection_stamps_rows_witness :
  collector.sql_connection_string two_blockers
  = Some "Driver=ODBC;Server=db;Database=DBMonTest"
  ∧ "Driver=ODBC;Server=db;Database=DBMonTest" ≠ ""
  ∧ collector.connects two_blockers = true
  ∧ collector.collect_from_sql offline two_blockers empty_store
    = Some (collector.Collected
              [ built offline 0 "blocking"
                  [ ("blocking_session_id", VInt 10); ("wait_time_ms", VInt 500) ];
                built offline 1 "blocking"
                  [ ("blocking_session_id", VInt 11); ("wait_time_ms", VInt 200) ] ],
            {| collector.objects := []; collector.readings := 2 |}).
Proof.
  split; [reflexivity|]. split; [discriminate|]. split; [reflexivity|].
  exact (live_collection_stamps_rows offline two_blockers
           "Driver=ODBC;Server=db;Database=DBMonTest" empty_store
           eq_refl ltac:(discriminate) eq_refl).
Defined.

(** ** stress.py: generated events *)

Lemma in_domain_fields (event event' : dict) :
  dict_lookup "event_type" event' = dict_lookup "event_type" event →
  dict_lookup "payload" event' = dict_lookup "payload" event →
  in_domain event' = in_domain event.
Proof.
  intros Ht Hp. unfold in_domain, dict_get_or. rewrite Ht, Hp. reflexivity.
Qed.

Lemma fallback_fields (event event' : dict) :
  dict_lookup "event_type" event' = dict_lookup "event_type" event →
  dict_lookup "payload" event' = dict_lookup "payload" event →
  explainer._get_fallback_explanation event'
  = explainer._get_fallback_explanation event.
Proof.
  intros Ht Hp. unfold explainer._get_fallback_explanation, dict_get_or.
  rewrite Ht, Hp. reflexivity.
Qed.

Lemma moderate_within (n a b : Z) :
  a ≤ n ≤ b → -1000000 ≤ a → b ≤ 1000000 → moderate (VInt n) = true.
Proof.
  intros Hn Ha Hb. unfold moderate. apply Z.ltb_lt.
  assert (1000000 < 2 ^ 500) by (apply Z.ltb_lt; vm_compute; reflexivity).
  lia.
Qed.

(** A generated event has its type and a payload, and no other field;
    generating it reads no clock; and when the numbers drawn are within
    their bounds the event is one the fallback templates are defined on. *)
Lemma generate_event_shape (X : stress.chance) (event_type : string) (t : stress.tally) :
  ∃ payload,
    fst (stress.generate_event X event_type t)
    = [ ("event_type", VStr event_type); ("payload", VDict payload) ]
    ∧ stress.reads (snd (stress.generate_event X event_type t)) = stress.reads t
    ∧ ((∀ n a b, a ≤ b → a ≤ stress.randint_at X n a b ≤ b) →
       in_domain (fst (stress.generate_event X event_type t)) = true).
Proof.
  unfold stress.generate_event.
  repeat match goal with
         | |- context [if String.eqb event_type ?s then _ else _] =>
             let E := fresh "E" in
             destruct (String.eqb event_type s) eqn:E;
             [apply String.eqb_eq in E; subst event_type|]
         end;
    (eexists; split; [reflexivity|]; split; [reflexivity|]; intros HX).
  all: try reflexivity.
  all: unfold in_domain; cbn -[moderate].
  - rewrite (moderate_within _ 500 60000) by (try apply HX; lia). reflexivity.
  - rewrite (moderate_within _ 100 64000) by (try apply HX; lia). reflexivity.
  - rewrite (moderate_within _ 1000 50000) by (try apply HX; lia).
    rewrite !(moderate_within _ 10000 200000) by (try apply HX; lia).
    reflexivity.
  - rewrite E2, E3, E4, E5. reflexivity.
Qed.

Lemma events_from_cons (X : stress.chance) (i : Z) (rest : list Z) (acc : list dict)
    (t : stress.tally) :
  stress.events_from X (i :: rest) acc t
  = let event_type := stress.choice_at X (stress.draws t) stress.EVENT_TYPES in
    let t1 := {| stress.draws := S (stress.draws t); stress.reads := stress.reads t |} in
    stress.events_from X rest
      (acc ++ [ dict_set "@timestamp"
                  (VStr (stress.now_at X
                           (stress.reads (snd (stress.generate_event X event_type t1))) i))
                  (fst (stress.generate_event X event_type t1)) ])
      {| stress.draws := stress.draws (snd (stress.generate_event X event_type t1));
         stress.reads := S (stress.reads (snd (stress.generate_event X event_type t1))) |}.
Proof.
  cbn [stress.events_from]. unfold stress.bindG, stress.choice, stress._now_iso.
  cbv zeta. destruct (stress.generate_event X _ _) as [event t2]. reflexivity.
Qed.

Lemma events_from_spec (X : stress.chance) (n : nat) :
  ∀ (k : nat) (acc : list dict) (t : stress.tally),
  ∃ added,
    fst (stress.events_from X (List.map Z.of_nat (seq k n)) acc t) = acc ++ added
    ∧ length added = n
    ∧ stress.reads (snd (stress.events_from X (List.map Z.of_nat (seq k n)) acc t))
      = (stress.reads t + n)%nat
    ∧ ∀ i event, added !! i = Some event →
        ∃ event_type payload t',
          event = [ ("event_type", VStr event_type);
                    ("payload", VDict payload);
                    ("@timestamp",
                     VStr (stress.now_at X (stress.reads t + i) (Z.of_nat (k + i)))) ]
          ∧ ((∀ m seq, seq ≠ [] → stress.choice_at X m seq ∈ seq) →
             event_type ∈ stress.EVENT_TYPES)
          ∧ dict_set "@timestamp"
              (VStr (stress.now_at X (stress.reads t + i) (Z.of_nat (k + i))))
              (fst (stress.generate_event X event_type t')) = event.
Proof.
  induction n as [|n IH]; intros k acc t.
  - exists []. simpl. rewrite app_nil_r, Nat.add_0_r.
    split; [reflexivity|]. split; [reflexivity|]. split; [reflexivity|].
    intros i event H. discriminate.
  - cbn [seq List.map]. rewrite events_from_cons. cbv zeta.
    set (event_type := stress.choice_at X (stress.draws t) stress.EVENT_TYPES).
    set (t1 := {| stress.draws := S (stress.draws t); stress.reads := stress.reads t |}).
    destruct (generate_event_shape X event_type t1) as (payload & Hshape & Hreads & _).
    destruct (stress.generate_event X event_type t1) as [event t2] eqn:Egen.
    simpl in Hshape, Hreads. simpl fst. simpl snd.
    set (t3 := {| stress.draws := stress.draws t2; stress.reads := S (stress.reads t2) |}).
    destruct (IH (S k)
                (acc ++ [ dict_set "@timestamp"
                            (VStr (stress.now_at X (stress.reads t2) (Z.of_nat k))) event ])
                t3) as (added & Heq & Hlen & Hr & Hall).
    exists (dict_set "@timestamp"
              (VStr (stress.now_at X (stress.reads t2) (Z.of_nat k))) event :: added).
    split; [rewrite Heq, <- app_assoc; reflexivity|].
    split; [simpl; rewrite Hlen; reflexivity|].
    split; [rewrite Hr; subst t3; simpl; rewrite Hreads; subst t1; simpl; lia|].
    intros [|i] e Hi; simpl in Hi.
    + injection Hi as <-. exists event_type, payload, t1.
      rewrite !Nat.add_0_r, Egen. simpl fst.
      rewrite Hreads. subst t1. simpl stress.reads.
      split; [rewrite Hshape; reflexivity|].
      split; [|reflexivity].
      intros Hchoice. apply Hchoice. discriminate.
    + destruct (Hall i e Hi) as (ty & p & t' & He & Hty & Hgen).
      exists ty, p, t'.
      replace (stress.reads t + S i)%nat with (stress.reads t3 + i)%nat
        by (subst t3; simpl; rewrite Hreads; subst t1; simpl; lia).
      replace (k + S i)%nat with (S k + i)%nat by lia.
      split; [exact He|]. split; [exact Hty|exact Hgen].
Qed.

(** X5 ([generate_events]).  [generate_events(count)] returns [count]
    events, none for a count below one, and reads the clock once for each.
    The event at place [i] has three fields: a type, which is one of
    [EVENT_TYPES] when [random.choice] picks among what it is given, a
    payload that is a mapping, and the timestamp of the reading made for
    it, [i] seconds later. *)
Theorem generated_events_shape (X : stress.chance) (count : Z) (t : stress.tally) :
  fair X →
  let events := fst (stress.generate_events X count t) in
  length events = Z.to_nat count
  ∧ stress.reads (snd (stress.generate_events X count t))
    = (stress.reads t + Z.to_nat count)%nat
  ∧ ∀ i event, events !! i = Some event →
      ∃ event_type payload,
        event_type ∈ stress.EVENT_TYPES
        ∧ event = [ ("event_type", VStr event_type);
                    ("payload", VDict payload);
                    ("@timestamp",
                     VStr (stress.now_at X (stress.reads t + i) (Z.of_nat i))) ].
Proof.
  intros [_ Hchoice] events. subst events. unfold stress.generate_events.
  destruct (events_from_spec X (Z.to_nat count) 0 [] t) as (added & Heq & Hlen & Hr & Hall).
  rewrite Heq. simpl. split; [exact Hlen|]. split; [exact Hr|].
  intros i event Hi.
  destruct (Hall i event Hi) as (ty & p & t' & He & Hty & _).
  exists ty, p. split; [apply Hty; exact Hchoice|exact He].
Qed.

Lemma fair_least : fair least.
Proof.
  split.
  - intros n a b Hab. simpl. lia.
  - intros n [|x seq] Hseq; [contradiction|]. simpl. left.
Qed.

Lemma generated_events_shape_witness :
  fair least
  ∧ length (fst (stress.generate_events least 3 no_draws)) = 3%nat
  ∧ stress.reads (snd (stress.generate_events least 3 no_draws)) = 3%nat.
Proof.
  split; [exact fair_least|].
  destruct (generated_events_shape least 3 no_draws fair_least) as (Hlen & Hreads & _).
  split; [exact Hlen|exact Hreads].
Defined.

(** X6 ([generate_events] with [_get_fallback_explanation] and
    [explain_event]).  Whatever is drawn within the bounds given to
    [random.randint], and of whatever type, every generated event is one
    the fallback explains with a well-formed explanation, so that
    [explain_event] returns on it for every backend. *)
Theorem generated_events_explained (X : stress.chance) (count : Z) (t : stress.tally) :
  fair X →
  Forall (fun event =>
            explained event
            ∧ ∀ (B : backend) (w : world),
                ∃ v w', explainer.explain_event B event w = Ok (v, w'))
    (fst (stress.generate_events X count t)).
Proof.
  intros [Hrandint _]. unfold stress.generate_events.
  destruct (events_from_spec X (Z.to_nat count) 0 [] t) as (added & Heq & _ & _ & Hall).
  rewrite Heq. simpl. apply Forall_lookup. intros i event Hi.
  destruct (Hall i event Hi) as (ty & p & t' & _ & _ & Hgen).
  destruct (generate_event_shape X ty t') as (p' & _ & _ & Hdom).
  specialize (Hdom Hrandint).
  assert (Hin : in_domain event = true).
  { rewrite <- Hdom. subst event. apply in_domain_fields; apply dict_lookup_set. }
  destruct (fallback_total event Hin) as (r & Hr & Hwf).
  split; [exists r; split; assumption|].
  intros B w. apply explain_event_returns. rewrite Hr. reflexivity.
Qed.

Lemma generated_events_explained_witness :
  fair least
  ∧ Forall explained (fst (stress.generate_events least 3 no_draws)).
Proof.
  split; [exact fair_least|].
  eapply Forall_impl; [apply (generated_events_explained least 3 no_draws fair_least)|].
  intros event [H _]. exact H.
Defined.

(** ** stress.py and sample_loader.py: JSON lines *)

Lemma append_cons (c : ascii) (a b : string) : String c a +:+ b = String c (a +:+ b).
Proof. reflexivity. Qed.

Lemma append_assoc (a b c : string) : (a +:+ b) +:+ c = a +:+ (b +:+ c).
Proof.
  induction a as [|x a IH]; [reflexivity|]. rewrite !append_cons, IH. reflexivity.
Qed.

Lemma string_of_list_ascii_app (l l' : list ascii) :
  string_of_list_ascii (l ++ l') = string_of_list_ascii l +:+ string_of_list_ascii l'.
Proof.
  induction l as [|x l IH]; [reflexivity|].
  cbn [app string_of_list_ascii]. rewrite append_cons, IH. reflexivity.
Qed.

Lemma write_jsonl_from (json_dumps : dict → string) (events : list dict) :
  ∀ text,
    foldl (fun text event => text +:+ (json_dumps event +:+ String newline "")) text events
    = text +:+ stress.write_jsonl json_dumps events.
Proof.
  unfold stress.write_jsonl.
  induction events as [|event events IH]; intros text; simpl.
  - clear. induction text as [|x text IH]; [reflexivity|].
    rewrite append_cons, <- IH. reflexivity.
  - rewrite (IH (text +:+ (json_dumps event +:+ String newline ""))).
    rewrite (IH ("" +:+ (json_dumps event +:+ String newline ""))).
    change ("" +:+ (json_dumps event +:+ String newline ""))
      with (json_dumps event +:+ String newline "").
    rewrite append_assoc. reflexivity.
Qed.

Lemma write_jsonl_cons (json_dumps : dict → string) (event : dict) (events : list dict) :
  stress.write_jsonl json_dumps (event :: events)
  = json_line json_dumps event +:+ stress.write_jsonl json_dumps events.
Proof.
  unfold stress.write_jsonl at 1. simpl. rewrite write_jsonl_from. reflexivity.
Qed.

(** A text without a line break, followed by a newline, is read as one
    line. *)
Lemma file_lines_line (s rest : string) :
  one_line s = true →
  ∀ cur,
    file_lines (s +:+ String newline rest) cur
    = string_of_list_ascii (rev cur ++ list_ascii_of_string s ++ [ newline ])
      :: file_lines rest [].
Proof.
  induction s as [|c s IH]; intros Hs cur.
  - reflexivity.
  - simpl in Hs. apply andb_prop in Hs. destruct Hs as [Hc Hs].
    apply andb_prop in Hc. destruct Hc as [Hn Hr].
    apply negb_true_iff in Hn, Hr.
    rewrite append_cons. cbn [file_lines]. rewrite Hn, Hr.
    rewrite IH by exact Hs. cbn [rev list_ascii_of_string].
    rewrite <- app_assoc. reflexivity.
Qed.

(** X7 ([write_jsonl] then [read_jsonl]).  Reading the file that
    [write_jsonl] wrote gives the events back, in their order, whenever
    [json.dumps] puts each event on one line that is not blank and
    [json.loads] reads that line as the event. *)
Theorem jsonl_round_trip (B : backend) (json_dumps : dict → string) (events : list dict) :
  Forall (fun event =>
            one_line (json_dumps event) = true
            ∧ strip (json_line json_dumps event) ≠ ""
            ∧ json_loads B (json_line json_dumps event) = Some (VDict event))
    events →
  sample_loader.read_jsonl B (stress.write_jsonl json_dumps events)
  = Ok (List.map VDict events).
Proof.
  intros Hall. unfold sample_loader.read_jsonl.
  change (List.map VDict events) with ([] ++ List.map VDict events).
  generalize (@nil value) as acc.
  induction Hall as [|event events (Hline & Hblank & Hloads) _ IH]; intros acc.
  - simpl. rewrite app_nil_r. reflexivity.
  - rewrite write_jsonl_cons. unfold json_line at 1.
    rewrite append_assoc.
    change (String newline "" +:+ stress.write_jsonl json_dumps events)
      with (String newline (stress.write_jsonl json_dumps events)).
    rewrite file_lines_line by exact Hline.
    cbn [dashboard.fold_result rev app].
    rewrite string_of_list_ascii_app, string_of_list_ascii_of_string.
    change (string_of_list_ascii [ newline ]) with (String newline "").
    fold (json_line json_dumps event).
    unfold sample_loader.line_step at 1.
    assert (py_truthy (VStr (strip (json_line json_dumps event))) = true) as ->.
    { simpl. apply negb_true_iff. apply String.eqb_neq. exact Hblank. }
    rewrite Hloads. cbn [negb bind].
    rewrite IH. rewrite <- app_assoc. reflexivity.
Qed.

Lemma jsonl_round_trip_witness :
  Forall (fun event =>
            one_line (terse_dumps event) = true
            ∧ strip (json_line terse_dumps event) ≠ ""
            ∧ json_loads lenient (json_line terse_dumps event) = Some (VDict event))
    [ terse_record; terse_record ]
  ∧ sample_loader.read_jsonl lenient (stress.write_jsonl terse_dumps [ terse_record; terse_record ])
    = Ok [ VDict terse_record; VDict terse_record ].
Proof.
  assert (H : Forall (fun event =>
            one_line (terse_dumps event) = true
            ∧ strip (json_line terse_dumps event) ≠ ""
            ∧ json_loads lenient (json_line terse_dumps event) = Some (VDict event))
    [ terse_record; terse_record ]).
  { repeat constructor; try (vm_compute; reflexivity); vm_compute; discriminate. }
  split; [exact H|].
  apply (jsonl_round_trip lenient terse_dumps [ terse_record; terse_record ] H).
Defined.

Lemma lines_loop (B : backend) (lines : list string) :
  ∀ acc,
    match dashboard.fold_result (sample_loader.line_step B) lines acc with
    | Ok events =>
        ∃ added,
          events = acc ++ added
          ∧ Forall2 (fun line event => json_loads B line = Some event)
              (List.filter not_blank lines) added
    | Raise e =>
        e = ValueError
        ∧ ∃ line, line ∈ lines ∧ not_blank line = true ∧ json_loads B line = None
    end.
Proof.
  induction lines as [|line lines IH]; intros acc.
  - simpl. exists []. rewrite app_nil_r. split; [reflexivity|constructor].
  - cbn [dashboard.fold_result List.filter]. unfold sample_loader.line_step at 1.
    change (py_truthy (VStr (strip line))) with (not_blank line).
    destruct (not_blank line) eqn:Eblank; cbn [negb].
    + destruct (json_loads B line) as [event|] eqn:Eloads; cbn [bind].
      * specialize (IH (acc ++ [ event ])).
        destruct (dashboard.fold_result (sample_loader.line_step B) lines (acc ++ [ event ]))
          as [events|e].
        -- destruct IH as (added & -> & Hall). exists (event :: added).
           rewrite <- app_assoc. split; [reflexivity|]. constructor; assumption.
        -- destruct IH as (-> & l & Hin & Hb & Hl). split; [reflexivity|].
           exists l. split; [right; exact Hin|]. split; assumption.
      * split; [reflexivity|]. exists line. split; [left|]. split; assumption.
    + cbn [bind]. specialize (IH acc).
      destruct (dashboard.fold_result (sample_loader.line_step B) lines acc) as [events|e].
      * exact IH.
      * destruct IH as (-> & l & Hin & Hb & Hl). split; [reflexivity|].
        exists l. split; [right; exact Hin|]. split; assumption.
Qed.

(** X24 ([read_jsonl]).  Lines that are empty or hold only blanks are
    passed over, and the events returned are what [json.loads] reads from
    the other lines, one for each, in their order.  [read_jsonl] raises
    only the [ValueError] of [json.loads], and only when one of those lines
    is not JSON; it then returns no event at all. *)
Theorem lines_read_in_order (B : backend) (text : string) :
  match sample_loader.read_jsonl B text with
  | Ok events =>
      Forall2 (fun line event => json_loads B line = Some event)
        (List.filter not_blank (file_lines text [])) events
  | Raise e =>
      e = ValueError
      ∧ ∃ line, line ∈ file_lines text [] ∧ not_blank line = true
                ∧ json_loads B line = None
  end.
Proof.
  unfold sample_loader.read_jsonl.
  pose proof (lines_loop B (file_lines text []) []) as H.
  destruct (dashboard.fold_result (sample_loader.line_step B) (file_lines text []) [])
    as [events|e]; [|exact H].
  destruct H as (added & -> & Hall). exact Hall.
Qed.

(** ** elastic.py: bulk requests *)

Lemma operations_loop (index_name : string) (events : list value) :
  ∀ operations,
    foldl (fun operations event =>
             operations
             ++ [ VDict [ ("index", VDict [ ("_index", VStr index_name) ]) ]; event ])
      operations events
    = operations ++ flat_map (fun event => [ index_action index_name; event ]) events.
Proof.
  induction events as [|event events IH]; intros operations; simpl.
  - rewrite app_nil_r. reflexivity.
  - rewrite IH, <- app_assoc. reflexivity.
Qed.

Lemma pairs_lookup (action : value) (events : list value) (i : nat) :
  flat_map (fun event => [ action; event ]) events !! (2 * i)%nat
  = (fun _ => action) <$> events !! i
  ∧ flat_map (fun event => [ action; event ]) events !! (2 * i + 1)%nat = events !! i.
Proof.
  revert i. induction events as [|event events IH]; intros i.
  - split; reflexivity.
  - destruct i as [|i].
    + split; reflexivity.
    + replace (2 * S i)%nat with (S (S (2 * i))) by lia.
      replace (S (S (2 * i)) + 1)%nat with (S (S (2 * i + 1))) by lia.
      simpl flat_map. apply IH.
Qed.

(** X8 ([index_events]).  Without events no request is sent.  Otherwise
    one bulk request is sent, after those sent before, with two
    operations for every event: the action that names the index, then the
    event itself, in the order of the events. *)
Theorem bulk_request_pairs_events (index_name : string) (events : list value)
    (sent : list (list value)) :
  match events with
  | [] => elastic.index_events index_name events sent = sent
  | _ =>
      ∃ operations,
        elastic.index_events index_name events sent = sent ++ [ operations ]
        ∧ length operations = (2 * length events)%nat
        ∧ ∀ i, operations !! (2 * i)%nat
               = (fun _ => index_action index_name) <$> events !! i
               ∧ operations !! (2 * i + 1)%nat = events !! i
  end.
Proof.
  destruct events as [|event events]; [reflexivity|].
  unfold elastic.index_events. cbn [py_truthy negb].
  rewrite operations_loop. cbn [app].
  eexists. split; [reflexivity|]. split.
  - generalize (event :: events). intros l.
    induction l as [|x l IH]; simpl; [reflexivity|]. rewrite IH. lia.
  - intros i. apply pairs_lookup.
Qed.

(** ** explainer.py and alerts.py: requests, readings and batches *)

Lemma call_counts (B : backend) (event : dict) (w : world) :
  snd (explainer._call_ollama_ai B event w)
  = if serialisable B (dict_get_or "payload" (VDict []) event)
    then {| ticks := ticks w; posts := S (posts w) |}
    else w.
Proof.
  unfold explainer._call_ollama_ai.
  destruct (serialisable B _); cbn [negb]; [|reflexivity].
  destruct (post_at B (posts w) event) as [|status_code json]; [reflexivity|].
  destruct (status_code =? 200); [|reflexivity].
  match goal with |- context [match ?p with Ok _ => _ | Raise _ => _ end] => destruct p end;
    reflexivity.
Qed.

Lemma explain_event_counts (B : backend) (event : dict) (w w' : world) (v : value) :
  explainer.explain_event B event w = Ok (v, w') →
  ticks w' = ticks w
  ∧ posts w' = (if asks B event then S (posts w) else posts w).
Proof.
  unfold explainer.explain_event, asks.
  destruct (use_ai_analysis (settings B)); cbn [andb].
  - pose proof (call_counts B event w) as Hc.
    destruct (explainer._call_ollama_ai B event w) as [ai_result w1]. simpl in Hc. subst w1.
    destruct (py_truthy ai_result).
    + intros H. injection H as _ <-.
      destruct (serialisable B _); split; reflexivity.
    + unfold lift. destruct (explainer._get_fallback_explanation event); [|discriminate].
      intros H. injection H as _ <-.
      destruct (serialisable B _); split; reflexivity.
  - unfold lift. destruct (explainer._get_fallback_explanation event); [|discriminate].
    intros H. injection H as _ <-. split; reflexivity.
Qed.

(** X9 ([explain_event]).  [explain_event] raises only what the fallback
    raises on the event: nothing that goes wrong with the prompt or the
    request escapes.  When it returns, the result is the answer of the
    model, which is then truthy, or the result of the fallback; the clock
    was not read; and one request was sent when the analysis by the model
    is switched on and [json.dumps] returns on the payload, none when the
    analysis is off or [json.dumps] raises on the payload. *)
Theorem explanation_raises_as_the_fallback (B : backend) (event : dict) (w : world) :
  match explainer.explain_event B event w with
  | Ok (v, w') =>
      ticks w' = ticks w
      ∧ posts w' = (if asks B event then S (posts w) else posts w)
      ∧ ((asks B event = true
          ∧ py_truthy v = true
          ∧ v = fst (explainer._call_ollama_ai B event w))
         ∨ explainer._get_fallback_explanation event = Ok v)
  | Raise e => explainer._get_fallback_explanation event = Raise e
  end.
Proof.
  unfold explainer.explain_event, asks.
  destruct (use_ai_analysis (settings B)) eqn:Eai; cbn [andb].
  - pose proof (call_counts B event w) as Hc.
    destruct (explainer._call_ollama_ai B event w) as [ai_result w1] eqn:Ecall.
    simpl in Hc. subst w1.
    destruct (py_truthy ai_result) eqn:Et.
    + destruct (serialisable B (dict_get_or "payload" (VDict []) event)) eqn:Es.
      * split; [reflexivity|]. split; [reflexivity|]. left. auto.
      * exfalso. unfold explainer._call_ollama_ai in Ecall. rewrite Es in Ecall.
        cbn [negb] in Ecall. injection Ecall as <-. discriminate.
    + unfold lift. destruct (explainer._get_fallback_explanation event); [|reflexivity].
      destruct (serialisable B _); (split; [reflexivity|]); (split; [reflexivity|]);
        right; reflexivity.
  - unfold lift. destruct (explainer._get_fallback_explanation event); [|reflexivity].
    split; [reflexivity|]. split; [reflexivity|]. right. reflexivity.
Qed.

Lemma asked_of_alert (B : backend) (timestamp : string) (rule event : dict)
    (explanation : value) :
  asked B (alerts.alert timestamp rule event explanation) = asks B event.
Proof. reflexivity. Qed.

(** What one rule adds for one event: nothing, or one alert stamped with
    the reading of the clock made for it, after one request when the
    explanation asks the model. *)
Lemma rule_step_counts (B : backend) (event rule : dict) (payload : value)
    (acc acc' : list value) (w w' : world) :
  alerts.rule_step B event payload acc rule w = Ok (acc', w') →
  ∃ added,
    acc' = acc ++ added
    ∧ ticks w' = (ticks w + length added)%nat
    ∧ posts w' = (posts w + length (List.filter (asked B) added))%nat
    ∧ ∀ i a, added !! i = Some a →
        ∃ explanation, a = alerts.alert (clock_at B (ticks w + i)) rule event explanation.
Proof.
  unfold alerts.rule_step.
  assert (Hnone : Ok (acc, w) = Ok (acc', w') →
    ∃ added,
      acc' = acc ++ added
      ∧ ticks w' = (ticks w + length added)%nat
      ∧ posts w' = (posts w + length (List.filter (asked B) added))%nat
      ∧ ∀ i a, added !! i = Some a →
          ∃ explanation, a = alerts.alert (clock_at B (ticks w + i)) rule event explanation).
  { intros H. injection H as <- <-. exists []. rewrite app_nil_r. simpl.
    split; [reflexivity|]. split; [lia|]. split; [lia|].
    intros i a H. discriminate. }
  destruct (py_ne _ _); [exact Hnone|].
  unfold bindM at 1. unfold lift at 1.
  destruct (py_get_value _ payload) as [value_|]; [|discriminate].
  unfold bindM at 1. unfold lift at 1.
  destruct (alerts._compare _ _ _) as [[|]|]; [|exact Hnone|discriminate].
  unfold bindM at 1.
  destruct (explainer.explain_event B event w) as [[explanation w1]|] eqn:Ex; [|discriminate].
  apply explain_event_counts in Ex. destruct Ex as [Ht Hp].
  unfold bindM, alerts._now_iso, ret. intros H. injection H as <- <-.
  eexists. split; [reflexivity|].
  cbn [List.filter length ticks posts]. rewrite asked_of_alert.
  split; [lia|].
  split; [rewrite Hp; destruct (asks B event); simpl; lia|].
  intros [|i] a Hi; [|discriminate]. injection Hi as <-.
  exists explanation. rewrite Ht, Nat.add_0_r. reflexivity.
Qed.

Lemma rules_loop_counts (B : backend) (event : dict) (payload : value) (rules : list dict) :
  ∀ (acc acc' : list value) (w w' : world),
    foldM (alerts.rule_step B event payload) rules acc w = Ok (acc', w') →
    ∃ added,
      acc' = acc ++ added
      ∧ ticks w' = (ticks w + length added)%nat
      ∧ posts w' = (posts w + length (List.filter (asked B) added))%nat
      ∧ ∀ i a, added !! i = Some a →
          ∃ rule explanation,
            rule ∈ rules
            ∧ a = alerts.alert (clock_at B (ticks w + i)) rule event explanation.
Proof.
  induction rules as [|rule rules IH]; intros acc acc' w w' H.
  - injection H as <- <-. exists []. rewrite app_nil_r. simpl.
    split; [reflexivity|]. split; [lia|]. split; [lia|].
    intros i a H. discriminate.
  - cbn [foldM] in H. unfold bindM at 1 in H.
    destruct (alerts.rule_step B event payload acc rule w) as [[acc1 w1]|] eqn:E1;
      [|discriminate].
    apply rule_step_counts in E1. destruct E1 as (added1 & -> & Ht1 & Hp1 & Hall1).
    apply IH in H. destruct H as (added2 & -> & Ht2 & Hp2 & Hall2).
    exists (added1 ++ added2). rewrite List.filter_app, !length_app, <- app_assoc.
    split; [reflexivity|]. split; [lia|]. split; [lia|].
    intros i a Hi. apply lookup_app_Some in Hi. destruct Hi as [Hi|[Hge Hi]].
    + destruct (Hall1 i a Hi) as (explanation & ->).
      exists rule, explanation. split; [left|reflexivity].
    + destruct (Hall2 _ a Hi) as (r & explanation & Hr & ->).
      exists r, explanation. split; [right; exact Hr|].
      rewrite Ht1. do 2 f_equal. lia.
Qed.

Lemma events_loop_counts (B : backend) (rules : list dict) (events : list dict) :
  ∀ (acc acc' : list value) (w w' : world),
    foldM (alerts.event_step B rules) events acc w = Ok (acc', w') →
    ∃ added,
      acc' = acc ++ added
      ∧ ticks w' = (ticks w + length added)%nat
      ∧ posts w' = (posts w + length (List.filter (asked B) added))%nat
      ∧ ∀ i a, added !! i = Some a →
          ∃ event rule explanation,
            event ∈ events ∧ rule ∈ rules
            ∧ a = alerts.alert (clock_at B (ticks w + i)) rule event explanation.
Proof.
  induction events as [|event events IH]; intros acc acc' w w' H.
  - injection H as <- <-. exists []. rewrite app_nil_r. simpl.
    split; [reflexivity|]. split; [lia|]. split; [lia|].
    intros i a H. discriminate.
  - cbn [foldM] in H. unfold bindM at 1 in H.
    destruct (alerts.event_step B rules acc event w) as [[acc1 w1]|] eqn:E1;
      [|discriminate].
    apply rules_loop_counts in E1. destruct E1 as (added1 & -> & Ht1 & Hp1 & Hall1).
    apply IH in H. destruct H as (added2 & -> & Ht2 & Hp2 & Hall2).
    exists (added1 ++ added2). rewrite List.filter_app, !length_app, <- app_assoc.
    split; [reflexivity|]. split; [lia|]. split; [lia|].
    intros i a Hi. apply lookup_app_Some in Hi. destruct Hi as [Hi|[Hge Hi]].
    + destruct (Hall1 i a Hi) as (rule & explanation & Hr & ->).
      exists event, rule, explanation. split; [left|]. split; [exact Hr|reflexivity].
    + destruct (Hall2 _ a Hi) as (e & r & explanation & He & Hr & ->).
      exists e, r, explanation. split; [right; exact He|]. split; [exact Hr|].
      rewrite Ht1. do 2 f_equal. lia.
Qed.

(** X10 ([evaluate_rules]).  An evaluation that returns has read the
    clock once for every alert and for nothing else, and the alert at
    place [i] carries the timestamp of the [i]-th of these readings, for a
    rule and an event of the batch.  It has sent one request for every
    alert whose explanation asks the model, that is, when the analysis by
    the model is switched on and [json.dumps] returns on the payload of
    the event of the alert, and no other request. *)
Theorem alerts_stamped_in_order (B : backend) (events rules : list dict)
    (alerts : list value) (w w' : world) :
  alerts.evaluate_rules B events rules w = Ok (alerts, w') →
  ticks w' = (ticks w + length alerts)%nat
  ∧ posts w' = (posts w + length (List.filter (asked B) alerts))%nat
  ∧ ∀ i a, alerts !! i = Some a →
      ∃ event rule explanation,
        event ∈ events ∧ rule ∈ rules
        ∧ a = alerts.alert (clock_at B (ticks w + i)) rule event explanation.
Proof.
  intros H. apply events_loop_counts in H. destruct H as (added & -> & Ht & Hp & Hall).
  simpl. split; [exact Ht|]. split; [exact Hp|exact Hall].
Qed.

Lemma alerts_stamped_in_order_witness :
  (∃ alerts w',
     alerts.evaluate_rules offline scenario_events [ slow_rule ] start = Ok (alerts, w')
     ∧ ticks w' = length alerts
     ∧ posts w' = length alerts)
  ∧ (∃ alerts w',
       alerts.evaluate_rules dated scenario_events [ slow_rule ] start = Ok (alerts, w')
       ∧ ticks w' = length alerts
       ∧ posts w' = 0%nat).
Proof.
  split.
  - destruct (alerts.evaluate_rules offline scenario_events [ slow_rule ] start)
      as [[alerts w']|e] eqn:E; [|vm_compute in E; discriminate].
    exists alerts, w'. split; [reflexivity|].
    destruct (alerts_stamped_in_order offline scenario_events [ slow_rule ] alerts start w' E)
      as (Ht & Hp & _).
    split; [exact Ht|]. rewrite Hp.
    vm_compute in E. injection E as <- _. reflexivity.
  - destruct (alerts.evaluate_rules dated scenario_events [ slow_rule ] start)
      as [[alerts w']|e] eqn:E; [|vm_compute in E; discriminate].
    exists alerts, w'. split; [reflexivity|].
    destruct (alerts_stamped_in_order dated scenario_events [ slow_rule ] alerts start w' E)
      as (Ht & Hp & _).
    split; [exact Ht|]. rewrite Hp.
    vm_compute in E. injection E as <- _. reflexivity.
Defined.

(** A loop over a list put together from two runs over the first, then
    over the second. *)
Lemma foldM_app {A S} (f : S → A → M S) (l1 l2 : list A) :
  ∀ (s : S) (w : world),
    foldM f (l1 ++ l2) s w = bindM (foldM f l1 s) (fun s' => foldM f l2 s') w.
Proof.
  induction l1 as [|x l1 IH]; intros s w; [reflexivity|].
  cbn [app foldM]. unfold bindM in *.
  destruct (f s x w) as [[s1 w1]|e]; [|reflexivity].
  rewrite IH. reflexivity.
Qed.

Lemma foldM_appends {A X} (f : list X → A → M (list X)) (l : list A) :
  (∀ acc x w, x ∈ l → f acc x w = appended_to acc (f [] x w)) →
  ∀ acc w, foldM f l acc w = appended_to acc (foldM f l [] w).
Proof.
  induction l as [|x l IH]; intros Hf acc w.
  - simpl. unfold ret. rewrite app_nil_r. reflexivity.
  - cbn [foldM]. unfold bindM.
    rewrite (Hf acc x w) by left.
    destruct (f [] x w) as [[added w1]|e]; [|reflexivity].
    cbn [appended_to].
    assert (Hl : ∀ acc x w, x ∈ l → f acc x w = appended_to acc (f [] x w))
      by (intros; apply Hf; right; assumption).
    rewrite (IH Hl (acc ++ added)), (IH Hl added).
    destruct (foldM f l [] w1) as [[more w2]|e]; [|reflexivity].
    simpl. rewrite app_assoc. reflexivity.
Qed.

Lemma rule_step_appends (B : backend) (event : dict) (payload : value)
    (acc : list value) (rule : dict) (w : world) :
  alerts.rule_step B event payload acc rule w
  = appended_to acc (alerts.rule_step B event payload [] rule w).
Proof.
  unfold alerts.rule_step.
  destruct (py_ne _ _); [unfold ret, appended_to; rewrite app_nil_r; reflexivity|].
  unfold bindM, lift, ret, alerts._now_iso, appended_to.
  destruct (py_get_value _ payload) as [value_|]; [|reflexivity].
  destruct (alerts._compare _ _ _) as [[|]|];
    [|rewrite app_nil_r; reflexivity|reflexivity].
  destruct (explainer.explain_event B event w) as [[explanation w1]|]; reflexivity.
Qed.

Lemma event_step_appends (B : backend) (rules : list dict) (acc : list value)
    (event : dict) (w : world) :
  alerts.event_step B rules acc event w
  = appended_to acc (alerts.event_step B rules [] event w).
Proof.
  unfold alerts.event_step. apply foldM_appends.
  intros acc' rule w' _. apply rule_step_appends.
Qed.

(** X11 ([evaluate_rules]).  Evaluating a batch made of two batches is
    evaluating the first and then the second, the second after the
    readings and requests of the first: it raises when one of them does,
    and otherwise returns the alerts of the first followed by those of the
    second. *)
Theorem alerts_of_joined_batches (B : backend) (first second rules : list dict)
    (w : world) :
  alerts.evaluate_rules B (first ++ second) rules w
  = (run alerts <- alerts.evaluate_rules B first rules;
     run more <- alerts.evaluate_rules B second rules;
     ret (alerts ++ more)) w.
Proof.
  unfold alerts.evaluate_rules. rewrite foldM_app. unfold bindM.
  destruct (foldM (alerts.event_step B rules) first [] w) as [[alerts w1]|e]; [|reflexivity].
  rewrite (foldM_appends (alerts.event_step B rules) second)
    by (intros; apply event_step_appends).
  destruct (foldM (alerts.event_step B rules) second [] w1) as [[more w2]|e]; reflexivity.
Qed.

(** X12 ([evaluate_rules]).  An event whose payload is there and is not a
    mapping makes the evaluation raise [AttributeError] at the first rule
    of its type, whatever the field, the operator and the threshold of the
    rule: when the events before it raise nothing, the evaluation of the
    batch returns no alert at all. *)
Theorem payload_that_is_no_mapping (B : backend) (before later : list dict)
    (event : dict) (others more : list dict) (rule : dict) (payload : value)
    (alerts : list value) (w w' : world) :
  dict_lookup "payload" event = Some payload →
  kind_of payload ≠ KDict →
  Forall (fun other => same_type event other = false) others →
  same_type event rule = true →
  alerts.evaluate_rules B before (others ++ rule :: more) w = Ok (alerts, w') →
  alerts.evaluate_rules B (before ++ event :: later) (others ++ rule :: more) w
  = Raise AttributeError.
Proof.
  intros Hpayload Hkind Hothers Hrule Hbefore.
  unfold alerts.evaluate_rules in *. rewrite foldM_app. unfold bindM at 1.
  rewrite Hbefore. cbn [foldM]. unfold bindM at 1.
  assert (Hstep : alerts.event_step B (others ++ rule :: more) alerts event w'
                  = Raise AttributeError).
  { unfold alerts.event_step. rewrite foldM_app. unfold bindM at 1.
    assert (foldM (alerts.rule_step B event (dict_get_or "payload" (VDict []) event))
              others alerts w' = Ok (alerts, w')) as ->.
    { clear - Hothers. induction Hothers as [|other others Hother _ IH]; [reflexivity|].
      cbn [foldM]. unfold bindM at 1.
      rewrite rule_step_other_type by exact Hother. exact IH. }
    cbn [foldM]. unfold bindM at 1.
    unfold alerts.rule_step. unfold same_type in Hrule. unfold py_ne. rewrite Hrule.
    cbn [negb]. unfold bindM at 1. unfold lift at 1.
    unfold dict_get_or. rewrite Hpayload.
    destruct payload; try reflexivity. contradiction Hkind. reflexivity. }
  rewrite Hstep. reflexivity.
Qed.

Lemma payload_that_is_no_mapping_witness :
  dict_lookup "payload" (blocking_event VNone) = Some VNone
  ∧ kind_of VNone ≠ KDict
  ∧ Forall (fun other => same_type (blocking_event VNone) other = false) [ slow_rule ]
  ∧ same_type (blocking_event VNone) (dict_set "event_type" (VStr "blocking") slow_rule)
    = true
  ∧ alerts.evaluate_rules offline [ slow_event (VInt 4000) ]
      [ slow_rule; dict_set "event_type" (VStr "blocking") slow_rule ] start
    = Ok ([], start)
  ∧ alerts.evaluate_rules offline
      [ slow_event (VInt 4000); blocking_event VNone; slow_event (VInt 15000) ]
      [ slow_rule; dict_set "event_type" (VStr "blocking") slow_rule ] start
    = Raise AttributeError.
Proof.
  assert (H1 : dict_lookup "payload" (blocking_event VNone) = Some VNone) by reflexivity.
  assert (H2 : kind_of VNone ≠ KDict) by discriminate.
  assert (H3 : Forall (fun other => same_type (blocking_event VNone) other = false)
                 [ slow_rule ]) by (repeat constructor).
  assert (H4 : same_type (blocking_event VNone)
                 (dict_set "event_type" (VStr "blocking") slow_rule) = true)
    by reflexivity.
  assert (H5 : alerts.evaluate_rules offline [ slow_event (VInt 4000) ]
                 [ slow_rule; dict_set "event_type" (VStr "blocking") slow_rule ] start
               = Ok ([], start)) by (vm_compute; reflexivity).
  repeat (split; [assumption|]).
  exact (payload_that_is_no_mapping offline [ slow_event (VInt 4000) ]
           [ slow_event (VInt 15000) ] (blocking_event VNone) [ slow_rule ] []
           (dict_set "event_type" (VStr "blocking") slow_rule) VNone [] start start
           H1 H2 H3 H4 H5).
Defined.

(** ** explainer.py: the fenced answer *)

Lemma split_go_length (sep s : string) :
  ∀ skip cur, (1 ≤ length (split_go sep s skip cur))%nat.
Proof.
  induction s as [|c s IH]; intros skip cur; cbn [split_go]; [simpl; lia|].
  destruct skip; [|apply IH].
  destruct (String.prefix sep (String c s)); [simpl; lia|apply IH].
Qed.

Lemma split_found (sep s : string) :
  sep ≠ "" → contains sep s = true →
  ∀ cur, (2 ≤ length (split_go sep s 0 cur))%nat.
Proof.
  intros Hsep. induction s as [|c s IH]; intros Hin cur.
  - destruct sep; [contradiction|discriminate].
  - cbn [split_go]. cbn [contains] in Hin.
    destruct (String.prefix sep (String c s)) eqn:Ep.
    + pose proof (split_go_length sep s (String.length sep - 1) []). simpl. lia.
    + apply IH. exact Hin.
Qed.

Lemma list_item_within {A} (i : nat) (l : list A) :
  (i < length l)%nat → ∃ x, list_item i l = Ok x.
Proof.
  intros Hi. rewrite list_item_lookup.
  destruct (lookup_lt_is_Some_2 l i Hi) as [x ->]. exists x. reflexivity.
Qed.

Lemma fence_opens (s : string) :
  String.prefix "```json" s = true → String.prefix "```" s = true.
Proof.
  destruct s as [|c1 [|c2 [|c3 s]]]; cbn [String.prefix]; try discriminate;
    repeat match goal with
           | |- context [ascii_dec ?a ?b] => destruct (ascii_dec a b)
           end; try discriminate; intros _; destruct s; reflexivity.
Qed.

Lemma fence_within (s : string) :
  contains "```json" s = true → contains "```" s = true.
Proof.
  induction s as [|c s IH]; cbn [contains]; intros H.
  - discriminate.
  - apply orb_prop in H. destruct H as [H|H].
    + rewrite (fence_opens _ H). reflexivity.
    + rewrite (IH H). apply orb_true_r.
Qed.

(** X21 ([_call_ollama_ai], the extraction of the answer).  Taking the
    text between the fences never raises: where the answer has a fence,
    the parts the code indexes are there.  An answer without three
    backticks in a row is taken whole, stripped. *)
Theorem fence_is_always_found (ai_text : string) :
  ∃ text,
    explainer.fenced_json ai_text = Ok text
    ∧ (contains "```" (strip ai_text) = false → text = strip ai_text).
Proof.
  unfold explainer.fenced_json.
  destruct (contains "```json" (strip ai_text)) eqn:Ejson.
  - destruct (list_item_within 1 (split "```json" (strip ai_text))) as [after Hafter].
    { apply split_found; [discriminate|exact Ejson]. }
    rewrite Hafter. cbn [bind].
    destruct (list_item_within 0 (split "```" after)) as [inside Hinside].
    { apply split_go_length. }
    rewrite Hinside. cbn [bind]. eexists. split; [reflexivity|].
    intros Hnone. rewrite (fence_within _ Ejson) in Hnone. discriminate.
  - destruct (contains "```" (strip ai_text)) eqn:Efence.
    + destruct (list_item_within 1 (split "```" (strip ai_text))) as [after Hafter].
      { apply split_found; [discriminate|exact Efence]. }
      rewrite Hafter. cbn [bind].
      destruct (list_item_within 0 (split "```" after)) as [inside Hinside].
      { apply split_go_length. }
      rewrite Hinside. cbn [bind]. eexists. split; [reflexivity|discriminate].
    + eexists. split; reflexivity.
Qed.

Lemma prefix_of_append (a s : string) : String.prefix a (a +:+ s) = true.
Proof.
  induction a as [|c a IH]; [destruct s; reflexivity|].
  rewrite append_cons. cbn [String.prefix].
  destruct (ascii_dec c c); [exact IH|contradiction].
Qed.

Lemma contains_at_start (sep s : string) :
  String.prefix sep s = true → contains sep s = true.
Proof. intros H. destruct s; cbn [contains]; rewrite H; reflexivity. Qed.

Lemma split_go_skips (sep p s : string) (cur : list ascii) :
  split_go sep (p +:+ s) (String.length p) cur = split_go sep s 0 cur.
Proof.
  induction p as [|c p IH]; [destruct s; reflexivity|].
  rewrite append_cons. cbn [split_go String.length]. exact IH.
Qed.

(** A text that starts with the separator is split there. *)
Lemma split_go_at_separator (c : ascii) (sep s : string) (cur : list ascii) :
  split_go (String c sep) (String c sep +:+ s) 0 cur
  = string_of_list_ascii (rev cur) :: split_go (String c sep) s 0 [].
Proof.
  pose proof (prefix_of_append (String c sep) s) as Hp.
  rewrite append_cons in *. cbn [split_go]. rewrite Hp.
  replace (String.length (String c sep) - 1)%nat with (String.length sep)
    by (cbn [String.length]; lia).
  rewrite split_go_skips. reflexivity.
Qed.

Lemma not_backtick (c : ascii) (sep s : string) :
  Ascii.eqb c "`" = false →
  String.prefix (String "`" sep) (String c s) = false.
Proof.
  intros Hc. cbn [String.prefix].
  destruct (ascii_dec "`" c) as [<-|]; [|reflexivity].
  rewrite Ascii.eqb_refl in Hc. discriminate.
Qed.

(** A text without a backtick holds no separator that starts with one. *)
Lemma split_go_passes (sep body : string) :
  no_backtick body = true →
  ∀ (s : string) (cur : list ascii),
    split_go (String "`" sep) (body +:+ s) 0 cur
    = split_go (String "`" sep) s 0 (rev (list_ascii_of_string body) ++ cur).
Proof.
  induction body as [|c body IH]; intros Hbody s cur; [reflexivity|].
  cbn [no_backtick] in Hbody. apply andb_prop in Hbody. destruct Hbody as [Hc Hbody].
  apply negb_true_iff in Hc.
  rewrite append_cons. cbn [split_go]. rewrite (not_backtick c sep _ Hc).
  rewrite (IH Hbody). cbn [list_ascii_of_string rev]. rewrite <- app_assoc. reflexivity.
Qed.

Lemma split_go_whole (sep body : string) (cur : list ascii) :
  no_backtick body = true →
  split_go (String "`" sep) body 0 cur
  = [ string_of_list_ascii (rev cur ++ list_ascii_of_string body) ].
Proof.
  revert cur. induction body as [|c body IH]; intros cur Hbody.
  - cbn [split_go list_ascii_of_string]. rewrite app_nil_r. reflexivity.
  - cbn [no_backtick] in Hbody. apply andb_prop in Hbody. destruct Hbody as [Hc Hbody].
    apply negb_true_iff in Hc.
    cbn [split_go]. rewrite (not_backtick c sep _ Hc).
    rewrite (IH _ Hbody). cbn [list_ascii_of_string rev]. rewrite <- app_assoc. reflexivity.
Qed.

Lemma append_nil_r (s : string) : s +:+ "" = s.
Proof. induction s as [|c s IH]; [reflexivity|]. rewrite append_cons, IH. reflexivity. Qed.

Lemma text_of_reversed (body : string) (s : string) :
  string_of_list_ascii (rev (rev (list_ascii_of_string body) ++ [])
                        ++ list_ascii_of_string s)
  = body +:+ s.
Proof.
  rewrite app_nil_r, rev_involutive, string_of_list_ascii_app,
    !string_of_list_ascii_of_string. reflexivity.
Qed.

(** The first part of what follows the opening fence, when the body and
    what follows the closing fence have no backtick: the body, or the body
    with all that follows it. *)
Lemma first_part_of_fenced (body rest : string) :
  no_backtick body = true → no_backtick rest = true →
  ∃ closing tail,
    split_go "```json" (body +:+ ("```" +:+ rest)) 0 []
    = (body +:+ closing) :: tail
    ∧ (closing = "" ∨ closing = "```" +:+ rest).
Proof.
  intros Hbody Hrest.
  rewrite (split_go_passes "``json" body Hbody).
  set (cur := rev (list_ascii_of_string body) ++ []).
  change ("```" +:+ rest) with (String "`" (String "`" (String "`" rest))).
  cbn [split_go].
  destruct (String.prefix "```json" (String "`" (String "`" (String "`" rest))))
    eqn:E1.
  - eexists "", _. split; [|left; reflexivity].
    f_equal. subst cur.
    rewrite app_nil_r, rev_involutive, string_of_list_ascii_of_string, append_nil_r.
    reflexivity.
  - assert (E2 : String.prefix "```json" (String "`" (String "`" rest)) = false).
    { destruct rest as [|r rest]; [reflexivity|].
      cbn [no_backtick] in Hrest. apply andb_prop in Hrest. destruct Hrest as [Hr _].
      apply negb_true_iff in Hr.
      change (String.prefix "```json" (String "`" (String "`" (String r rest))))
        with (String.prefix (String "`" "json") (String r rest)).
      apply not_backtick. exact Hr. }
    assert (E3 : String.prefix "```json" (String "`" rest) = false).
    { destruct rest as [|r rest]; [reflexivity|].
      cbn [no_backtick] in Hrest. apply andb_prop in Hrest. destruct Hrest as [Hr _].
      apply negb_true_iff in Hr.
      change (String.prefix "```json" (String "`" (String r rest)))
        with (String.prefix (String "`" (String "`" "json")) (String r rest)).
      apply not_backtick. exact Hr. }
    rewrite E2. cbn [split_go]. rewrite E3.
    rewrite (split_go_whole "``json" rest _ Hrest).
    exists ("```" +:+ rest), []. split; [|right; reflexivity].
    f_equal. subst cur. rewrite <- (text_of_reversed body ("```" +:+ rest)).
    f_equal. cbn [rev]. rewrite <- !app_assoc. reflexivity.
Qed.

(** X22 ([_call_ollama_ai], the extraction of the answer).  From an
    answer that, stripped, opens with the fence of a JSON block, has a body
    without a backtick up to the closing fence, and no backtick after it,
    the text taken is the body, stripped: the fences and whatever follows
    the block are dropped. *)
Theorem fenced_answer_is_unwrapped (ai_text body rest : string) :
  strip ai_text = "```json" +:+ (body +:+ ("```" +:+ rest)) →
  no_backtick body = true →
  no_backtick rest = true →
  explainer.fenced_json ai_text = Ok (strip body).
Proof.
  intros Htext Hbody Hrest. unfold explainer.fenced_json. rewrite Htext.
  rewrite (contains_at_start _ _ (prefix_of_append "```json" _)).
  unfold split at 1. rewrite split_go_at_separator.
  destruct (first_part_of_fenced body rest Hbody Hrest) as (closing & tail & -> & Hclosing).
  cbn [list_item nth_error bind].
  unfold split. rewrite (split_go_passes "``" body Hbody).
  destruct Hclosing as [->| ->].
  - cbn [split_go list_item nth_error bind].
    rewrite app_nil_r, rev_involutive, string_of_list_ascii_of_string. reflexivity.
  - rewrite split_go_at_separator. cbn [list_item nth_error bind].
    rewrite app_nil_r, rev_involutive, string_of_list_ascii_of_string. reflexivity.
Qed.

Lemma fenced_answer_is_unwrapped_witness :
  strip fenced_answer
  = "```json" +:+ ((String newline terse_answer +:+ String newline "")
                   +:+ ("```" +:+ String newline "Hope this helps!"))
  ∧ no_backtick (String newline terse_answer +:+ String newline "") = true
  ∧ no_backtick (String newline "Hope this helps!") = true
  ∧ explainer.fenced_json fenced_answer = Ok terse_answer.
Proof.
  assert (H1 : strip fenced_answer
               = "```json" +:+ ((String newline terse_answer +:+ String newline "")
                                +:+ ("```" +:+ String newline "Hope this helps!")))
    by (vm_compute; reflexivity).
  assert (H2 : no_backtick (String newline terse_answer +:+ String newline "") = true)
    by (vm_compute; reflexivity).
  assert (H3 : no_backtick (String newline "Hope this helps!") = true)
    by (vm_compute; reflexivity).
  split; [exact H1|]. split; [exact H2|]. split; [exact H3|].
  exact (fenced_answer_is_unwrapped fenced_answer
           (String newline terse_answer +:+ String newline "")
           (String newline "Hope this helps!") H1 H2 H3).
Defined.

(** ** dashboard.py: the latest collection *)

Lemma fold_result_app {A S} (f : S → A → result S) (l1 l2 : list A) :
  ∀ s, dashboard.fold_result f (l1 ++ l2) s
       = do s' <- dashboard.fold_result f l1 s; dashboard.fold_result f l2 s'.
Proof.
  induction l1 as [|x l1 IH]; intros s; [reflexivity|].
  cbn [app dashboard.fold_result]. destruct (f s x) as [s1|e]; [|reflexivity].
  cbn [bind]. apply IH.
Qed.

Lemma keyless_source (d : dict) :
  keyless d → dashboard.source_key (VDict d) = Ok VNone.
Proof.
  intros (Hs & Hq & Hd). unfold dashboard.source_key, dashboard.py_in, dict_has.
  rewrite Hs, Hq, Hd. reflexivity.
Qed.

Lemma indexed_document_keyless (d : dict) : indexed_document d → keyless d.
Proof.
  induction 1 as [B event_type payload s s' event Hbuilt
                 |X count t event Hin
                 |B now sample _ IH].
  - unfold collector._build_event, collector.bindC, collector._now_iso, collector.retC
      in Hbuilt.
    injection Hbuilt as <- _. repeat split.
  - unfold stress.generate_events in Hin.
    destruct (events_from_spec X (Z.to_nat count) 0 [] t) as (added & Heq & _ & _ & Hall).
    rewrite Heq in Hin. simpl in Hin.
    apply list_elem_of_lookup in Hin. destruct Hin as [i Hi].
    destruct (Hall i event Hi) as (ty & p & t' & -> & _). repeat split.
  - destruct IH as (Hs & Hq & Hd).
    destruct (enriched_dict_fields B now sample) as (_ & _ & _ & Hother).
    repeat split; rewrite Hother by discriminate; assumption.
Qed.

Lemma skipped_without_key (d : dict) (hit : value) (items : list (value * value)) :
  holds_document d hit → dashboard.source_key (VDict d) = Ok VNone →
  dashboard.hit_step items hit = Ok items.
Proof.
  intros Hhit Hkey. unfold dashboard.hit_step. rewrite Hhit. cbn [bind].
  rewrite Hkey. reflexivity.
Qed.

(** X13 ([_get_latest_collection] with [_build_event], [generate_events]
    and [collect_mock]).  The documents the collection paths make have
    their session, query text and deadlock fields inside the payload and
    none at the top level, where [_get_latest_collection] looks: over hits
    that hold such documents it returns the empty dict, whatever the
    payloads hold. *)
Theorem collected_documents_have_no_key (hits : list value) :
  Forall (fun hit => ∃ d, holds_document d hit ∧ indexed_document d) hits →
  dashboard._get_latest_collection hits = Ok [].
Proof.
  unfold dashboard._get_latest_collection.
  induction 1 as [|hit hits (d & Hhit & Hdoc) _ IH]; [reflexivity|].
  cbn [dashboard.fold_result].
  rewrite (skipped_without_key d)
    by (try exact Hhit; apply keyless_source, indexed_document_keyless, Hdoc).
  exact IH.
Qed.

Lemma collected_documents_have_no_key_witness :
  Forall (fun hit => ∃ d, holds_document d hit ∧ indexed_document d)
    [ hit_with (VDict live_blocking) ]
  ∧ dashboard._get_latest_collection [ hit_with (VDict live_blocking) ] = Ok [].
Proof.
  assert (H : Forall (fun hit => ∃ d, holds_document d hit ∧ indexed_document d)
                [ hit_with (VDict live_blocking) ]).
  { repeat constructor. exists live_blocking. split; [reflexivity|].
    apply (live_document offline "blocking"
             [ ("session_id", VInt 71); ("blocking_session_id", VInt 10) ]
             empty_store {| collector.objects := []; collector.readings := 1 |}).
    reflexivity. }
  split; [exact H|].
  apply (collected_documents_have_no_key [ hit_with (VDict live_blocking) ] H).
Defined.

(** X14 ([_get_latest_collection]).  A hit whose document has a
    [session_id] that is falsy ([None], [0], an empty text) is passed
    over, even when the document has a [query_text] or a [deadlock_id]:
    the result is what it is without the hit. *)
Theorem falsy_session_is_passed_over (before later : list value) (hit : value)
    (d : dict) (session : value) :
  holds_document d hit →
  dict_lookup "session_id" d = Some session →
  py_truthy session = false →
  dashboard._get_latest_collection (before ++ hit :: later)
  = dashboard._get_latest_collection (before ++ later).
Proof.
  intros Hhit Hsession Hfalsy. unfold dashboard._get_latest_collection.
  rewrite !fold_result_app.
  destruct (dashboard.fold_result dashboard.hit_step before []) as [items|e];
    [|reflexivity].
  cbn [bind dashboard.fold_result].
  assert (dashboard.hit_step items hit = Ok items) as ->; [|reflexivity].
  unfold dashboard.hit_step. rewrite Hhit. cbn [bind].
  unfold dashboard.source_key, dashboard.py_in, dict_has, py_get, dict_get.
  rewrite Hsession. cbn [bind]. rewrite Hfalsy. reflexivity.
Qed.

Lemma falsy_session_is_passed_over_witness :
  holds_document [ ("session_id", VInt 0); ("query_text", VStr "SELECT 1") ]
    (hit_with (VDict [ ("session_id", VInt 0); ("query_text", VStr "SELECT 1") ]))
  ∧ dict_lookup "session_id" [ ("session_id", VInt 0); ("query_text", VStr "SELECT 1") ]
    = Some (VInt 0)
  ∧ py_truthy (VInt 0) = false
  ∧ dashboard._get_latest_collection
      [ keyed_hit;
        hit_with (VDict [ ("session_id", VInt 0); ("query_text", VStr "SELECT 1") ]) ]
    = dashboard._get_latest_collection [ keyed_hit ].
Proof.
  split; [reflexivity|]. split; [reflexivity|]. split; [reflexivity|].
  apply (falsy_session_is_passed_over [ keyed_hit ] []
           (hit_with (VDict [ ("session_id", VInt 0); ("query_text", VStr "SELECT 1") ]))
           [ ("session_id", VInt 0); ("query_text", VStr "SELECT 1") ] (VInt 0));
    reflexivity.
Defined.

(** What one hit does to the dict: nothing, or one new entry, with the key
    of the hit, which is truthy, hashable and different from the keys
    there; and afterwards the key of the hit, when truthy, is covered. *)
Lemma hit_step_spec (items items' : list (value * value)) (hit : value) :
  dashboard.hit_step items hit = Ok items' →
  (items' = items
   ∨ ∃ key source,
       items' = items ++ [ (key, source) ]
       ∧ keyed_by key source hit
       ∧ py_truthy key = true ∧ hashable key = true
       ∧ Forall (fun entry => py_eq key (fst entry) = false) items)
  ∧ ∀ key source, keyed_by key source hit → py_truthy key = true →
      covered items' key source.
Proof.
  unfold dashboard.hit_step, keyed_by, covered.
  destruct (dashboard.py_item "_source" hit) as [source|] eqn:Esource; [|discriminate].
  cbn [bind].
  destruct (dashboard.source_key source) as [key|] eqn:Ekey; [|discriminate].
  cbn [bind].
  assert (Hsame : ∀ k s, Ok source = Ok s ∧ dashboard.source_key s = Ok k →
                         s = source ∧ k = key).
  { intros k s [Hs Hk]. injection Hs as <-. rewrite Ekey in Hk. injection Hk as <-.
    split; reflexivity. }
  destruct (py_truthy key) eqn:Etruthy.
  - unfold dashboard.keyed_has.
    destruct (hashable key) eqn:Ehash; [|discriminate].
    cbn [bind].
    destruct (existsb (fun kv => py_eq key (fst kv)) items) eqn:Eseen.
    + intros H. injection H as <-. split; [left; reflexivity|].
      intros k s Hks _. destruct (Hsame k s Hks) as [-> ->].
      right. apply existsb_exists in Eseen. destruct Eseen as (entry & Hin & Heq).
      exists entry. split; [apply list_elem_of_In; exact Hin|exact Heq].
    + intros H. injection H as <-. split.
      * right. exists key, source. repeat split; try assumption; try reflexivity.
        apply Forall_forall. intros entry Hin.
        destruct (py_eq key (fst entry)) eqn:Heq; [|reflexivity].
        assert (existsb (fun kv => py_eq key (fst kv)) items = true) as Hex.
        { apply existsb_exists. exists entry.
          split; [apply list_elem_of_In; exact Hin|exact Heq]. }
        congruence.
      * intros k s Hks _. destruct (Hsame k s Hks) as [-> ->].
        left. apply elem_of_app. right. left.
  - intros H. injection H as <-. split; [left; reflexivity|].
    intros k s Hks Ht. destruct (Hsame k s Hks) as [-> ->]. congruence.
Qed.

Lemma distinct_keys_snoc (items : list (value * value)) (key source : value) :
  distinct_keys items →
  Forall (fun entry => py_eq key (fst entry) = false) items →
  distinct_keys (items ++ [ (key, source) ]).
Proof.
  intros Hdistinct Hnew i j earlier later Hi Hj Hlt.
  apply lookup_app_Some in Hj. destruct Hj as [Hj|[Hge Hj]].
  - apply lookup_lt_Some in Hj as Hjlt.
    rewrite lookup_app_l in Hi by lia.
    exact (Hdistinct i j earlier later Hi Hj Hlt).
  - destruct (j - length items)%nat eqn:Ej; [|discriminate].
    injection Hj as <-. rewrite lookup_app_l in Hi by lia.
    rewrite Forall_forall in Hnew. apply Hnew.
    apply list_elem_of_lookup. exists i. exact Hi.
Qed.

Lemma covered_app (items added : list (value * value)) (key source : value) :
  covered items key source → covered (items ++ added) key source.
Proof.
  intros [Hin|(entry & Hin & Heq)].
  - left. apply elem_of_app. left. exact Hin.
  - right. exists entry. split; [apply elem_of_app; left; exact Hin|exact Heq].
Qed.

Lemma hits_loop_spec (hits : list value) :
  ∀ items items',
    dashboard.fold_result dashboard.hit_step hits items = Ok items' →
    ∃ added,
      items' = items ++ added
      ∧ Forall (fun entry =>
                  py_truthy (fst entry) = true ∧ hashable (fst entry) = true
                  ∧ ∃ hit, hit ∈ hits ∧ keyed_by (fst entry) (snd entry) hit) added
      ∧ (distinct_keys items → distinct_keys items')
      ∧ ∀ hit key source,
          hit ∈ hits → keyed_by key source hit → py_truthy key = true →
          covered items' key source.
Proof.
  induction hits as [|hit hits IH]; intros items items' H.
  - injection H as <-. exists []. rewrite app_nil_r.
    split; [reflexivity|]. split; [constructor|]. split; [auto|].
    intros hit key source Hin. inversion Hin.
  - cbn [dashboard.fold_result] in H.
    destruct (dashboard.hit_step items hit) as [items1|] eqn:Estep; [|discriminate].
    cbn [bind] in H.
    apply hit_step_spec in Estep. destruct Estep as [Hstep Hcover].
    apply IH in H. destruct H as (added & -> & Hsound & Hdistinct & Hcovered).
    assert (Hweaken : Forall (fun entry =>
                  py_truthy (fst entry) = true ∧ hashable (fst entry) = true
                  ∧ ∃ h, h ∈ hit :: hits ∧ keyed_by (fst entry) (snd entry) h) added).
    { eapply Forall_impl; [exact Hsound|].
      intros entry (Ht & Hh & h & Hin & Hk). repeat split; try assumption.
      exists h. split; [right; exact Hin|exact Hk]. }
    assert (Hall : ∀ h k s, h ∈ hit :: hits → keyed_by k s h → py_truthy k = true →
                            covered (items1 ++ added) k s).
    { intros h k s Hin Hk Ht. apply elem_of_cons in Hin. destruct Hin as [->|Hin].
      - apply covered_app. exact (Hcover k s Hk Ht).
      - exact (Hcovered h k s Hin Hk Ht). }
    destruct Hstep as [->|(key & source & -> & Hkeyed & Htruthy & Hhash & Hnew)].
    + exists added. split; [reflexivity|]. split; [exact Hweaken|].
      split; [exact Hdistinct|exact Hall].
    + exists ((key, source) :: added). rewrite <- app_assoc in *.
      split; [reflexivity|]. split.
      * constructor; [|exact Hweaken]. simpl. repeat split; try assumption.
        exists hit. split; [left|exact Hkeyed].
      * split; [|exact Hall].
        intros Hd. apply Hdistinct. apply distinct_keys_snoc; assumption.
Qed.

Lemma latest_collection_distinct (hits : list value) (items : list (value * value)) :
  dashboard.fold_result dashboard.hit_step hits [] = Ok items → distinct_keys items.
Proof.
  intros H. apply hits_loop_spec in H. destruct H as (added & -> & _ & Hdistinct & _).
  apply Hdistinct. intros i j earlier later Hi. discriminate.
Qed.

(** X15 ([_get_latest_collection]).  Every entry of the result is the
    document of a hit under the key of that hit; the key is truthy and
    hashable and equals the key of no entry before it; and every hit with
    a truthy key is covered: the result has the entry of the hit itself, or
    an entry with an equal key. *)
Theorem latest_collection_entries (hits : list value) (items : list (value * value)) :
  dashboard._get_latest_collection hits = Ok items →
  Forall (fun entry =>
            py_truthy (fst entry) = true ∧ hashable (fst entry) = true
            ∧ ∃ hit, hit ∈ hits ∧ keyed_by (fst entry) (snd entry) hit) items
  ∧ distinct_keys items
  ∧ ∀ hit key source,
      hit ∈ hits → keyed_by key source hit → py_truthy key = true →
      covered items key source.
Proof.
  intros H. apply hits_loop_spec in H.
  destruct H as (added & -> & Hsound & Hdistinct & Hcovered). simpl.
  split; [exact Hsound|]. split; [|exact Hcovered].
  apply Hdistinct. intros i j earlier later Hi. discriminate.
Qed.

Lemma latest_collection_entries_witness :
  dashboard._get_latest_collection [ keyed_hit; keyed_hit ] = Ok [ (VInt 5, VDict keyed_source) ]
  ∧ distinct_keys [ (VInt 5, VDict keyed_source) ]
  ∧ covered [ (VInt 5, VDict keyed_source) ] (VInt 5) (VDict keyed_source).
Proof.
  assert (H : dashboard._get_latest_collection [ keyed_hit; keyed_hit ]
              = Ok [ (VInt 5, VDict keyed_source) ]) by reflexivity.
  split; [exact H|].
  destruct (latest_collection_entries [ keyed_hit; keyed_hit ]
              [ (VInt 5, VDict keyed_source) ] H) as (_ & Hdistinct & Hcovered).
  split; [exact Hdistinct|].
  apply (Hcovered keyed_hit); [left|split; reflexivity|reflexivity].
Defined.

(** X16 ([_get_latest_collection]).  The hits that come first win: when
    the result is computed for the hits, and for the same hits followed by
    more, the second result is the first followed by entries for keys the
    first has not; no entry of the first is replaced or moved. *)
Theorem earlier_hits_win (hits more : list value) (items items' : list (value * value)) :
  dashboard._get_latest_collection hits = Ok items →
  dashboard._get_latest_collection (hits ++ more) = Ok items' →
  ∃ added,
    items' = items ++ added
    ∧ Forall (fun entry =>
                Forall (fun earlier => py_eq (fst entry) (fst earlier) = false) items
                ∧ ∃ hit, hit ∈ more ∧ keyed_by (fst entry) (snd entry) hit) added.
Proof.
  unfold dashboard._get_latest_collection. intros Hfirst Hall.
  rewrite fold_result_app, Hfirst in Hall. cbn [bind] in Hall.
  pose proof (latest_collection_distinct hits items Hfirst) as Hd.
  apply hits_loop_spec in Hall. destruct Hall as (added & -> & Hsound & Hdistinct & _).
  exists added. split; [reflexivity|].
  specialize (Hdistinct Hd).
  apply Forall_lookup. intros j entry Hj.
  rewrite Forall_lookup in Hsound. destruct (Hsound j entry Hj) as (_ & _ & Hhit).
  split; [|exact Hhit].
  apply Forall_lookup. intros i earlier Hi.
  apply (Hdistinct i (length items + j)%nat earlier entry).
  - rewrite lookup_app_l by (apply lookup_lt_Some in Hi; exact Hi). exact Hi.
  - rewrite lookup_app_r by lia. replace (length items + j - length items)%nat with j by lia.
    exact Hj.
  - apply lookup_lt_Some in Hi. lia.
Qed.

Lemma earlier_hits_win_witness :
  dashboard._get_latest_collection [ keyed_hit ] = Ok [ (VInt 5, VDict keyed_source) ]
  ∧ dashboard._get_latest_collection
      ([ keyed_hit ] ++ [ hit_with (VDict [ ("session_id", VInt 5) ]) ])
    = Ok [ (VInt 5, VDict keyed_source) ]
  ∧ ∃ added, [ (VInt 5, VDict keyed_source) ] = [ (VInt 5, VDict keyed_source) ] ++ added.
Proof.
  assert (H1 : dashboard._get_latest_collection [ keyed_hit ]
               = Ok [ (VInt 5, VDict keyed_source) ]) by reflexivity.
  assert (H2 : dashboard._get_latest_collection
                 ([ keyed_hit ] ++ [ hit_with (VDict [ ("session_id", VInt 5) ]) ])
               = Ok [ (VInt 5, VDict keyed_source) ]) by reflexivity.
  split; [exact H1|]. split; [exact H2|].
  destruct (earlier_hits_win [ keyed_hit ] [ hit_with (VDict [ ("session_id", VInt 5) ]) ]
              [ (VInt 5, VDict keyed_source) ] [ (VInt 5, VDict keyed_source) ] H1 H2)
    as (added & Heq & _).
  exists added. exact Heq.
Defined.

(** ** dashboard.py: more about the delta *)

Lemma keys_of_size (key_field : string) (items : list dict) :
  (size (keys_of key_field items) ≤ length items)%nat.
Proof.
  unfold keys_of. induction items as [|item items IH].
  - rewrite fmap_nil, list_to_set_nil, size_empty. simpl. lia.
  - rewrite fmap_cons, list_to_set_cons, size_union_alt, size_singleton.
    cbn [length].
    pose proof (subseteq_size (list_to_set (dashboard.key_of key_field <$> items)
                               ∖ {[dashboard.key_of key_field item]})
                  (list_to_set (dashboard.key_of key_field <$> items) : gset string)
                  ltac:(intros k Hk; apply elem_of_difference in Hk; apply Hk)).
    lia.
Qed.

(** X17 ([_calculate_delta]).  The delta shows no more than the batch
    has: the new and the changed items together are at most as many as the
    keys of the batch, which are at most as many as its events, and the
    resolved items are at most as many as the items of the previous
    snapshot. *)
Theorem delta_shows_at_most_the_keys (current : list dict) (previous : gmap string dict)
    (key_field : string) :
  ∃ d,
    dashboard._calculate_delta current previous key_field = Ok d
    ∧ (length (dashboard.new d) + length (dashboard.changed d)
       ≤ size (keys_of key_field current))%nat
    ∧ (size (keys_of key_field current) ≤ length current)%nat
    ∧ (length (dashboard.resolved d) ≤ size previous)%nat.
Proof.
  destruct (delta_spec current previous key_field)
    as (d & Heq & _ & Hnew & Hchanged & Hresolved).
  exists d. split; [exact Heq|].
  apply Forall2_length in Hnew, Hchanged, Hresolved.
  set (K := keys_of key_field current) in *.
  split; [|split; [apply keys_of_size|]].
  - rewrite <- Hnew, <- Hchanged.
    pose proof (length_filter
                  (fun k => is_changed (dashboard.by_key key_field current) previous k = true)
                  (elements (K ∩ dom previous))) as Hf.
    assert (Hsplit : size K = (size (K ∖ dom previous) + size (K ∩ dom previous))%nat).
    { rewrite <- size_union
        by (apply elem_of_disjoint; intros k H1 H2;
            apply elem_of_difference in H1; apply elem_of_intersection in H2; tauto).
      f_equal.
      apply set_eq. intros k. rewrite elem_of_union, elem_of_difference, elem_of_intersection.
      destruct (decide (k ∈ dom previous)); tauto. }
    rewrite Hsplit. unfold size, set_size in *. simpl in *. lia.
  - rewrite <- Hresolved. rewrite <- (size_dom previous).
    pose proof (subseteq_size (dom previous ∖ K) (dom previous)
                  ltac:(intros k Hk; apply elem_of_difference in Hk; apply Hk)) as Hs.
    unfold size at 1, set_size at 1 in Hs. simpl in Hs. exact Hs.
Qed.

(** X18 ([_calculate_delta]).  A batch classified against the snapshot
    made of the batch itself shows nothing: nothing is new, changed or
    resolved, provided the value every item has for a sensitive field is
    equal to itself (as every value is but a NaN). *)
Theorem delta_of_the_same_batch (current : list dict) (key_field : string) :
  Forall (fun item => Forall (fun field => agree_on field item item)
                        dashboard.sensitive_fields) current →
  dashboard._calculate_delta current (dashboard.by_key key_field current) key_field
  = Ok {| dashboard.new := [];
          dashboard.changed := [];
          dashboard.resolved := [];
          dashboard.all := current |}.
Proof.
  intros Hagree.
  destruct (delta_spec current (dashboard.by_key key_field current) key_field)
    as (d & Heq & Hall & Hnew & Hchanged & Hresolved).
  rewrite Heq. f_equal.
  rewrite by_key_dom in Hnew, Hchanged, Hresolved.
  rewrite difference_diag_L, elements_empty in Hnew, Hresolved.
  apply Forall2_nil_inv_l in Hnew, Hresolved.
  rewrite filter_none in Hchanged.
  - apply Forall2_nil_inv_l in Hchanged.
    destruct d as [new changed resolved all]. simpl in *. subst. reflexivity.
  - intros k _. unfold is_changed.
    destruct (dashboard.by_key key_field current !! k) as [item|] eqn:Ek; [|discriminate].
    rewrite by_key_lookup in Ek. apply latest_in in Ek. destruct Ek as [Hin _].
    rewrite Forall_forall in Hagree. specialize (Hagree item Hin).
    unfold changes. rewrite (changes_in_agree _ item item Hagree). discriminate.
Qed.

Lemma delta_of_the_same_batch_witness :
  Forall (fun item => Forall (fun field => agree_on field item item)
                        dashboard.sensitive_fields)
    [ session_10_now; session_11_now ]
  ∧ dashboard._calculate_delta [ session_10_now; session_11_now ]
      (dashboard.by_key "blocking_session_id" [ session_10_now; session_11_now ])
      "blocking_session_id"
    = Ok {| dashboard.new := [];
            dashboard.changed := [];
            dashboard.resolved := [];
            dashboard.all := [ session_10_now; session_11_now ] |}.
Proof.
  assert (H : Forall (fun item => Forall (fun field => agree_on field item item)
                        dashboard.sensitive_fields)
                [ session_10_now; session_11_now ]).
  { repeat constructor; vm_compute; trivial. }
  split; [exact H|].
  apply (delta_of_the_same_batch [ session_10_now; session_11_now ]
           "blocking_session_id" H).
Defined.

(** ** collector.py: a mock collection and what follows it *)

Lemma collect_mock_spec (B : backend) (sample_events : list nat) (s : collector.store) :
  Forall (fun l => l < length (collector.objects s))%nat sample_events →
  ∃ ds,
    Forall2 (fun l d => collector.objects s !! l = Some d) sample_events ds
    ∧ collector.collect_mock B sample_events s
      = Some (seq (length (collector.objects s)) (length sample_events),
              {| collector.objects :=
                   collector.objects s
                   ++ List.map (enriched_dict B (clock_at B (collector.readings s))) ds;
                 collector.readings := S (collector.readings s) |}).
Proof.
  intros Hall. destruct s as [objs n]. simpl in *.
  destruct (enrich_spec B (clock_at B n) objs sample_events Hall) as (ds & Hds & Hrun).
  specialize (Hrun [] [] (S n)). rewrite app_nil_r in Hrun.
  exists ds. split; [exact Hds|].
  unfold collector.collect_mock, collector.bindC, collector._now_iso. simpl. exact Hrun.
Qed.

Lemma Forall2_right {A B} (R : A → B → Prop) (Q : B → Prop) (l : list A) (k : list B) :
  Forall2 R l k → (∀ x y, R x y → Q y) → Forall Q k.
Proof.
  intros H HQ. induction H as [|x y l k Hxy _ IH]; constructor; eauto.
Qed.

Lemma rules_read_type_and_payload (event event' : dict) (rule : dict) :
  dict_lookup "event_type" event' = dict_lookup "event_type" event →
  dict_lookup "payload" event' = dict_lookup "payload" event →
  same_type event' rule = same_type event rule
  ∧ rule_value event' rule = rule_value event rule
  ∧ fires event' rule = fires event rule.
Proof.
  intros Ht Hp.
  assert (Hs : same_type event' rule = same_type event rule)
    by (unfold same_type, dict_get; rewrite Ht; reflexivity).
  assert (Hv : rule_value event' rule = rule_value event rule)
    by (unfold rule_value, dict_get_or; rewrite Hp; reflexivity).
  split; [exact Hs|]. split; [exact Hv|].
  unfold fires. rewrite Hs, Hv. reflexivity.
Qed.

(** X19 ([collect_mock] with [evaluate_rules] and
    [_get_fallback_explanation]).  The copy a mock collection makes of a
    sample event is, for the rules and for the fallback, the sample event:
    every rule is of the type of both or of neither, its comparison gives
    the same on both, so it fires on both or on neither, and the fallback
    explains both alike. *)
Theorem mock_copies_fire_alike (B : backend) (sample_events : list nat)
    (s : collector.store) :
  Forall (fun l => l < length (collector.objects s))%nat sample_events →
  ∃ enriched s',
    collector.collect_mock B sample_events s = Some (enriched, s')
    ∧ Forall2 (fun l c =>
                 ∃ d e,
                   collector.objects s !! l = Some d
                   ∧ collector.objects s' !! c = Some e
                   ∧ (∀ rule, same_type e rule = same_type d rule
                              ∧ rule_value e rule = rule_value d rule
                              ∧ fires e rule = fires d rule)
                   ∧ explainer._get_fallback_explanation e
                     = explainer._get_fallback_explanation d)
        sample_events enriched.
Proof.
  intros Hall.
  destruct (collect_mock_spec B sample_events s Hall) as (ds & Hds & Hrun).
  eexists _, _. split; [exact Hrun|]. simpl.
  set (now := clock_at B (collector.readings s)).
  pose proof (copies_after (enriched_dict B now) (collector.objects s) sample_events ds
                Hds []) as Hc.
  simpl in Hc. rewrite Nat.add_0_r in Hc.
  eapply Forall2_impl; [exact Hc|].
  intros l c (_ & d & Hl & He). exists d, (enriched_dict B now d).
  destruct (enriched_dict_fields B now d) as (_ & _ & _ & Hother).
  assert (Ht : dict_lookup "event_type" (enriched_dict B now d) = dict_lookup "event_type" d)
    by (apply Hother; discriminate).
  assert (Hp : dict_lookup "payload" (enriched_dict B now d) = dict_lookup "payload" d)
    by (apply Hother; discriminate).
  split; [exact Hl|]. split; [exact He|]. split.
  - intros rule. apply rules_read_type_and_payload; assumption.
  - apply fallback_fields; assumption.
Qed.

Lemma mock_copies_fire_alike_witness :
  Forall (fun l => l < length (collector.objects replay_store))%nat [ 0%nat ]
  ∧ ∃ enriched s', collector.collect_mock offline [ 0%nat ] replay_store = Some (enriched, s').
Proof.
  assert (H : Forall (fun l => l < length (collector.objects replay_store))%nat [ 0%nat ])
    by (repeat constructor).
  split; [exact H|].
  destruct (mock_copies_fire_alike offline [ 0%nat ] replay_store H)
    as (enriched & s' & Hrun & _).
  exists enriched, s'. exact Hrun.
Defined.

Lemma enriched_again (B : backend) (now later : string) (d : dict) :
  enriched_dict B later (enriched_dict B now d)
  = dict_set "@timestamp" (VStr later) (enriched_dict B now d).
Proof.
  destruct (enriched_dict_fields B now d) as (_ & Hhost & Hinstance & _).
  set (e := enriched_dict B now d) in *.
  unfold enriched_dict at 1.
  assert (Hh : dict_setdefault "host" (VStr (host_name (settings B)))
                 (dict_set "@timestamp" (VStr later) e)
               = dict_set "@timestamp" (VStr later) e).
  { unfold dict_setdefault, dict_has. rewrite dict_lookup_set.
    cbn [String.eqb Ascii.eqb Bool.eqb]. rewrite Hhost. reflexivity. }
  rewrite Hh.
  unfold dict_setdefault, dict_has. rewrite dict_lookup_set.
  cbn [String.eqb Ascii.eqb Bool.eqb]. rewrite Hinstance. reflexivity.
Qed.

(** X20 ([collect_mock] after [collect_mock]).  A mock collection over
    the copies of an earlier one only sets the timestamp anew: each second
    copy is the first copy with the timestamp of the second collection,
    the host, the instance and every other field as they were. *)
Theorem recollection_only_restamps (B : backend) (sample_events : list nat)
    (s : collector.store) :
  Forall (fun l => l < length (collector.objects s))%nat sample_events →
  ∃ enriched s1 again s2,
    collector.collect_mock B sample_events s = Some (enriched, s1)
    ∧ collector.collect_mock B enriched s1 = Some (again, s2)
    ∧ Forall2 (fun c a =>
                 ∃ e, collector.objects s1 !! c = Some e
                      ∧ collector.objects s2 !! a
                        = Some (dict_set "@timestamp"
                                  (VStr (clock_at B (S (collector.readings s)))) e))
        enriched again.
Proof.
  intros Hall.
  destruct (collect_mock_spec B sample_events s Hall) as (ds & Hds & Hrun).
  set (now := clock_at B (collector.readings s)) in *.
  set (s1 := {| collector.objects :=
                  collector.objects s ++ List.map (enriched_dict B now) ds;
                collector.readings := S (collector.readings s) |}) in *.
  set (enriched := seq (length (collector.objects s)) (length sample_events)) in *.
  pose proof (copies_after (enriched_dict B now) (collector.objects s) sample_events ds
                Hds []) as Hfirst.
  simpl in Hfirst. rewrite Nat.add_0_r in Hfirst. fold enriched in Hfirst.
  assert (Hcopies : Forall (fun c => ∃ d, collector.objects s1 !! c
                                          = Some (enriched_dict B now d)) enriched).
  { eapply Forall2_right; [exact Hfirst|].
    intros l c (_ & d & _ & He). exists d. exact He. }
  assert (Hbound : Forall (fun c => c < length (collector.objects s1))%nat enriched).
  { eapply Forall_impl; [exact Hcopies|].
    intros c (d & Hc). apply lookup_lt_Some in Hc. exact Hc. }
  destruct (collect_mock_spec B enriched s1 Hbound) as (es & Hes & Hagain).
  eexists enriched, s1, _, _. split; [exact Hrun|]. split; [exact Hagain|].
  simpl collector.objects.
  set (later := clock_at B (collector.readings s1)).
  pose proof (copies_after (enriched_dict B later) (collector.objects s1) enriched es
                Hes []) as Hsecond.
  simpl app in Hsecond. rewrite Nat.add_0_r in Hsecond.
  assert (Hboth : Forall2 (fun c a =>
                    (∃ d, collector.objects s1 !! c = Some (enriched_dict B now d))
                    ∧ (length (collector.objects s1) ≤ a)%nat
                      ∧ ∃ e, collector.objects s1 !! c = Some e
                             ∧ (collector.objects s1 ++ List.map (enriched_dict B later) es)
                                 !! a = Some (enriched_dict B later e))
                    enriched
                    (seq (length (collector.objects s1)) (length enriched))).
  { apply Forall2_and_l; [exact Hsecond|exact Hcopies]. }
  eapply Forall2_impl; [exact Hboth|].
  intros c a ((d & Hd) & _ & e & He & Ha). exists e. split; [exact He|].
  etransitivity; [exact Ha|]. f_equal.
  rewrite Hd in He. injection He as <-. apply enriched_again.
Qed.

Lemma recollection_only_restamps_witness :
  Forall (fun l => l < length (collector.objects replay_store))%nat [ 0%nat ]
  ∧ ∃ enriched s1 again s2,
      collector.collect_mock offline [ 0%nat ] replay_store = Some (enriched, s1)
      ∧ collector.collect_mock offline enriched s1 = Some (again, s2).
Proof.
  assert (H : Forall (fun l => l < length (collector.objects replay_store))%nat [ 0%nat ])
    by (repeat constructor).
  split; [exact H|].
  destruct (recollection_only_restamps offline [ 0%nat ] replay_store H)
    as (enriched & s1 & again & s2 & Hrun & Hagain & _).
  exists enriched, s1, again, s2. split; [exact Hrun|exact Hagain].
Defined.
